(** * Lightener: brightness curves and group reconciliation

    A shallow embedding of [custom_components/lightener/light.py]:
    the construction of the per-light lookup tables
    ([LightenerControlledLight.__init__]), the two translation functions,
    the group reconciliation pass ([LightenerLight.async_update_group_state])
    and the command fan-out ([async_turn_on], [async_turn_off]); and of the
    options flow of [custom_components/lightener/config_flow.py].

    Conventions of the embedding.
    - Python [int] is [Z]; a Python list is a [list]; [None] is [None].
    - [math.ceil] of a float expression is [Qceiling] of the same
      expression over the rationals.  Every quotient the source forms has a
      numerator below 2^16 and a denominator of at most 255, so a non-integer
      quotient stays at least 1/255 away from the integers while the
      floating-point error is below 2^-40: both computations take the same
      ceiling.
    - An [IndexError] raised by a list subscript is [None] in the [option]
      monad; negative subscripts count from the end, as in Python.
    - A Python [set] is a [gset]; [set.pop] returns an unspecified member
      and is a parameter of the reconciliation section. *)

From Stdlib Require Import ZArith QArith Qround Lia.
From stdpp Require Import base option list sorting gmap strings pretty.

Local Open Scope Z_scope.

(** ** Python primitives *)

(** [range(start, stop, step)] for a non-zero [step]. *)
Definition py_range (start stop step : Z) : list Z :=
  let len :=
    if decide (0 < step) then (stop - start + step - 1) / step
    else (start - stop - step - 1) / (- step) in
  (λ k, start + k * step) <$> seqZ 0 len.

(** Normalisation of a list subscript: [Some] position, or [None] where
    Python raises [IndexError]. *)
Definition py_index {A} (l : list A) (i : Z) : option nat :=
  if decide (0 ≤ i < Z.of_nat (length l)) then Some (Z.to_nat i)
  else if decide (- Z.of_nat (length l) ≤ i < 0)
       then Some (Z.to_nat (Z.of_nat (length l) + i))
       else None.

(** [l[i]] *)
Definition getitem {A} (l : list A) (i : Z) : option A :=
  n ← py_index l i; l !! n.

(** [t[i].append(x)] on a list of lists. *)
Definition append_at (t : list (list Z)) (i x : Z) : option (list (list Z)) :=
  n ← py_index t i; l ← t !! n; Some (<[n := l ++ [x]]> t).

(** A [for] loop whose body may raise. *)
Fixpoint for_each {S A} (body : S → A → option S) (xs : list A) (s : S)
  : option S :=
  match xs with
  | [] => Some s
  | x :: xs' => s' ← body s x; for_each body xs' s'
  end.

(** [math.ceil] *)
Definition math_ceil (x : Q) : Z := Qceiling x.

(** Python's [round] on a rational: to the nearest integer, ties to even. *)
Definition py_round (x : Q) : Z :=
  let f := Qfloor x in
  match (x - inject_Z f ?= 1 # 2)%Q with
  | Lt => f
  | Gt => f + 1
  | Eq => if Z.even f then f else f + 1
  end.

(** Comparison of two [(key, value)] tuples, as [sorted] uses it. *)
Definition tuple_le (a b : Z * Z) : Prop :=
  a.1 < b.1 ∨ (a.1 = b.1 ∧ a.2 ≤ b.2).

#[global] Instance tuple_le_dec : RelDecision tuple_le.
Proof. intros a b. unfold tuple_le. apply _. Defined.

(** [sorted(d.items())] for a dict with integer keys and values. *)
Definition sorted_items (d : gmap Z Z) : list (Z * Z) :=
  merge_sort tuple_le (map_to_list d).

(** [d.setdefault(k, v)], keeping only the effect on the dict. *)
Definition setdefault (k v : Z) (d : gmap Z Z) : gmap Z Z :=
  match d !! k with
  | Some _ => d
  | None => <[k := v]> d
  end.

(** ** Home Assistant's brightness scaling

    [homeassistant.util.color.value_to_brightness] is library code; the
    development is parametric in it (section [Curve]).  The definition below
    follows the library and instantiates the parameter in examples. *)

Definition states_in_range (r : Z * Z) : Z := r.2 - r.1 + 1.

Definition scale_to_ranged_value (source target : Z * Z) (value : Z) : Q :=
  let source_offset := source.1 - 1 in
  let target_offset := target.1 - 1 in
  (inject_Z ((value - source_offset) * states_in_range target)
     / inject_Z (states_in_range source) + inject_Z target_offset)%Q.

Definition ha_value_to_brightness (low_high_range : Z * Z) (value : Z) : Z :=
  Z.min 255
    (Z.max 1 (py_round (scale_to_ranged_value low_high_range (1, 255) value))).

(** ** The controlled light *)

Inductive LightType := TYPE_DIMMABLE | TYPE_ONOFF.

#[global] Instance LightType_eq_dec : EqDecision LightType.
Proof. solve_decision. Defined.

Inductive ColorMode :=
  | UNKNOWN | ONOFF | BRIGHTNESS | COLOR_TEMP | HS | XY | RGB | RGBW | RGBWW
  | WHITE.

#[global] Instance ColorMode_eq_dec : EqDecision ColorMode.
Proof. solve_decision. Defined.

(** What the source reads from a Home Assistant [State]: the state string
    and two attributes.  [attr_brightness] is [None] when the attribute is
    missing and [Some None] when it is present with value [None]. *)
Record State := {
  state_entity_id : string;
  state : string;
  attr_brightness : option (option Z);
  attr_supported_color_modes : option (list ColorMode)
}.

Definition STATE_ON : string := "on".

(** [hass.states.get] *)
Definition Hass := string → option State.

Record LightenerControlledLight := {
  entity_id : string;
  _type : option LightType;
  levels : list Z;
  to_lightener_levels : list (list Z);
  levels_on_off : list Z;
  to_lightener_levels_on_off : list (list Z)
}.

(** The four tables while they are being filled, with the loop-carried
    [previous_lightener_level] and [previous_light_level]. *)
Record Tables := {
  t_levels : list Z;
  t_to_lightener_levels : list (list Z);
  t_levels_on_off : list Z;
  t_to_lightener_levels_on_off : list (list Z)
}.

Definition on_off (value : Z) : Z := if decide (value > 0) then 255 else 0.

(** The interpolated value of both inner loops:
    [math.ceil(a + (b - a) * (i - c) / (d - c))].  Neither loop runs with
    [d = c]: its range is empty then, so the division by zero of the source
    is never reached. *)
Definition interpolate (a b c d i : Z) : Z :=
  math_ceil (inject_Z a + inject_Z ((b - a) * (i - c)) / inject_Z (d - c))%Q.

(** Body of the first inner loop (lightener -> entity). *)
Definition forward_step (previous_lightener_level previous_light_level
                         lightener_level light_level : Z)
    (t : Tables) (i : Z) : option Tables :=
  let value_at_current_level :=
    interpolate previous_light_level light_level
                previous_lightener_level lightener_level i in
  tl ← append_at (t_to_lightener_levels t) value_at_current_level i;
  tlo ← append_at (t_to_lightener_levels_on_off t)
                  (on_off value_at_current_level) i;
  Some {| t_levels := t_levels t ++ [value_at_current_level];
          t_to_lightener_levels := tl;
          t_levels_on_off := t_levels_on_off t ++ [on_off value_at_current_level];
          t_to_lightener_levels_on_off := tlo |}.

(** The configured point itself. *)
Definition point_step (lightener_level light_level : Z) (t : Tables)
  : option Tables :=
  tl ← append_at (t_to_lightener_levels t) light_level lightener_level;
  tlo ← append_at (t_to_lightener_levels_on_off t) (on_off light_level)
                  lightener_level;
  Some {| t_levels := t_levels t ++ [light_level];
          t_to_lightener_levels := tl;
          t_levels_on_off := t_levels_on_off t ++ [on_off light_level];
          t_to_lightener_levels_on_off := tlo |}.

(** Body of the second inner loop (entity -> lightener). *)
Definition reverse_step (previous_lightener_level previous_light_level
                         lightener_level light_level : Z)
    (t : Tables) (i : Z) : option Tables :=
  let value_at_current_level :=
    interpolate previous_lightener_level lightener_level
                previous_light_level light_level i in
  known ← getitem (t_to_lightener_levels t) i;
  if decide (value_at_current_level ∈ known) then Some t
  else
    tl ← append_at (t_to_lightener_levels t) i value_at_current_level;
    tlo ← append_at (t_to_lightener_levels_on_off t)
                    (on_off value_at_current_level) value_at_current_level;
    Some {| t_levels := t_levels t;
            t_to_lightener_levels := tl;
            t_levels_on_off := t_levels_on_off t;
            t_to_lightener_levels_on_off := tlo |}.

(** One iteration of the loop over [config_levels.items()]; the state is the
    tables with the previous point. *)
Definition segment_step (st : Tables * (Z * Z)) (item : Z * Z)
  : option (Tables * (Z * Z)) :=
  let '(t, (previous_lightener_level, previous_light_level)) := st in
  let '(lightener_level, light_level) := item in
  t1 ← for_each (forward_step previous_lightener_level previous_light_level
                              lightener_level light_level)
                (py_range (previous_lightener_level + 1) lightener_level 1) t;
  t2 ← point_step lightener_level light_level t1;
  t3 ← for_each (reverse_step previous_lightener_level previous_light_level
                              lightener_level light_level)
                (py_range previous_light_level light_level
                          (if decide (previous_light_level < light_level)
                           then 1 else -1)) t2;
  Some (t3, (lightener_level, light_level)).

Definition initial_tables : Tables :=
  {| t_levels := [0];
     t_to_lightener_levels := replicate 256 [];
     t_levels_on_off := [0];
     t_to_lightener_levels_on_off := replicate 256 [] |}.

Definition fill_levels (items : list (Z * Z)) : option Tables :=
  fst <$> for_each segment_step items (initial_tables, (0, 0)).

Section Curve.

(** [homeassistant.util.color.value_to_brightness] *)
Variable value_to_brightness : Z * Z → Z → Z.

Definition _convert_percent_to_brightness (percent : Z) : Z :=
  if decide (percent = 0) then 0 else value_to_brightness (1, 100) percent.

(** The dict [config_levels] after the first loop and [setdefault].
    [brightness] lists the items of [config.get("brightness", {})] in
    iteration order, keys and values already passed through [int]. *)
Definition config_levels (brightness : list (Z * Z)) : gmap Z Z :=
  setdefault 255 255
    (foldl (λ d kv, <[_convert_percent_to_brightness kv.1 :=
                        _convert_percent_to_brightness kv.2]> d)
           ∅ brightness).

(** [LightenerControlledLight.__init__] *)
Definition __init__ (id : string) (brightness : list (Z * Z))
  : option LightenerControlledLight :=
  t ← fill_levels (sorted_items (config_levels brightness));
  Some {| entity_id := id;
          _type := None;
          levels := t_levels t;
          to_lightener_levels := t_to_lightener_levels t;
          levels_on_off := t_levels_on_off t;
          to_lightener_levels_on_off := t_to_lightener_levels_on_off t |}.

End Curve.

(** The [type] property: the cached type, resolved from the live state on
    first success.  Returns the light with its cache and the type. *)
Definition type (hass : Hass) (self : LightenerControlledLight)
  : LightenerControlledLight * option LightType :=
  match _type self with
  | Some ty => (self, Some ty)
  | None =>
      match hass (entity_id self) with
      | None => (self, None)
      | Some st =>
          let ty :=
            match attr_supported_color_modes st with
            | Some supported_color_modes =>
                if bool_decide (supported_color_modes ≠ [])
                   && bool_decide (ONOFF ∈ supported_color_modes)
                   && bool_decide (length supported_color_modes = 1%nat)
                then TYPE_ONOFF else TYPE_DIMMABLE
            | None => TYPE_DIMMABLE
            end in
          ({| entity_id := entity_id self;
              _type := Some ty;
              levels := levels self;
              to_lightener_levels := to_lightener_levels self;
              levels_on_off := levels_on_off self;
              to_lightener_levels_on_off := to_lightener_levels_on_off self |},
           Some ty)
      end
  end.

(** [translate_brightness]: the light (type cache updated) and the entity
    brightness, [None] for [IndexError]. *)
Definition translate_brightness (hass : Hass) (self : LightenerControlledLight)
    (brightness : Z) : LightenerControlledLight * option Z :=
  let '(self', ty) := type hass self in
  if decide (ty = Some TYPE_ONOFF)
  then (self', getitem (levels_on_off self') brightness)
  else (self', getitem (levels self') brightness).

(** [translate_brightness_back]; the outer [option] is [IndexError]. *)
Definition translate_brightness_back (hass : Hass)
    (self : LightenerControlledLight) (brightness : option Z)
  : LightenerControlledLight * option (list Z) :=
  match brightness with
  | None => (self, Some [])
  | Some b =>
      let '(self', ty) := type hass self in
      if decide (ty = Some TYPE_ONOFF)
      then (self', getitem (to_lightener_levels_on_off self') b)
      else (self', getitem (to_lightener_levels self') b)
  end.

(** ** The Lightener group *)

(** Values of service-call and keyword arguments. *)
Inductive Value :=
  | VInt (z : Z)
  | VStr (s : string)
  | VIds (ids : list string).

Definition ATTR_BRIGHTNESS : string := "brightness".
Definition ATTR_TRANSITION : string := "transition".
Definition ATTR_ENTITY_ID : string := "entity_id".
Definition SERVICE_TURN_ON : string := "turn_on".
Definition SERVICE_TURN_OFF : string := "turn_off".

(** One [hass.services.async_call(LIGHT_DOMAIN, service, data, ...)]. *)
Record Command := {
  service : string;
  service_data : gmap string Value
}.

(** What the group base class computes from the member states. *)
Record GroupAttrs := {
  g_is_on : option bool;
  g_brightness : option Z;
  g_color_mode : option ColorMode;
  g_supported_color_modes : option (list ColorMode)
}.

(** The Lightener object.  [published] is the log of states handed to the
    state machine by [super().async_write_ha_state()]: the pair of [is_on]
    and [brightness] at that moment, oldest first. *)
Record LightenerLight := {
  _is_frozen : bool;
  _prefered_brightness : option Z;
  _attr_brightness : option Z;
  _attr_is_on : option bool;
  _attr_color_mode : option ColorMode;
  _attr_supported_color_modes : option (list ColorMode);
  _entity_ids : list string;
  _entities : list LightenerControlledLight;
  published : list (option bool * option Z)
}.

Definition set_is_frozen (b : bool) (self : LightenerLight) : LightenerLight :=
  {| _is_frozen := b;
     _prefered_brightness := _prefered_brightness self;
     _attr_brightness := _attr_brightness self;
     _attr_is_on := _attr_is_on self;
     _attr_color_mode := _attr_color_mode self;
     _attr_supported_color_modes := _attr_supported_color_modes self;
     _entity_ids := _entity_ids self;
     _entities := _entities self;
     published := published self |}.

Definition set_prefered_brightness (v : option Z) (self : LightenerLight)
  : LightenerLight :=
  {| _is_frozen := _is_frozen self;
     _prefered_brightness := v;
     _attr_brightness := _attr_brightness self;
     _attr_is_on := _attr_is_on self;
     _attr_color_mode := _attr_color_mode self;
     _attr_supported_color_modes := _attr_supported_color_modes self;
     _entity_ids := _entity_ids self;
     _entities := _entities self;
     published := published self |}.

Definition set_attr_brightness (v : option Z) (self : LightenerLight)
  : LightenerLight :=
  {| _is_frozen := _is_frozen self;
     _prefered_brightness := _prefered_brightness self;
     _attr_brightness := v;
     _attr_is_on := _attr_is_on self;
     _attr_color_mode := _attr_color_mode self;
     _attr_supported_color_modes := _attr_supported_color_modes self;
     _entity_ids := _entity_ids self;
     _entities := _entities self;
     published := published self |}.

Definition set_group_attrs (g : GroupAttrs) (self : LightenerLight)
  : LightenerLight :=
  {| _is_frozen := _is_frozen self;
     _prefered_brightness := _prefered_brightness self;
     _attr_brightness := g_brightness g;
     _attr_is_on := g_is_on g;
     _attr_color_mode := g_color_mode g;
     _attr_supported_color_modes := g_supported_color_modes g;
     _entity_ids := _entity_ids self;
     _entities := _entities self;
     published := published self |}.

Definition set_color_modes (m : option ColorMode) (ms : option (list ColorMode))
    (self : LightenerLight) : LightenerLight :=
  {| _is_frozen := _is_frozen self;
     _prefered_brightness := _prefered_brightness self;
     _attr_brightness := _attr_brightness self;
     _attr_is_on := _attr_is_on self;
     _attr_color_mode := m;
     _attr_supported_color_modes := ms;
     _entity_ids := _entity_ids self;
     _entities := _entities self;
     published := published self |}.

Definition set_entities (es : list LightenerControlledLight)
    (self : LightenerLight) : LightenerLight :=
  {| _is_frozen := _is_frozen self;
     _prefered_brightness := _prefered_brightness self;
     _attr_brightness := _attr_brightness self;
     _attr_is_on := _attr_is_on self;
     _attr_color_mode := _attr_color_mode self;
     _attr_supported_color_modes := _attr_supported_color_modes self;
     _entity_ids := _entity_ids self;
     _entities := es;
     published := published self |}.

Definition publish (self : LightenerLight) : LightenerLight :=
  {| _is_frozen := _is_frozen self;
     _prefered_brightness := _prefered_brightness self;
     _attr_brightness := _attr_brightness self;
     _attr_is_on := _attr_is_on self;
     _attr_color_mode := _attr_color_mode self;
     _attr_supported_color_modes := _attr_supported_color_modes self;
     _entity_ids := _entity_ids self;
     _entities := _entities self;
     published := published self ++ [(_attr_is_on self, _attr_brightness self)] |}.

(** How a call ended. *)
Inductive Outcome := Returned | Raised.

#[global] Instance Outcome_eq_dec : EqDecision Outcome.
Proof. solve_decision. Defined.

(** [self.is_on], as a condition. *)
Definition is_on (self : LightenerLight) : bool :=
  bool_decide (_attr_is_on self = Some true).

(** The brightness the voting loop reads from a state. *)
Definition observed_brightness (st : State) : option Z :=
  if decide (state st = STATE_ON)
  then default (Some 255) (attr_brightness st)
  else Some 0.

(** The inner loop [for entity in self._entities] for one state: the
    entities (type caches updated) and the extended [levels], or [None]
    where a translation raised. *)
Fixpoint vote_state (hass : Hass) (st : State)
    (entities : list LightenerControlledLight) (levels : list (list Z))
  : list LightenerControlledLight * option (list (list Z)) :=
  match entities with
  | [] => ([], Some levels)
  | entity :: rest =>
      if decide (entity_id entity = state_entity_id st) then
        let entity_brightness := observed_brightness st in
        let '(entity', r) :=
          match entity_brightness with
          | Some _ => translate_brightness_back hass entity entity_brightness
          | None => (entity, Some [])
          end in
        match r with
        | Some candidates =>
            let '(rest', out) :=
              vote_state hass st rest (levels ++ [candidates]) in
            (entity' :: rest', out)
        | None => (entity' :: rest, None)
        end
      else
        let '(rest', out) := vote_state hass st rest levels in
        (entity :: rest', out)
  end.

(** The outer loop [for entity_id in self._entity_ids]. *)
Fixpoint gather_levels (hass : Hass) (entity_ids : list string)
    (entities : list LightenerControlledLight) (levels : list (list Z))
  : list LightenerControlledLight * option (list (list Z)) :=
  match entity_ids with
  | [] => (entities, Some levels)
  | id :: ids =>
      match hass id with
      | None => gather_levels hass ids entities levels
      | Some st =>
          let '(entities', r) := vote_state hass st entities levels in
          match r with
          | Some levels' => gather_levels hass ids entities' levels'
          | None => (entities', None)
          end
      end
  end.

(** A Python set of brightness values; [None] can be a member. *)
Abbreviation pyset := (gset (option Z)).

(** [set(l)] for a list of integers. *)
Definition set_of (l : list Z) : pyset := list_to_set (Some <$> l).

(** [s.intersection] applied to the unpacked list [others]. *)
Definition intersection (s : pyset) (others : list pyset) : pyset :=
  foldl (∩) s others.

(** The [if levels:] block: the value assigned to [common_level]. *)
Definition common_level_of (prefered : option Z) (levels : list (list Z))
  : option pyset :=
  match levels with
  | [] => None
  | l :: ls =>
      if decide (0 < size (intersection {[prefered]} (set_of <$> levels)))%nat
      then Some {[prefered]}
      else Some (intersection (set_of l) (set_of <$> ls))
  end.

(** The closing part of [async_update_group_state]: the Lightener always
    reports brightness support. *)
Definition fix_color_modes (self : LightenerLight) : LightenerLight :=
  let color_mode :=
    if decide (_attr_color_mode self = Some ONOFF) then Some BRIGHTNESS
    else _attr_color_mode self in
  let supported :=
    match _attr_supported_color_modes self with
    | Some (m :: ms) => filter (λ x, x ≠ ONOFF) (m :: ms)
    | _ => []
    end in
  let supported :=
    if decide (length supported = 0%nat) then [BRIGHTNESS] else supported in
  set_color_modes color_mode (Some supported) self.

Section Group.

(** [LightGroup.async_update_group_state], the base class: the attributes
    it derives from the member states. *)
Variable group_state : Hass → list string → GroupAttrs.

(** [set.pop]: which member comes out is left to the implementation. *)
Variable set_pop : pyset → option Z.

(** [FORWARDED_ATTRIBUTES] of the group integration. *)
Variable FORWARDED_ATTRIBUTES : list string.

(** [LightGroup.async_turn_off]: the service calls it awaits. *)
Variable group_turn_off : gmap string Value → list string → list Command.

(** [async_update_group_state] *)
Definition async_update_group_state (hass : Hass) (self : LightenerLight)
  : LightenerLight * Outcome :=
  if _is_frozen self then (self, Returned)
  else
    let self := set_group_attrs (group_state hass (_entity_ids self)) self in
    let '(self, common_level) :=
      if is_on self then
        let '(entities, levels) :=
          gather_levels hass (_entity_ids self) (_entities self) [] in
        (set_entities entities self,
         common_level_of (_prefered_brightness self) <$> levels)
      else (self, Some None) in
    match common_level with
    | None => (self, Raised)
    | Some common_level =>
        let brightness :=
          match common_level with
          | Some s =>
              if decide (s ≠ ∅) then set_pop s
              else if is_on self then _prefered_brightness self else None
          | None => if is_on self then _prefered_brightness self else None
          end in
        (fix_color_modes (set_attr_brightness brightness self), Returned)
    end.

(** [async_write_ha_state] *)
Definition async_write_ha_state (self : LightenerLight) : LightenerLight :=
  if _is_frozen self then self else publish self.

(** The group's listener for a state change of a member: update, then
    write.  An exception of the update is logged by the event loop and the
    write is skipped. *)
Definition on_state_change (hass : Hass) (self : LightenerLight)
  : LightenerLight :=
  match async_update_group_state hass self with
  | (self', Returned) => async_write_ha_state self'
  | (self', Raised) => self'
  end.

(** What happens while one service call is awaited: the state changes
    whose notifications arrive meanwhile, oldest first, and whether the
    call completes or raises. *)
Record Await := {
  arrivals : list Hass;
  completes : bool
}.

(** The running coroutine: the object, the state machine as last seen,
    the awaits still to come and the calls made so far. *)
Record Run := {
  run_self : LightenerLight;
  run_hass : Hass;
  run_schedule : list Await;
  run_calls : list Command
}.

(** [await self.hass.services.async_call(...)] *)
Definition await_call (c : Command) (r : Run) : Run * Outcome :=
  let a := default {| arrivals := []; completes := true |}
                   (head (run_schedule r)) in
  ({| run_self := foldl (λ s h, on_state_change h s) (run_self r) (arrivals a);
      run_hass := default (run_hass r) (last (arrivals a));
      run_schedule := tail (run_schedule r);
      run_calls := run_calls r ++ [c] |},
   if completes a then Returned else Raised).

(** The command for one entity in [async_turn_on]. *)
Definition entity_command (data : gmap string Value) (brightness : option Z)
    (entity_brightness : option Z) (id : string) : Command :=
  if decide (entity_brightness = Some 0) then
    let entity_data : gmap string Value :=
      match data !! ATTR_TRANSITION with
      | Some v => {[ATTR_TRANSITION := v]}
      | None => ∅
      end in
    {| service := SERVICE_TURN_OFF;
       service_data := <[ATTR_ENTITY_ID := VStr id]> entity_data |}
  else
    let entity_data :=
      match brightness, entity_brightness with
      | Some _, Some b => <[ATTR_BRIGHTNESS := VInt b]> data
      | _, _ => data
      end in
    {| service := SERVICE_TURN_ON;
       service_data := <[ATTR_ENTITY_ID := VStr id]> entity_data |}.

Definition with_entities (es : list LightenerControlledLight) (r : Run)
  : Run :=
  {| run_self := set_entities es (run_self r);
     run_hass := run_hass r;
     run_schedule := run_schedule r;
     run_calls := run_calls r |}.

(** The loop [for entity in self._entities] of [async_turn_on]; [done]
    counts the entities already served. *)
Fixpoint dispatch (data : gmap string Value) (brightness : option Z)
    (todo : list LightenerControlledLight) (done : nat) (r : Run)
  : Run * Outcome :=
  match todo with
  | [] => (r, Returned)
  | entity :: rest =>
      let '(entity', entity_brightness) :=
        match brightness with
        | Some b =>
            let '(e, v) := translate_brightness (run_hass r) entity b in
            (e, Some v)
        | None => (entity, None)
        end in
      let r := with_entities (<[done := entity']> (_entities (run_self r))) r in
      match entity_brightness with
      | Some None => (r, Raised)
      | _ =>
          let c := entity_command data brightness (mjoin entity_brightness)
                                  (entity_id entity') in
          match await_call c r with
          | (r', Returned) => dispatch data brightness rest (S done) r'
          | (r', Raised) => (r', Raised)
          end
      end
  end.

Definition with_self (self : LightenerLight) (r : Run) : Run :=
  {| run_self := self;
     run_hass := run_hass r;
     run_schedule := run_schedule r;
     run_calls := run_calls r |}.

(** The common tail of both commands: unfreeze, update, write. *)
Definition settle (r : Run) : Run * Outcome :=
  let self := set_is_frozen false (run_self r) in
  match async_update_group_state (run_hass r) self with
  | (self', Returned) => (with_self (async_write_ha_state self') r, Returned)
  | (self', Raised) => (with_self self' r, Raised)
  end.

Definition kwargs_brightness (kwargs : gmap string Value) : option Z :=
  match kwargs !! ATTR_BRIGHTNESS with
  | Some (VInt b) => Some b
  | _ => None
  end.

(** The first part of [async_turn_on], up to [self._is_frozen = True]:
    the brightness to translate and the object. *)
Definition begin_turn_on (kwargs : gmap string Value) (self : LightenerLight)
  : option Z * LightenerLight :=
  let brightness := kwargs_brightness kwargs in
  let '(brightness, self) :=
    match brightness, _attr_brightness self with
    | None, Some b =>
        if decide (b ≠ 0) then (Some b, self)
        else (brightness, set_attr_brightness brightness self)
    | _, _ => (brightness, set_attr_brightness brightness self)
    end in
  let '(brightness, self) :=
    match brightness with
    | None => (_prefered_brightness self, self)
    | Some _ => (brightness, set_prefered_brightness brightness self)
    end in
  (brightness, set_is_frozen true self).

(** [async_turn_on] *)
Definition async_turn_on (kwargs : gmap string Value) (r : Run)
  : Run * Outcome :=
  let data := filter (λ kv, kv.1 ∈ FORWARDED_ATTRIBUTES) kwargs in
  let '(brightness, self) := begin_turn_on kwargs (run_self r) in
  let r := with_self self r in
  match dispatch data brightness (_entities self) 0 r with
  | (r', Returned) => settle r'
  | (r', Raised) => (r', Raised)
  end.

(** The calls of the base class's [async_turn_off], awaited in order. *)
Fixpoint await_calls (cs : list Command) (r : Run) : Run * Outcome :=
  match cs with
  | [] => (r, Returned)
  | c :: cs' =>
      match await_call c r with
      | (r', Returned) => await_calls cs' r'
      | (r', Raised) => (r', Raised)
      end
  end.

(** [async_turn_off] *)
Definition async_turn_off (kwargs : gmap string Value) (r : Run)
  : Run * Outcome :=
  let self := set_is_frozen true (run_self r) in
  let self := set_prefered_brightness (_attr_brightness self) self in
  let r := with_self self r in
  match await_calls (group_turn_off kwargs (_entity_ids self)) r with
  | (r', Returned) => settle r'
  | (r', Raised) => (r', Raised)
  end.

End Group.

(** ** Instances of the library parameters

    The group section is parametric in the base class and in [set.pop].
    The instances below follow Home Assistant's [LightGroup] (created with
    [mode=None], so that one member that is on turns the group on) and are
    used in the examples. *)

Definition STATE_UNKNOWN : string := "unknown".
Definition STATE_UNAVAILABLE : string := "unavailable".

(** [reduce_attribute(on_states, ATTR_BRIGHTNESS)]: the integer mean of the
    brightness values that are present. *)
Definition mean_brightness (on_states : list State) : option Z :=
  let values := omap (λ st, mjoin (attr_brightness st)) on_states in
  match values with
  | [] => None
  | _ => Some (foldr Z.add 0 values / Z.of_nat (length values))
  end.

Definition light_group_state (hass : Hass) (entity_ids : list string)
  : GroupAttrs :=
  let states := omap hass entity_ids in
  let on_states := filter (λ st, state st = STATE_ON) states in
  let valid_state :=
    bool_decide (Exists (λ st, state st ≠ STATE_UNKNOWN
                               ∧ state st ≠ STATE_UNAVAILABLE) states) in
  {| g_is_on :=
       if valid_state then Some (bool_decide (on_states ≠ [])) else None;
     g_brightness := mean_brightness on_states;
     g_color_mode := Some UNKNOWN;
     g_supported_color_modes :=
       match remove_dups (mjoin (omap attr_supported_color_modes states)) with
       | [] => None
       | modes => Some modes
       end |}.

(** A [set.pop] that returns the first member in the order of [elements]. *)
Definition pop_first (s : pyset) : option Z :=
  default None (head (elements s)).

Definition ha_forwarded_attributes : list string :=
  ["brightness"; "color_temp_kelvin"; "effect"; "flash"; "hs_color";
   "rgb_color"; "rgbw_color"; "rgbww_color"; "transition"; "white";
   "xy_color"].

(** [LightGroup.async_turn_off]: one call addressed to all members. *)
Definition light_group_turn_off (kwargs : gmap string Value)
    (entity_ids : list string) : list Command :=
  let data : gmap string Value :=
    match kwargs !! ATTR_TRANSITION with
    | Some v => {[ATTR_TRANSITION := v]}
    | None => ∅
    end in
  [{| service := SERVICE_TURN_OFF;
      service_data := <[ATTR_ENTITY_ID := VIds entity_ids]> data |}].

(** A new Lightener for the given controlled lights. *)
Definition new_lightener (entities : list LightenerControlledLight)
  : LightenerLight :=
  {| _is_frozen := false;
     _prefered_brightness := None;
     _attr_brightness := None;
     _attr_is_on := None;
     _attr_color_mode := None;
     _attr_supported_color_modes := None;
     _entity_ids := entity_id <$> entities;
     _entities := entities;
     published := [] |}.

(** ** Predicates used in the proofs *)

Definition grows (t t' : list (list Z)) : Prop :=
  length t' = length t ∧
  ∀ n l, t !! n = Some l → ∃ l', t' !! n = Some l' ∧ l ⊆ l'.

Record tables_ok (t : Tables) (n : Z) : Prop := {
  ok_len : Z.of_nat (length (t_levels t)) = n;
  ok_on_off : t_levels_on_off t = on_off <$> t_levels t;
  ok_tl : length (t_to_lightener_levels t) = 256%nat;
  ok_tlo : length (t_to_lightener_levels_on_off t) = 256%nat;
  ok_range : Forall (λ v, 0 ≤ v ≤ 255) (t_levels t);
  ok_back : ∀ (i : nat) (v : Z),
      (1 ≤ i)%nat → t_levels t !! i = Some v →
      ∃ l, t_to_lightener_levels t !! Z.to_nat v = Some l ∧ Z.of_nat i ∈ l
}.

(** The points are strictly ascending from [pC] and carry light levels in
    range. *)
Fixpoint chain (pC : Z) (items : list (Z * Z)) : Prop :=
  match items with
  | [] => True
  | (C, L) :: rest => pC < C ∧ 0 ≤ L ≤ 255 ∧ chain C rest
  end.

(** What the forward table holds for every segment that starts at [prev]:
    the configured value at each point and the interpolation in between. *)
Fixpoint segments_ok (prev : Z * Z) (items : list (Z * Z)) (lv : list Z)
  : Prop :=
  match items with
  | [] => True
  | (C, L) :: rest =>
      lv !! Z.to_nat C = Some L ∧
      (∀ i, prev.1 < i < C →
            lv !! Z.to_nat i = Some (interpolate prev.2 L prev.1 C i)) ∧
      segments_ok (C, L) rest lv
  end.

Definition tables_of (light : LightenerControlledLight) : Tables :=
  {| t_levels := levels light;
     t_to_lightener_levels := to_lightener_levels light;
     t_levels_on_off := levels_on_off light;
     t_to_lightener_levels_on_off := to_lightener_levels_on_off light |}.

(** The calibration input as the configuration layer hands it over:
    controller percentages in [1,100], light percentages in [0,100]. *)
Definition calibration_table (brightness : list (Z * Z)) : Prop :=
  Forall (λ kv, 1 ≤ kv.1 ≤ 100 ∧ 0 ≤ kv.2 ≤ 100) brightness.

#[global] Instance calibration_table_dec brightness :
  Decision (calibration_table brightness).
Proof. unfold calibration_table. apply _. Defined.

(** The lowest calibration point, after conversion. *)
Definition lowest_point (vtb : Z * Z → Z → Z) (brightness : list (Z * Z))
  : option (Z * Z) :=
  head (sorted_items (config_levels vtb brightness)).

(** The value the claim writes as
    [ceil(prevL + (L - prevL) * (i - prevC) / (C - prevC))]. *)
Definition ceil_interpolation (prevC prevL C L i : Z) : Z :=
  Qceiling (inject_Z prevL
            + inject_Z (L - prevL) * inject_Z (i - prevC) / inject_Z (C - prevC))%Q.

(** A value that every voting light accepts. *)
Definition common_candidate (levels : list (list Z)) (x : Z) : Prop :=
  ∀ l, l ∈ levels → x ∈ l.

(** The first calibration point with a non-zero light level, and the value
    C9 states for an on/off light: 0 below that point, 255 from it on. *)
Definition first_nonzero_point (items : list (Z * Z)) : option (Z * Z) :=
  head (filter (λ kv, kv.2 ≠ 0) items).

Definition on_off_by_threshold (items : list (Z * Z)) (c : Z) : Z :=
  match first_nonzero_point items with
  | Some (C, _) => if decide (c < C) then 0 else 255
  | None => 0
  end.

(** ** Inputs of the examples *)

(** A state machine without any state. *)
Definition no_states : Hass := λ _, None.

(** A member that is on at brightness [b]. *)
Definition on_state (id : string) (b : Z) : State :=
  {| state_entity_id := id;
     state := STATE_ON;
     attr_brightness := Some (Some b);
     attr_supported_color_modes := Some [BRIGHTNESS] |}.

(** A member that reports itself as on/off-only. *)
Definition on_off_state (id : string) : State :=
  {| state_entity_id := id;
     state := STATE_ON;
     attr_brightness := None;
     attr_supported_color_modes := Some [ONOFF] |}.

(** A member whose state is [unavailable]. *)
Definition unavailable_state (id : string) : State :=
  {| state_entity_id := id;
     state := STATE_UNAVAILABLE;
     attr_brightness := None;
     attr_supported_color_modes := None |}.

(** Two controlled lights, [light.a] and [light.b], with one calibration. *)
Definition two_lights (brightness : list (Z * Z))
  : list LightenerControlledLight :=
  omap (λ id, __init__ ha_value_to_brightness id brightness)
       ["light.a"; "light.b"].

(** Both lights report the brightness they are given. *)
Definition both_on (a b : Z) : Hass :=
  λ id, if decide (id = "light.a") then Some (on_state id a)
        else if decide (id = "light.b") then Some (on_state id b)
        else None.

(** [light.a] is on at 153, [light.b] is unavailable. *)
Definition b_unavailable : Hass :=
  λ id, if decide (id = "light.a") then Some (on_state id 153)
        else if decide (id = "light.b") then Some (unavailable_state id)
        else None.

(** [light.a] is on at 153, [light.b] has no state at all. *)
Definition b_missing : Hass :=
  λ id, if decide (id = "light.a") then Some (on_state id 153) else None.

(** Every light is on/off-only. *)
Definition all_on_off : Hass := λ id, Some (on_off_state id).

(** A run of a command on a fresh Lightener over [two_lights []]. *)
Definition example_run (schedule : list Await) : Run :=
  {| run_self := new_lightener (two_lights []);
     run_hass := both_on 100 100;
     run_schedule := schedule;
     run_calls := [] |}.

(** The calibration [50:100, 100:0] of the comment in the source. *)
Definition up_and_down : list (Z * Z) := [(50, 100); (100, 0)].

(** The keyword arguments of [turn_on(brightness=128)]. *)
Definition brightness_128 : gmap string Value := {[ATTR_BRIGHTNESS := VInt 128]}.

(** The first per-light command raises. *)
Definition first_call_fails : list Await :=
  [{| arrivals := [b_unavailable]; completes := false |}].

(** Both per-light commands complete; state changes arrive meanwhile. *)
Definition calls_complete : list Await :=
  [{| arrivals := [both_on 128 100]; completes := true |};
   {| arrivals := [both_on 128 128]; completes := true |}].

(** ** Further predicates on the tables *)

(** The light levels of the points never decrease, starting from [pL]. *)
Fixpoint ascending (pL : Z) (items : list (Z * Z)) : Prop :=
  match items with
  | [] => True
  | (_, L) :: rest => pL ≤ L ∧ ascending L rest
  end.

(** Invariant of the two reverse tables after controller levels
    [0 .. n-1]: every recorded controller level is below [n]; a list of the
    dimmable table holds no level twice; the on/off table is filled at the
    light levels 0 and 255 only, and holds every controller level from 1 on
    under its on/off value. *)
Record reverse_ok (t : Tables) (n : Z) : Prop := {
  rev_bound : ∀ (j : nat) l x,
      t_to_lightener_levels t !! j = Some l → x ∈ l → 0 ≤ x < n;
  rev_nodup : ∀ (j : nat) l,
      t_to_lightener_levels t !! j = Some l → NoDup l;
  rev_bound_oo : ∀ (j : nat) l x,
      t_to_lightener_levels_on_off t !! j = Some l → x ∈ l → 0 ≤ x < n;
  rev_oo_empty : ∀ (j : nat) l,
      t_to_lightener_levels_on_off t !! j = Some l →
      j ≠ 0%nat → j ≠ 255%nat → l = [];
  rev_oo_back : ∀ (i : nat) (v : Z),
      (1 ≤ i)%nat → t_levels t !! i = Some v →
      ∃ l, t_to_lightener_levels_on_off t !! Z.to_nat (on_off v) = Some l ∧
           Z.of_nat i ∈ l
}.

(** All four tables of a light have their 256 entries. *)
Definition well_formed (light : LightenerControlledLight) : Prop :=
  length (levels light) = 256%nat ∧
  length (levels_on_off light) = 256%nat ∧
  length (to_lightener_levels light) = 256%nat ∧
  length (to_lightener_levels_on_off light) = 256%nat.

(** ** Further predicates on runs *)

(** Every awaited call completes. *)
Definition all_complete (schedule : list Await) : Prop :=
  Forall (λ a, completes a = true) schedule.

(** Every awaited call completes and no state change arrives meanwhile. *)
Definition quiet (schedule : list Await) : Prop :=
  Forall (λ a, arrivals a = [] ∧ completes a = true) schedule.

(** [e'] is the light [e], possibly after its type has been looked up in
    the state machine [hass]. *)
Definition resolved (hass : Hass) (e e' : LightenerControlledLight) : Prop :=
  e' = e ∨ e' = (type hass e).1.

(** The commands of the loop in [async_turn_on] for the lights [todo],
    while the state machine is [hass]. *)
Definition commands_for (data : gmap string Value) (brightness : option Z)
    (hass : Hass) (todo : list LightenerControlledLight) : list Command :=
  (λ e, entity_command data brightness
          (brightness ≫= λ b, (translate_brightness hass e b).2)
          (entity_id e)) <$> todo.

(** ** The construction of the Lightener *)

(** [LightenerLight.__init__].  [entities] is
    [config_data.get(CONF_ENTITIES)], each entity with the items of its
    ["brightness"] mapping; [base] holds the attributes as the [__init__]
    of the base class leaves them.  [config_data] is taken to hold
    [CONF_FRIENDLY_NAME], which the source reads for the device info and
    for the log line; the name itself plays no part in what follows. *)
Definition LightenerLight__init__ (value_to_brightness : Z * Z → Z → Z)
    (base : GroupAttrs) (entities : option (list (string * list (Z * Z))))
  : option LightenerLight :=
  controlled ← mapM (λ kv, __init__ value_to_brightness kv.1 kv.2)
                    (default [] entities);
  Some {| _is_frozen := false;
          _prefered_brightness := None;
          _attr_brightness := g_brightness base;
          _attr_is_on := g_is_on base;
          _attr_color_mode := g_color_mode base;
          _attr_supported_color_modes := g_supported_color_modes base;
          _entity_ids := (default [] entities).*1;
          _entities := controlled;
          published := [] |}.

#[global] Instance well_formed_dec (light : LightenerControlledLight) :
  Decision (well_formed light).
Proof. unfold well_formed. apply _. Defined.

(** A Lightener that displays brightness 77 is turned off; the lights are
    gone from the state machine when the call has completed. *)
Definition off_run : Run :=
  {| run_self := set_attr_brightness (Some 77) (new_lightener (two_lights []));
     run_hass := both_on 77 77;
     run_schedule := [{| arrivals := [no_states]; completes := true |}];
     run_calls := [] |}.

(** ** The options flow

    A shallow embedding of [LightenerOptionsFlow] of
    [custom_components/lightener/config_flow.py]: the step that selects the
    controlled lights and the step that reads one calibration table per
    light.

    Conventions of the embedding.
    - [self.data] and [self.local_data] are the three values the steps read
      from them: [self.data.get("entities")],
      [self.local_data.get("controlled_entities")] and
      [self.local_data.get("current_light")], each [None] while unset.  The
      dict of one entity holds at most the key ["brightness"], so it is the
      [option] of its table; the order of the entities in the dict plays no
      part in the steps and is not kept.
    - A step returns the flow after the step and [Some] result, or [None]
      where the source raises.
    - The [user_input] of the light configuration step is the submitted
      dict, a [gmap] whose values are [None] or a text.
    - [re.fullmatch] with the pattern of the source (giving the two groups
      of a match), [int], [str], [str.splitlines], the name of the state of
      an entity and the options of the config entry are parameters of the
      section. *)

(** The separator of ["\n".join]. *)
Definition LF : string := String (Ascii.ascii_of_nat 10) EmptyString.

(** [dict.get] on the items of a dict. *)
Fixpoint dict_get {V : Type} (items : list (string * V)) (key : string)
  : option V :=
  match items with
  | [] => None
  | (k, v) :: rest => if decide (k = key) then Some v else dict_get rest key
  end.

Abbreviation EntitiesData := (gmap string (option (gmap Z string))).

Record LightenerOptionsFlow := {
  flow_entities : option EntitiesData;
  flow_controlled_entities : option (list string);
  flow_current_light : option string
}.

(** [LightenerOptionsFlow.__init__]: both dicts start empty. *)
Definition new_options_flow : LightenerOptionsFlow :=
  {| flow_entities := None;
     flow_controlled_entities := None;
     flow_current_light := None |}.

(** What a step returns: one of the two forms ([async_show_form]), or the
    created entry ([async_create_entry]) with [self.data]. *)
Inductive FlowResult :=
  | init_form (controlled_default : list string)
  | light_configuration_form (last_step : bool) (suggested_value : string)
      (description_placeholders errors : gmap string string)
  | create_entry (entities : option EntitiesData).

(** The outcome of the loop over the entries of the brightness text. *)
Inductive Parsed :=
  | Accepted (brightness : gmap Z string)
  | Rejected (error_entry : string)
  | ParseRaised.

Section OptionsFlow.

Variable fullmatch : string → option (string * string).
Variable int : string → option Z.
Variable str : Z → string.
Variable splitlines : string → list string.
Variable state_name : string → option string.
Variable options_entities :
  option (list (string * option (list (string * string)))).

(** The loop over the entries in [async_step_light_configuration]; [int]
    gives [None] where it raises [ValueError]. *)
Fixpoint parse_brightness (entries : list string) (brightness : gmap Z string)
  : Parsed :=
  match entries with
  | [] => Accepted brightness
  | entry :: rest =>
      match fullmatch entry with
      | Some (group1, group2) =>
          match int group1 with
          | None => ParseRaised
          | Some left' =>
              match int group2 with
              | None => ParseRaised
              | Some right' =>
                  if decide (left' >= 1 ∧ left' <= 100 ∧ right' <= 100)
                  then parse_brightness rest (<[left' := str right']> brightness)
                  else Rejected entry
              end
          end
      | None => Rejected entry
      end
  end.

(** The text shown for the table configured before: the items of
    [options.get("entities", {}).get(light, {}).get("brightness", {})],
    with keys and values as [str] renders them. *)
Definition suggested_text (light : string) : string :=
  let brightness :=
    match dict_get (default [] options_entities) light with
    | Some (Some brightness) => brightness
    | _ => []
    end in
  String.concat LF ((λ kv, kv.1 +:+ ": " +:+ kv.2) <$> brightness).

(** [async_step_light_configuration(None)]: the next light is popped from
    the list of the lights still to configure and its form is shown. *)
Definition next_light_form (self : LightenerOptionsFlow)
  : LightenerOptionsFlow * option FlowResult :=
  match flow_controlled_entities self with
  | None => (self, None)
  | Some [] => (self, None)
  | Some (light :: controlled_entities) =>
      let self := {| flow_entities := flow_entities self;
                     flow_controlled_entities := Some controlled_entities;
                     flow_current_light := Some light |} in
      match state_name light with
      | None => (self, None)
      | Some name =>
          (self,
           Some (light_configuration_form
                   (bool_decide (length controlled_entities = 0%nat))
                   (suggested_text light)
                   {["light_name" := name]} ∅))
      end
  end.

(** [async_step_light_configuration(user_input)].
    [user_input.get("brightness", "")] is the empty text only when the key
    is absent; a [None] stored under the key is returned as it is, and
    [None.splitlines()] raises [AttributeError].  After a rejected entry
    the form shows [user_input["brightness"]], which raises [KeyError]
    without the key; with [None] under the key this place is not reached. *)
Definition async_step_light_configuration
    (user_input : option (gmap string (option string)))
    (self : LightenerOptionsFlow) : LightenerOptionsFlow * option FlowResult :=
  match user_input with
  | None => next_light_form self
  | Some user_input =>
      match default (Some "") (user_input !! "brightness") with
      | None => (self, None)
      | Some text =>
          match parse_brightness (splitlines text) ∅ with
          | ParseRaised => (self, None)
          | Accepted brightness =>
              match flow_entities self with
              | None => (self, None)
              | Some entities =>
                  match flow_current_light self with
                  | None => (self, None)
                  | Some light =>
                      match entities !! light with
                      | None => (self, None)
                      | Some _ =>
                          let self :=
                            {| flow_entities :=
                                 Some (<[light := Some brightness]> entities);
                               flow_controlled_entities :=
                                 flow_controlled_entities self;
                               flow_current_light :=
                                 flow_current_light self |} in
                          match flow_controlled_entities self with
                          | None => (self, None)
                          | Some controlled_entities =>
                              if decide (length controlled_entities ≠ 0%nat)
                              then next_light_form self
                              else (self,
                                    Some (create_entry (flow_entities self)))
                          end
                      end
                  end
              end
          | Rejected entry =>
              match flow_current_light self with
              | None => (self, None)
              | Some light =>
                  match state_name light with
                  | None => (self, None)
                  | Some name =>
                      match user_input !! "brightness" with
                      | Some (Some brightness) =>
                          match flow_controlled_entities self with
                          | None => (self, None)
                          | Some controlled_entities =>
                              (self,
                               Some (light_configuration_form
                                       (bool_decide
                                          (length controlled_entities
                                           = 0%nat))
                                       brightness
                                       (<["light_name" := name]>
                                          {["error_entry" := entry]})
                                       {["brightness"
                                         := "invalid_brightness"]}))
                          end
                      | _ => (self, None)
                      end
                  end
              end
          end
      end
  end.

(** [async_step_init(user_input)]; [user_input] is [None], or [Some] of
    [user_input.get("controlled_entities")]. *)
Definition async_step_init (user_input : option (option (list string)))
    (self : LightenerOptionsFlow) : LightenerOptionsFlow * option FlowResult :=
  match user_input with
  | None => (self, Some (init_form (default [] options_entities).*1))
  | Some controlled_entities =>
      match controlled_entities with
      | None =>
          ({| flow_entities := Some ∅;
              flow_controlled_entities := None;
              flow_current_light := flow_current_light self |}, None)
      | Some ids =>
          async_step_light_configuration None
            {| flow_entities := Some (foldl (λ entities entity,
                                               <[entity := None]> entities)
                                            ∅ ids);
               flow_controlled_entities := Some ids;
               flow_current_light := flow_current_light self |}
      end
  end.

(** An entry that the loop accepts, and one that it rejects. *)
Definition valid_entry (entry : string) : Prop :=
  ∃ group1 group2 left' right',
    fullmatch entry = Some (group1, group2) ∧
    int group1 = Some left' ∧ int group2 = Some right' ∧
    1 ≤ left' ≤ 100 ∧ right' ≤ 100.

Definition invalid_entry (entry : string) : Prop :=
  fullmatch entry = None ∨
  ∃ group1 group2 left' right',
    fullmatch entry = Some (group1, group2) ∧
    int group1 = Some left' ∧ int group2 = Some right' ∧
    ¬ (1 ≤ left' ≤ 100 ∧ right' ≤ 100).

(** The results of submitting the inputs, one after the other, to the light
    configuration step. *)
Fixpoint submit_all (inputs : list (gmap string (option string)))
    (self : LightenerOptionsFlow) : list (option FlowResult) :=
  match inputs with
  | [] => []
  | user_input :: rest =>
      let r := async_step_light_configuration (Some user_input) self in
      r.2 :: submit_all rest r.1
  end.

End OptionsFlow.

(** ** The library functions of the options flow on ASCII text *)

(** [\d] and [\s] on ASCII characters. *)
Definition is_digit (a : Ascii.ascii) : bool :=
  bool_decide (48 ≤ Ascii.nat_of_ascii a ≤ 57)%nat.

Definition is_space (a : Ascii.ascii) : bool :=
  bool_decide (Ascii.nat_of_ascii a
               ∈ [9; 10; 11; 12; 13; 28; 29; 30; 31; 32]%nat).

(** The longest prefix of characters that satisfy [p], and the rest. *)
Fixpoint span (p : Ascii.ascii → bool) (s : string) : string * string :=
  match s with
  | String a rest =>
      if p a then (String a (span p rest).1, (span p rest).2)
      else (EmptyString, s)
  | EmptyString => (EmptyString, EmptyString)
  end.

(** [re.fullmatch(r"^(\d+)\s*:\s*(\d+)\s*$", entry)] with its two groups.
    Digits, spaces and the colon are disjoint classes, so the match is the
    greedy one. *)
Definition ascii_fullmatch (entry : string) : option (string * string) :=
  let '(group1, s) := span is_digit entry in
  let '(_, s) := span is_space s in
  match s with
  | String a s =>
      if decide (a = Ascii.ascii_of_nat 58) then
        let '(_, s) := span is_space s in
        let '(group2, s) := span is_digit s in
        let '(_, s) := span is_space s in
        if decide (group1 ≠ EmptyString ∧ group2 ≠ EmptyString
                   ∧ s = EmptyString)
        then Some (group1, group2) else None
      else None
  | EmptyString => None
  end.

(** [int] of a string of ASCII digits. *)
Definition ascii_int (s : string) : option Z :=
  Some (foldl (λ n a, 10 * n + (Z.of_nat (Ascii.nat_of_ascii a) - 48)) 0
              (String.list_ascii_of_string s)).

(** [str] of an [int]. *)
Definition ascii_str (n : Z) : string := pretty n.

(** [str.splitlines] for text whose only line boundary is the line feed. *)
Fixpoint lines_from (line : string) (s : string) : list string :=
  match s with
  | EmptyString => if decide (line = EmptyString) then [] else [line]
  | String a rest =>
      if decide (a = Ascii.ascii_of_nat 10) then line :: lines_from EmptyString rest
      else lines_from (line +:+ String a EmptyString) rest
  end.

Definition ascii_splitlines (s : string) : list string :=
  lines_from EmptyString s.

(** ** Inputs of the examples of the options flow *)

Definition example_state_name (id : string) : option string :=
  if decide (id = "light.a") then Some "Desk"
  else if decide (id = "light.b") then Some "Shelf"
  else None.

Definition example_options
  : option (list (string * option (list (string * string)))) :=
  Some [("light.a", Some [("50", "100")])].

Definition two_entries : string := "50: 100" +:+ LF +:+ "100 :0".

Definition bad_second_entry : string := "50: 100" +:+ LF +:+ "0: 10".

(** The flow while the first of two selected lights is being configured. *)
Definition configuring_first : LightenerOptionsFlow :=
  {| flow_entities := Some {["light.a" := None; "light.b" := None]};
     flow_controlled_entities := Some ["light.b"];
     flow_current_light := Some "light.a" |}.

(** * Properties *)

(** ** Python primitives *)

Lemma py_index_Some {A} (l : list A) (i : Z) :
  0 ≤ i < Z.of_nat (length l) → py_index l i = Some (Z.to_nat i).
Proof. intros H. unfold py_index. by rewrite decide_True. Qed.

Lemma getitem_lookup {A} (l : list A) (i : Z) :
  0 ≤ i < Z.of_nat (length l) → getitem l i = l !! Z.to_nat i.
Proof. intros H. unfold getitem. by rewrite py_index_Some. Qed.

Lemma getitem_nat {A} (l : list A) (n : nat) (x : A) :
  l !! n = Some x → getitem l (Z.of_nat n) = Some x.
Proof.
  intros H. pose proof (lookup_lt_Some _ _ _ H).
  rewrite getitem_lookup by lia. by rewrite Nat2Z.id.
Qed.

Lemma py_range_up (a b : Z) : py_range a b 1 = seqZ a (b - a).
Proof.
  unfold py_range. rewrite decide_True by lia.
  replace ((b - a + 1 - 1) / 1) with (b - a) by (rewrite Z.div_1_r; lia).
  unfold seqZ. rewrite <- list_fmap_compose.
  apply list_fmap_ext. intros _ x _. simpl. lia.
Qed.

Lemma elem_of_py_range (a b s x : Z) :
  s = 1 ∨ s = -1 → x ∈ py_range a b s →
  Z.min a b ≤ x ≤ Z.max a b ∧ x ≠ b.
Proof.
  intros Hs Hx. unfold py_range in Hx.
  apply list_elem_of_fmap in Hx as (k & -> & Hk).
  apply elem_of_seqZ in Hk.
  destruct Hs as [-> | ->].
  - rewrite decide_True in Hk by lia.
    replace ((b - a + 1 - 1) / 1) with (b - a) in Hk by (rewrite Z.div_1_r; lia).
    lia.
  - rewrite decide_False in Hk by lia.
    replace ((a - b - -1 - 1) / - -1) with (a - b) in Hk
      by (change (- -1) with 1; rewrite Z.div_1_r; lia).
    lia.
Qed.

(** The rule for a [for] loop: an invariant indexed by the number of
    iterations done. *)
Lemma for_each_inv {S A} (body : S → A → option S) (P : nat → S → Prop)
    (xs : list A) (s : S) :
  P 0%nat s →
  (∀ k x s, xs !! k = Some x → P k s →
            ∃ s', body s x = Some s' ∧ P (Datatypes.S k) s') →
  ∃ s', for_each body xs s = Some s' ∧ P (length xs) s'.
Proof.
  revert P s. induction xs as [| x xs IH]; intros P s H0 Hstep.
  - exists s. done.
  - destruct (Hstep 0%nat x s eq_refl H0) as (s1 & Hb & H1).
    destruct (IH (λ k, P (Datatypes.S k)) s1 H1) as (s' & Hf & Hl).
    + intros k y s2 Hk. apply Hstep. done.
    + exists s'. simpl. rewrite Hb. done.
Qed.

(** [math.ceil] of the interpolation, in integer arithmetic. *)
Lemma interpolate_Z (a b c d i : Z) :
  d ≠ c →
  interpolate a b c d i = a - (- ((b - a) * (i - c))) / (d - c).
Proof.
  intros Hd. unfold interpolate, math_ceil, Qceiling.
  set (n := (b - a) * (i - c)). set (m := d - c).
  assert (Hm : ¬ (inject_Z m == 0)%Q).
  { unfold Qeq. simpl. lia. }
  assert (E : (- (inject_Z a + inject_Z n / inject_Z m)
               == inject_Z (- n + - a * m) / inject_Z m)%Q).
  { rewrite inject_Z_plus, inject_Z_mult, !inject_Z_opp. by field. }
  rewrite E, <- Zdiv_Qdiv, Z.div_add by lia. lia.
Qed.

(** The interpolated value stays between the two end values. *)
Lemma interpolate_between (a b c d i : Z) :
  c < d → c ≤ i ≤ d →
  Z.min a b ≤ interpolate a b c d i ≤ Z.max a b.
Proof.
  intros Hcd Hi. rewrite interpolate_Z by lia.
  set (n := - ((b - a) * (i - c))). set (m := d - c).
  assert (Hm : 0 < m) by (unfold m; lia).
  pose proof (Z.mul_div_le n m Hm) as Hlo.
  pose proof (Z.mul_succ_div_gt n m Hm) as Hhi.
  assert (Hk : 0 ≤ i - c ≤ m) by (unfold m; lia).
  destruct (Z.le_gt_cases a b) as [Hab | Hab].
  - assert (- ((b - a) * m) ≤ n ≤ 0) by (unfold n; nia).
    assert (- (b - a) ≤ n / m ≤ 0) by nia. lia.
  - assert (0 ≤ n ≤ (a - b) * m) by (unfold n; nia).
    assert (0 ≤ n / m ≤ a - b) by nia. lia.
Qed.

Lemma interpolate_start (a b c d : Z) : interpolate a b c d c = a.
Proof.
  unfold interpolate, math_ceil.
  replace ((b - a) * (c - c)) with 0 by lia.
  assert (E : (inject_Z a + inject_Z 0 / inject_Z (d - c) == inject_Z a)%Q).
  { unfold Qdiv. change (inject_Z 0) with 0%Q. ring. }
  rewrite E. apply Qceiling_Z.
Qed.

(** ** The reverse tables only grow *)

Lemma grows_refl t : grows t t.
Proof. split; [done |]. intros n l H. by exists l. Qed.

Lemma grows_trans t1 t2 t3 : grows t1 t2 → grows t2 t3 → grows t1 t3.
Proof.
  intros [L12 H12] [L23 H23]. split; [congruence |].
  intros n l H. destruct (H12 n l H) as (l2 & H2 & S2).
  destruct (H23 n l2 H2) as (l3 & H3 & S3).
  exists l3. split; [done |]. set_solver.
Qed.

Lemma append_at_ok (t : list (list Z)) (i x : Z) :
  0 ≤ i < Z.of_nat (length t) →
  ∃ t', append_at t i x = Some t' ∧ grows t t' ∧
        ∃ l, t' !! Z.to_nat i = Some l ∧ x ∈ l.
Proof.
  intros Hi. unfold append_at. rewrite py_index_Some by done. simpl.
  destruct (lookup_lt_is_Some_2 t (Z.to_nat i)) as [l Hl]; [lia |].
  rewrite Hl. simpl. eexists. split; [done |]. split.
  - split; [by rewrite length_insert |].
    intros n l0 Hn. destruct (decide (n = Z.to_nat i)) as [-> | Hne].
    + exists (l ++ [x]). rewrite list_lookup_insert_eq by lia.
      split; [done |]. assert (l0 = l) as -> by congruence.
      intros y Hy. apply elem_of_app. by left.
    + exists l0. by rewrite list_lookup_insert_ne.
  - exists (l ++ [x]). rewrite list_lookup_insert_eq by lia.
    split; [done |]. apply elem_of_app. right. apply list_elem_of_here.
Qed.

Lemma on_off_cases (v : Z) : on_off v = 0 ∨ on_off v = 255.
Proof. unfold on_off. case_decide; auto. Qed.

(** ** Invariant of the tables after controller levels [0 .. n-1] *)

Lemma initial_tables_ok : tables_ok initial_tables 1.
Proof.
  split; simpl; try done.
  - repeat constructor; lia.
  - intros [| i] v Hi Hv; [lia |]. by destruct i.
Qed.

(** Appending the value [v] for the controller level [i], as both the first
    inner loop and the configured point do. *)
Lemma push_ok (t : Tables) (i v : Z) :
  tables_ok t i → 1 ≤ i → 0 ≤ v ≤ 255 →
  ∃ tl tlo,
    append_at (t_to_lightener_levels t) v i = Some tl ∧
    append_at (t_to_lightener_levels_on_off t) (on_off v) i = Some tlo ∧
    grows (t_to_lightener_levels t) tl ∧
    tables_ok {| t_levels := t_levels t ++ [v];
                 t_to_lightener_levels := tl;
                 t_levels_on_off := t_levels_on_off t ++ [on_off v];
                 t_to_lightener_levels_on_off := tlo |} (i + 1).
Proof.
  intros [Hlen Hoo Htl Htlo Hrange Hback] Hi Hv.
  destruct (append_at_ok (t_to_lightener_levels t) v i)
    as (tl & Etl & Gtl & l & Hl & Hin); [lia |].
  destruct (append_at_ok (t_to_lightener_levels_on_off t) (on_off v) i)
    as (tlo & Etlo & Gtlo & _); [destruct (on_off_cases v); lia |].
  exists tl, tlo. repeat split; simpl; try done.
  - apply Gtl.
  - apply Gtl.
  - rewrite length_app. simpl. lia.
  - by rewrite Hoo, fmap_app.
  - destruct Gtl as [-> _]. done.
  - destruct Gtlo as [-> _]. done.
  - apply Forall_app. split; [done |]. by constructor.
  - intros j w Hj Hw. apply lookup_app_Some in Hw as [Hw | [Hge Hw]].
    + destruct (Hback j w Hj Hw) as (l0 & Hl0 & Hin0).
      destruct Gtl as [_ Gtl]. destruct (Gtl _ _ Hl0) as (l1 & Hl1 & Hsub).
      exists l1. split; [done |]. by apply Hsub.
    + apply list_lookup_singleton_Some in Hw as [Hz ->].
      exists l. split; [done |]. replace (Z.of_nat j) with i by lia. done.
Qed.

Lemma tables_ok_grows (t t' : Tables) (n : Z) :
  tables_ok t n →
  t_levels t' = t_levels t →
  t_levels_on_off t' = t_levels_on_off t →
  grows (t_to_lightener_levels t) (t_to_lightener_levels t') →
  length (t_to_lightener_levels_on_off t') = 256%nat →
  tables_ok t' n.
Proof.
  intros [Hlen Hoo Htl Htlo Hrange Hback] El Eo [Gl G] Ho.
  split; rewrite ?El, ?Eo; try done.
  - congruence.
  - intros i v Hi Hv. destruct (Hback i v Hi Hv) as (l & Hl & Hin).
    destruct (G _ _ Hl) as (l' & Hl' & Hsub). exists l'. split; [done |].
    by apply Hsub.
Qed.

(** The first inner loop. *)
Lemma forward_loop_ok (pC pL C L : Z) (t : Tables) :
  tables_ok t (pC + 1) → 0 ≤ pC < C → 0 ≤ pL ≤ 255 → 0 ≤ L ≤ 255 →
  ∃ t', for_each (forward_step pC pL C L) (py_range (pC + 1) C 1) t = Some t' ∧
        tables_ok t' C ∧
        t_levels t' =
          t_levels t ++ (interpolate pL L pC C <$> seqZ (pC + 1) (C - pC - 1)) ∧
        grows (t_to_lightener_levels t) (t_to_lightener_levels t').
Proof.
  intros Hok HC HpL HL. rewrite py_range_up.
  replace (C - (pC + 1)) with (C - pC - 1) by lia.
  set (xs := seqZ (pC + 1) (C - pC - 1)).
  destruct (for_each_inv (forward_step pC pL C L)
              (λ k t', tables_ok t' (pC + 1 + Z.of_nat k) ∧
                       t_levels t' =
                         t_levels t ++ (interpolate pL L pC C <$> take k xs) ∧
                       grows (t_to_lightener_levels t)
                             (t_to_lightener_levels t'))
              xs t) as (t' & Hrun & Hk & Hlv & Hg).
  - split; [by rewrite Z.add_0_r |]. split; [by rewrite app_nil_r |].
    apply grows_refl.
  - intros k x s Hx (Hs & Hlv & Hg).
    apply lookup_seqZ in Hx as [-> Hlt].
    assert (Hx : xs !! k = Some (pC + 1 + Z.of_nat k))
      by (apply lookup_seqZ; lia).
    pose proof (interpolate_between pL L pC C (pC + 1 + Z.of_nat k)) as Hb.
    destruct (push_ok s (pC + 1 + Z.of_nat k)
                (interpolate pL L pC C (pC + 1 + Z.of_nat k)) Hs)
      as (tl & tlo & Etl & Etlo & Gtl & Hok'); [lia | lia |].
    eexists. unfold forward_step. rewrite Etl. simpl. rewrite Etlo. simpl.
    split; [done |]. split; [| split].
    + replace (pC + 1 + Z.of_nat (S k)) with (pC + 1 + Z.of_nat k + 1) by lia.
      done.
    + simpl. rewrite (take_S_r _ _ _ Hx), fmap_app, Hlv, <- app_assoc. done.
    + simpl. by eapply grows_trans.
  - exists t'. split; [done |].
    rewrite take_ge in Hlv by done.
    unfold xs in Hk. rewrite length_seqZ in Hk.
    replace (pC + 1 + Z.of_nat (Z.to_nat (C - pC - 1))) with C in Hk by lia.
    done.
Qed.

(** One step of the second inner loop. *)
Lemma reverse_step_ok (pC pL C L : Z) (t : Tables) (i : Z) :
  length (t_to_lightener_levels t) = 256%nat →
  length (t_to_lightener_levels_on_off t) = 256%nat →
  0 ≤ i ≤ 255 →
  ∃ t', reverse_step pC pL C L t i = Some t' ∧
        t_levels t' = t_levels t ∧
        t_levels_on_off t' = t_levels_on_off t ∧
        grows (t_to_lightener_levels t) (t_to_lightener_levels t') ∧
        length (t_to_lightener_levels_on_off t') = 256%nat ∧
        ∃ l, t_to_lightener_levels t' !! Z.to_nat i = Some l ∧
             interpolate pC C pL L i ∈ l.
Proof.
  intros Htl Htlo Hi. unfold reverse_step.
  rewrite getitem_lookup by lia.
  destruct (lookup_lt_is_Some_2 (t_to_lightener_levels t) (Z.to_nat i))
    as [known Hknown]; [lia |].
  rewrite Hknown. simpl. case_decide as Hin.
  - exists t. repeat split; try done.
    + intros n l Hl. exists l. done.
    + by exists known.
  - destruct (append_at_ok (t_to_lightener_levels t) i (interpolate pC C pL L i))
      as (tl & Etl & Gtl & l & Hl & Hin'); [lia |].
    destruct (append_at_ok (t_to_lightener_levels_on_off t)
                (on_off (interpolate pC C pL L i)) (interpolate pC C pL L i))
      as (tlo & Etlo & [Gtlo _] & _);
      [destruct (on_off_cases (interpolate pC C pL L i)); lia |].
    rewrite Etl. simpl. rewrite Etlo. simpl.
    eexists. split; [done |]. simpl. repeat split; try done.
    + apply Gtl.
    + apply Gtl.
    + congruence.
    + by exists l.
Qed.

(** The second inner loop. *)
Lemma reverse_loop_ok (pC pL C L : Z) (t : Tables) (n : Z) :
  tables_ok t n → 0 ≤ pL ≤ 255 → 0 ≤ L ≤ 255 →
  ∃ t', for_each (reverse_step pC pL C L)
          (py_range pL L (if decide (pL < L) then 1 else -1)) t = Some t' ∧
        tables_ok t' n ∧
        t_levels t' = t_levels t ∧
        grows (t_to_lightener_levels t) (t_to_lightener_levels t') ∧
        (pL < L → ∃ l, t_to_lightener_levels t' !! Z.to_nat pL = Some l ∧
                        pC ∈ l).
Proof.
  intros Hok HpL HL.
  set (xs := py_range pL L (if decide (pL < L) then 1 else -1)).
  assert (Hxs : ∀ x, x ∈ xs → 0 ≤ x ≤ 255).
  { intros x Hx. apply elem_of_py_range in Hx; [lia |]. case_decide; auto. }
  destruct (for_each_inv (reverse_step pC pL C L)
              (λ k t', t_levels t' = t_levels t ∧
                       t_levels_on_off t' = t_levels_on_off t ∧
                       grows (t_to_lightener_levels t)
                             (t_to_lightener_levels t') ∧
                       length (t_to_lightener_levels_on_off t') = 256%nat ∧
                       ((1 ≤ k)%nat → ∀ x, xs !! 0%nat = Some x →
                          ∃ l, t_to_lightener_levels t' !! Z.to_nat x = Some l ∧
                               interpolate pC C pL L x ∈ l))
              xs t) as (t' & Hrun & El & Eo & Hg & Ho & Hfirst).
  - repeat split; try done.
    + intros m l Hl. by exists l.
    + apply Hok.
    + lia.
  - intros k x s Hx (El & Eo & Hg & Ho & Hfirst).
    destruct (reverse_step_ok pC pL C L s x)
      as (s' & Es & El' & Eo' & Hg' & Ho' & l & Hl & Hin).
    + destruct Hg as [-> _]. apply Hok.
    + done.
    + apply Hxs. by eapply list_elem_of_lookup_2.
    + exists s'. split; [done |]. repeat split; try congruence.
      * destruct Hg' as [-> _]. apply Hg.
      * intros m l0 Hl0. destruct Hg as [_ Hg].
        destruct (Hg _ _ Hl0) as (l1 & Hl1 & S1).
        destruct Hg' as [_ Hg']. destruct (Hg' _ _ Hl1) as (l2 & Hl2 & S2).
        exists l2. split; [done |]. intros y Hy. by apply S2, S1.
      * intros _ y Hy. destruct k as [| k].
        -- assert (y = x) as -> by congruence. by exists l.
        -- destruct (Hfirst ltac:(lia) y Hy) as (l0 & Hl0 & Hin0).
           destruct Hg' as [_ Hg']. destruct (Hg' _ _ Hl0) as (l1 & Hl1 & S1).
           exists l1. split; [done |]. by apply S1.
  - exists t'. split; [done |]. split; [by eapply tables_ok_grows |].
    split; [done |]. split; [done |].
    intros Hlt. assert (Hhd : xs !! 0%nat = Some pL).
    { unfold xs. rewrite decide_True by done. rewrite py_range_up.
      rewrite lookup_seqZ. lia. }
    destruct (Hfirst ltac:(apply lookup_lt_Some in Hhd; lia) pL Hhd)
      as (l & Hl & Hin).
    rewrite interpolate_start in Hin. by exists l.
Qed.

(** ** One calibration segment *)

Lemma segment_step_ok (pC pL C L : Z) (t : Tables) :
  tables_ok t (pC + 1) → 0 ≤ pC < C → 0 ≤ pL ≤ 255 → 0 ≤ L ≤ 255 →
  ∃ t', segment_step (t, (pC, pL)) (C, L) = Some (t', (C, L)) ∧
        tables_ok t' (C + 1) ∧
        t_levels t' =
          t_levels t ++ (interpolate pL L pC C <$> seqZ (pC + 1) (C - pC - 1))
                     ++ [L] ∧
        grows (t_to_lightener_levels t) (t_to_lightener_levels t') ∧
        (pL < L → ∃ l, t_to_lightener_levels t' !! Z.to_nat pL = Some l ∧
                        pC ∈ l).
Proof.
  intros Hok HC HpL HL.
  destruct (forward_loop_ok pC pL C L t Hok HC HpL HL)
    as (t1 & E1 & Hok1 & Hlv1 & Hg1).
  destruct (push_ok t1 C L Hok1) as (tl & tlo & Etl & Etlo & Gtl & Hok2);
    [lia | lia |].
  set (t2 := {| t_levels := t_levels t1 ++ [L];
                t_to_lightener_levels := tl;
                t_levels_on_off := t_levels_on_off t1 ++ [on_off L];
                t_to_lightener_levels_on_off := tlo |}) in *.
  destruct (reverse_loop_ok pC pL C L t2 (C + 1) Hok2 HpL HL)
    as (t3 & E3 & Hok3 & Hlv3 & Hg3 & Hzero).
  exists t3. unfold segment_step. rewrite E1. simpl.
  unfold point_step. rewrite Etl. simpl. rewrite Etlo. simpl.
  fold t2. rewrite E3. simpl.
  split; [done |]. split; [done |]. split.
  - rewrite Hlv3. simpl. rewrite Hlv1, <- app_assoc. done.
  - split; [| done].
    eapply grows_trans; [exact Hg1 |]. eapply grows_trans; [exact Gtl |]. done.
Qed.

(** ** The whole loop over the sorted calibration points *)

Lemma segments_ok_app prev items lv more :
  segments_ok prev items lv → segments_ok prev items (lv ++ more).
Proof.
  revert prev. induction items as [| [C L] rest IH]; intros prev; [done |].
  simpl. intros (HC & Hi & Hrest). split; [| split].
  - by apply lookup_app_l_Some.
  - intros i Hlt. apply lookup_app_l_Some. by apply Hi.
  - by apply IH.
Qed.

Lemma fill_from_ok (items : list (Z * Z)) (t : Tables) (pC pL : Z) :
  tables_ok t (pC + 1) → 0 ≤ pC → 0 ≤ pL ≤ 255 → chain pC items →
  ∃ t', for_each segment_step items (t, (pC, pL))
          = Some (t', default (pC, pL) (last items)) ∧
        tables_ok t' ((default (pC, pL) (last items)).1 + 1) ∧
        (∃ more, t_levels t' = t_levels t ++ more) ∧
        grows (t_to_lightener_levels t) (t_to_lightener_levels t') ∧
        segments_ok (pC, pL) items (t_levels t').
Proof.
  revert t pC pL. induction items as [| [C L] rest IH]; intros t pC pL.
  - intros Hok _ _ _. exists t. simpl. split; [done |]. split; [done |].
    split; [exists []; by rewrite app_nil_r |]. split; [apply grows_refl | done].
  - intros Hok HpC HpL (HC & HL & Hch).
    destruct (segment_step_ok pC pL C L t Hok ltac:(lia) HpL HL)
      as (t1 & E1 & Hok1 & Hlv1 & Hg1 & _).
    destruct (IH t1 C L Hok1 ltac:(lia) HL Hch)
      as (t' & E' & Hok' & [more Hmore] & Hg' & Hseg).
    assert (Hlast : default (pC, pL) (last ((C, L) :: rest))
                    = default (C, L) (last rest)).
    { rewrite last_cons. by destruct (last rest). }
    exists t'. cbn [for_each]. rewrite E1. simpl. rewrite Hlast.
    split; [done |]. split; [done |]. split; [| split].
    + eexists. rewrite Hmore, Hlv1, <- app_assoc. done.
    + by eapply grows_trans.
    + simpl. split; [| split; [| done]].
      * rewrite Hmore. apply lookup_app_l_Some. rewrite Hlv1.
        destruct Hok as [Hlen _ _ _ _ _].
        rewrite app_assoc. rewrite lookup_app_r;
          rewrite length_app, length_fmap, length_seqZ; [| lia].
        replace (Z.to_nat C - (length (t_levels t) + Z.to_nat (C - pC - 1)))%nat
          with 0%nat by lia. done.
      * intros i Hi. rewrite Hmore. apply lookup_app_l_Some. rewrite Hlv1.
        destruct Hok as [Hlen _ _ _ _ _].
        rewrite lookup_app_r by lia. apply lookup_app_l_Some.
        rewrite list_lookup_fmap.
        rewrite (lookup_seqZ_lt (pC + 1) (C - pC - 1)) by lia. simpl.
        f_equal. f_equal. lia.
Qed.

(** The lowest point decides whether level 0 is recorded for light level 0. *)
Lemma fill_from_zero (items : list (Z * Z)) (t : Tables) (pC pL C L : Z) :
  tables_ok t (pC + 1) → 0 ≤ pC → 0 ≤ pL ≤ 255 → chain pC ((C, L) :: items) →
  pL < L →
  ∃ t' last l, for_each segment_step ((C, L) :: items) (t, (pC, pL))
                 = Some (t', last) ∧
               t_to_lightener_levels t' !! Z.to_nat pL = Some l ∧ pC ∈ l.
Proof.
  intros Hok HpC HpL (HC & HL & Hch) Hlt.
  destruct (segment_step_ok pC pL C L t Hok ltac:(lia) HpL HL)
    as (t1 & E1 & Hok1 & Hlv1 & Hg1 & Hz).
  destruct (Hz Hlt) as (l & Hl & Hin).
  destruct (fill_from_ok items t1 C L Hok1 ltac:(lia) HL Hch)
    as (t' & E' & _ & _ & [_ Hg'] & _).
  destruct (Hg' _ _ Hl) as (l' & Hl' & Hsub).
  exists t', (default (C, L) (last items)), l'.
  cbn [for_each]. rewrite E1. simpl. split; [done |]. split; [done |].
  by apply Hsub.
Qed.

Lemma chain_lower (lo : Z) (items : list (Z * Z)) (kv : Z * Z) :
  chain lo items → kv ∈ items → lo < kv.1 ∧ 0 ≤ kv.2 ≤ 255.
Proof.
  revert lo. induction items as [| [C L] rest IH]; intros lo Hch Hin.
  - by apply elem_of_nil in Hin.
  - destruct Hch as (HC & HL & Hch). apply elem_of_cons in Hin as [-> | Hin].
    + simpl. lia.
    + destruct (IH C Hch Hin). lia.
Qed.

Lemma chain_last_max (lo : Z) (items : list (Z * Z)) (kv d : Z * Z) :
  chain lo items → kv ∈ items → kv.1 ≤ (default d (last items)).1.
Proof.
  revert lo kv. induction items as [| [C L] rest IH]; intros lo kv Hch Hin.
  - by apply elem_of_nil in Hin.
  - destruct Hch as (HC & HL & Hch). destruct rest as [| y rest'].
    + apply list_elem_of_singleton in Hin as ->. simpl. lia.
    + rewrite last_cons_cons. apply elem_of_cons in Hin as [-> | Hin].
      * pose proof (IH C y Hch (list_elem_of_here _ _)) as Hy.
        destruct (chain_lower C (y :: rest') y Hch (list_elem_of_here _ _)).
        simpl in *. lia.
      * by eapply IH.
Qed.

Lemma segments_ok_point prev items lv C L :
  segments_ok prev items lv → (C, L) ∈ items → lv !! Z.to_nat C = Some L.
Proof.
  revert prev. induction items as [| [C' L'] rest IH]; intros prev Hseg Hin.
  - by apply elem_of_nil in Hin.
  - destruct Hseg as (HC & _ & Hrest).
    apply elem_of_cons in Hin as [[= -> ->] | Hin]; [done |]. by eapply IH.
Qed.

(** ** [sorted] on the items of a dict *)

#[global] Instance tuple_le_total : Total tuple_le.
Proof. intros [a1 a2] [b1 b2]. unfold tuple_le. simpl. lia. Qed.

#[global] Instance tuple_le_trans : Transitive tuple_le.
Proof. intros [a1 a2] [b1 b2] [c1 c2]. unfold tuple_le. simpl. lia. Qed.

Lemma elem_of_sorted_items (d : gmap Z Z) (k v : Z) :
  (k, v) ∈ sorted_items d ↔ d !! k = Some v.
Proof.
  unfold sorted_items. rewrite merge_sort_Permutation.
  apply elem_of_map_to_list.
Qed.

Lemma sorted_chain (lo : Z) (items : list (Z * Z)) :
  StronglySorted tuple_le items → NoDup (items.*1) →
  Forall (λ kv, lo < kv.1 ∧ 0 ≤ kv.2 ≤ 255) items →
  chain lo items.
Proof.
  intros Hs. revert lo. induction Hs as [| [C L] rest Hs IH Hle]; intros lo Hnd Hall.
  - done.
  - apply Forall_cons in Hall as [[HC HL] Hall].
    rewrite fmap_cons in Hnd. apply NoDup_cons in Hnd as [Hnotin Hnd].
    simpl in *. split; [done |]. split; [done |].
    apply IH; [done |]. apply Forall_forall. intros [k v] Hin.
    rewrite Forall_forall in Hall, Hle.
    destruct (Hall _ Hin) as [_ Hv]. pose proof (Hle _ Hin) as Hkv.
    assert (k ≠ C).
    { intros ->. apply Hnotin. apply list_elem_of_fmap. by exists (C, v). }
    unfold tuple_le in Hkv. simpl in *. lia.
Qed.

Lemma sorted_items_chain (d : gmap Z Z) :
  (∀ k v, d !! k = Some v → 0 < k ∧ 0 ≤ v ≤ 255) →
  chain 0 (sorted_items d).
Proof.
  intros Hd. apply sorted_chain.
  - apply StronglySorted_merge_sort; apply _.
  - unfold sorted_items. rewrite merge_sort_Permutation.
    apply NoDup_fst_map_to_list.
  - apply Forall_forall. intros [k v] Hin.
    apply elem_of_sorted_items in Hin. by apply Hd.
Qed.

(** ** The tables of a constructed light *)

Lemma fill_levels_ok (items : list (Z * Z)) :
  chain 0 items →
  ∃ t, fill_levels items = Some t ∧
       tables_ok t ((default (0, 0) (last items)).1 + 1) ∧
       t_levels t !! 0%nat = Some 0 ∧
       segments_ok (0, 0) items (t_levels t).
Proof.
  intros Hch.
  destruct (fill_from_ok items initial_tables 0 0 initial_tables_ok)
    as (t & E & Hok & [more Hmore] & _ & Hseg); [lia | lia | done |].
  exists t. unfold fill_levels. rewrite E. simpl.
  split; [done |]. split; [done |]. split; [| done].
  by rewrite Hmore.
Qed.

Lemma fill_levels_zero (C L : Z) (items : list (Z * Z)) :
  chain 0 ((C, L) :: items) → L ≠ 0 →
  ∃ t l, fill_levels ((C, L) :: items) = Some t ∧
         t_to_lightener_levels t !! 0%nat = Some l ∧ 0 ∈ l.
Proof.
  intros Hch HL. pose proof Hch as (_ & HL' & _).
  destruct (fill_from_zero items initial_tables 0 0 C L initial_tables_ok)
    as (t & lst & l & E & Hl & Hin); [lia | lia | done | lia |].
  exists t, l. unfold fill_levels. rewrite E. done.
Qed.

(** ** The [type] property and the translations *)

Lemma type_tables (hass : Hass) (self : LightenerControlledLight) :
  tables_of (type hass self).1 = tables_of self ∧
  entity_id (type hass self).1 = entity_id self.
Proof.
  unfold type. destruct (_type self); [done |].
  destruct (hass (entity_id self)); done.
Qed.

Lemma type_cached (hass : Hass) (self : LightenerControlledLight) :
  type hass (type hass self).1 = type hass self.
Proof.
  unfold type at 2 3. destruct (_type self) as [ty |] eqn:E.
  - simpl. unfold type. by rewrite E.
  - destruct (hass (entity_id self)) as [st |] eqn:Eh; simpl.
    + done.
    + unfold type. by rewrite E, Eh.
Qed.

Lemma translate_brightness_dimmable hass self c :
  (type hass self).2 ≠ Some TYPE_ONOFF →
  (translate_brightness hass self c).2 = getitem (levels self) c.
Proof.
  intros Hty. unfold translate_brightness.
  pose proof (type_tables hass self) as [Ht _].
  destruct (type hass self) as [self' ty]. simpl in *.
  rewrite decide_False by done. simpl.
  by injection Ht as -> _ _ _.
Qed.

Lemma translate_brightness_on_off hass self c :
  (type hass self).2 = Some TYPE_ONOFF →
  (translate_brightness hass self c).2 = getitem (levels_on_off self) c.
Proof.
  intros Hty. unfold translate_brightness.
  pose proof (type_tables hass self) as [Ht _].
  destruct (type hass self) as [self' ty]. simpl in *.
  rewrite decide_True by done. simpl.
  by injection Ht as _ _ -> _.
Qed.

Lemma translate_brightness_back_dimmable hass self b :
  (type hass self).2 ≠ Some TYPE_ONOFF →
  (translate_brightness_back hass self (Some b)).2
  = getitem (to_lightener_levels self) b.
Proof.
  intros Hty. unfold translate_brightness_back.
  pose proof (type_tables hass self) as [Ht _].
  destruct (type hass self) as [self' ty]. simpl in *.
  rewrite decide_False by done. simpl.
  by injection Ht as _ -> _ _.
Qed.

Lemma translate_brightness_self hass self c :
  (translate_brightness hass self c).1 = (type hass self).1.
Proof.
  unfold translate_brightness. destruct (type hass self) as [self' ty].
  by case_decide.
Qed.

Lemma segments_ok_lookup prev items lv (j : nat) pC pL C L :
  segments_ok prev items lv →
  (prev :: items) !! j = Some (pC, pL) →
  (prev :: items) !! S j = Some (C, L) →
  lv !! Z.to_nat C = Some L ∧
  ∀ i, pC < i < C → lv !! Z.to_nat i = Some (interpolate pL L pC C i).
Proof.
  revert prev j. induction items as [| [C' L'] rest IH]; intros prev j Hseg Hj HSj.
  - done.
  - destruct Hseg as (HC & Hi & Hrest). destruct j as [| j].
    + simpl in Hj, HSj. injection Hj as ->. injection HSj as -> ->. done.
    + by eapply (IH (C', L') j).
Qed.

Lemma interpolate_ceil (prevC prevL C L i : Z) :
  interpolate prevL L prevC C i = ceil_interpolation prevC prevL C L i.
Proof.
  unfold interpolate, ceil_interpolation, math_ceil.
  apply Qceiling_comp. by rewrite inject_Z_mult.
Qed.

(** ** The library function as Home Assistant defines it *)

Lemma ha_value_to_brightness_range (p : Z) :
  1 ≤ ha_value_to_brightness (1, 100) p ≤ 255.
Proof. unfold ha_value_to_brightness. lia. Qed.

Lemma ha_value_to_brightness_full : ha_value_to_brightness (1, 100) 100 = 255.
Proof. reflexivity. Qed.

Lemma ha_value_to_brightness_below (p : Z) :
  1 ≤ p < 100 → ha_value_to_brightness (1, 100) p ≠ 255.
Proof.
  intros Hp.
  assert (H : Forall (λ p, ha_value_to_brightness (1, 100) p ≠ 255) (seqZ 1 99)).
  { apply (bool_decide_unpack _). vm_compute. exact I. }
  rewrite Forall_forall in H. apply H. apply elem_of_seqZ. lia.
Qed.

(** ** Properties of the constructed curve *)

Section CurveProperties.

Variable value_to_brightness : Z * Z → Z → Z.

(** What the development uses of the library function on percentages:
    the result is a brightness from 1 to 255, and 255 is reached at 100
    percent only. *)
Hypothesis value_to_brightness_range :
  ∀ p, 1 ≤ value_to_brightness (1, 100) p ≤ 255.
Hypothesis value_to_brightness_full :
  value_to_brightness (1, 100) 100 = 255.
Hypothesis value_to_brightness_below :
  ∀ p, 1 ≤ p < 100 → value_to_brightness (1, 100) p ≠ 255.

Local Abbreviation convert := (_convert_percent_to_brightness value_to_brightness).
Local Abbreviation cfg := (config_levels value_to_brightness).
Local Abbreviation init := (__init__ value_to_brightness).

Lemma convert_range (p : Z) : 0 ≤ convert p ≤ 255.
Proof.
  unfold _convert_percent_to_brightness. case_decide; [lia |].
  pose proof (value_to_brightness_range p). lia.
Qed.

Lemma convert_pos (p : Z) : p ≠ 0 → 1 ≤ convert p.
Proof.
  intros Hp. unfold _convert_percent_to_brightness.
  rewrite decide_False by done. apply value_to_brightness_range.
Qed.

Lemma convert_top (p : Z) : 1 ≤ p ≤ 100 → convert p = 255 → p = 100.
Proof.
  intros Hp. unfold _convert_percent_to_brightness.
  rewrite decide_False by lia. intros E.
  destruct (decide (p = 100)) as [| Hne]; [done |].
  exfalso. apply (value_to_brightness_below p); [lia | done].
Qed.

Definition raw_levels (d0 : gmap Z Z) (brightness : list (Z * Z)) : gmap Z Z :=
  foldl (λ d kv, <[convert kv.1 := convert kv.2]> d) d0 brightness.

Lemma raw_levels_lookup d0 brightness k v :
  raw_levels d0 brightness !! k = Some v →
  d0 !! k = Some v ∨
  ∃ p q, (p, q) ∈ brightness ∧ k = convert p ∧ v = convert q.
Proof.
  revert d0. induction brightness as [| [p q] rest IH]; intros d0 H.
  - by left.
  - apply IH in H as [H | (p' & q' & Hin & -> & ->)].
    + simpl in H. apply lookup_insert_Some in H as [[<- <-] | [_ H]].
      * right. exists p, q. split; [apply list_elem_of_here | done].
      * by left.
    + right. exists p', q'. split; [by apply list_elem_of_further | done].
Qed.

Lemma raw_levels_miss d0 brightness k :
  (∀ p q, (p, q) ∈ brightness → convert p ≠ k) →
  raw_levels d0 brightness !! k = d0 !! k.
Proof.
  revert d0. induction brightness as [| [p q] rest IH]; intros d0 H; [done |].
  simpl. unfold raw_levels in IH. rewrite IH.
  - apply lookup_insert_ne. apply (H p q). apply list_elem_of_here.
  - intros p' q' Hin. apply (H p' q'). by apply list_elem_of_further.
Qed.

Lemma raw_levels_hit d0 brightness p q :
  NoDup (brightness.*1) → (p, q) ∈ brightness →
  (∀ p' q', (p', q') ∈ brightness → convert p' = convert p → p' = p) →
  raw_levels d0 brightness !! convert p = Some (convert q).
Proof.
  revert d0. induction brightness as [| [p0 q0] rest IH]; intros d0 Hnd Hin Hinj.
  - by apply elem_of_nil in Hin.
  - rewrite fmap_cons in Hnd. apply NoDup_cons in Hnd as [Hnotin Hnd].
    apply elem_of_cons in Hin as [[= <- <-] | Hin].
    + simpl. fold (raw_levels (<[convert p := convert q]> d0) rest).
      rewrite raw_levels_miss; [apply lookup_insert_eq |].
      intros p' q' Hin' E. apply Hnotin. simpl.
      assert (p' = p) as -> by (apply (Hinj p' q'); [by apply list_elem_of_further | done]).
      apply list_elem_of_fmap. by exists (p, q').
    + simpl. apply IH; [done | done |].
      intros p' q' Hin'. apply (Hinj p' q'). by apply list_elem_of_further.
Qed.

Lemma config_levels_lookup brightness k v :
  cfg brightness !! k = Some v →
  (k = 255 ∧ v = 255) ∨
  ∃ p q, (p, q) ∈ brightness ∧ k = convert p ∧ v = convert q.
Proof.
  unfold config_levels, setdefault. fold (raw_levels ∅ brightness).
  destruct (raw_levels ∅ brightness !! 255) eqn:E.
  - intros H. apply raw_levels_lookup in H as [H | H]; [| by right].
    by rewrite lookup_empty in H.
  - intros H. apply lookup_insert_Some in H as [[<- <-] | [_ H]]; [by left |].
    apply raw_levels_lookup in H as [H | H]; [| by right].
    by rewrite lookup_empty in H.
Qed.

Lemma config_levels_top brightness :
  ∃ v, cfg brightness !! 255 = Some v.
Proof.
  unfold config_levels, setdefault. fold (raw_levels ∅ brightness).
  destruct (raw_levels ∅ brightness !! 255) eqn:E; [by eexists |].
  exists 255. apply lookup_insert_eq.
Qed.

Lemma config_levels_chain brightness :
  calibration_table brightness →
  chain 0 (sorted_items (cfg brightness)).
Proof.
  intros Hval. apply sorted_items_chain. intros k v H.
  apply config_levels_lookup in H as [[-> ->] | (p & q & Hin & -> & ->)];
    [lia |].
  unfold calibration_table in Hval. rewrite Forall_forall in Hval.
  destruct (Hval _ Hin) as [Hp Hq]. simpl in *.
  pose proof (convert_pos p ltac:(lia)). pose proof (convert_range q). lia.
Qed.

Lemma config_levels_last brightness :
  calibration_table brightness →
  (default (0, 0) (last (sorted_items (cfg brightness)))).1 = 255.
Proof.
  intros Hval. pose proof (config_levels_chain brightness Hval) as Hch.
  destruct (config_levels_top brightness) as [v Hv].
  apply elem_of_sorted_items in Hv.
  pose proof (chain_last_max 0 _ _ (0, 0) Hch Hv) as Hmax. simpl in Hmax.
  destruct (last (sorted_items (cfg brightness))) as [[k w] |] eqn:El.
  - simpl in *. apply last_Some_elem_of in El.
    apply elem_of_sorted_items, config_levels_lookup in El
      as [[-> ->] | (p & q & Hin & -> & ->)]; [done |].
    pose proof (convert_range p). lia.
  - simpl in Hmax. lia.
Qed.

(** Construction succeeds on every calibration table and yields tables
    that satisfy the invariant for all 256 controller levels. *)
Lemma init_ok (id : string) (brightness : list (Z * Z)) :
  calibration_table brightness →
  ∃ light, init id brightness = Some light ∧
           _type light = None ∧
           tables_ok (tables_of light) 256 ∧
           levels light !! 0%nat = Some 0 ∧
           segments_ok (0, 0) (sorted_items (cfg brightness))
                       (levels light).
Proof.
  intros Hval.
  destruct (fill_levels_ok _ (config_levels_chain brightness Hval))
    as (t & E & Hok & H0 & Hseg).
  rewrite config_levels_last in Hok by done.
  unfold __init__. fold (config_levels value_to_brightness brightness).
  rewrite E. simpl. eexists. split; [done |]. simpl.
  split; [done |]. split; [| done]. by destruct t.
Qed.

Lemma init_tables (id : string) (brightness : list (Z * Z))
    (light : LightenerControlledLight) :
  init id brightness = Some light →
  fill_levels (sorted_items (cfg brightness)) = Some (tables_of light) ∧
  _type light = None ∧ entity_id light = id.
Proof.
  unfold __init__. destruct (fill_levels _) as [t |]; [| done].
  simpl. intros [= <-]. by destruct t.
Qed.

Lemma config_levels_255_default (brightness : list (Z * Z)) :
  calibration_table brightness →
  (∀ kv, kv ∈ brightness → kv.1 ≠ 100) →
  cfg brightness !! 255 = Some 255.
Proof.
  intros Hval Homit. unfold config_levels, setdefault.
  fold (raw_levels ∅ brightness).
  rewrite raw_levels_miss, lookup_empty; [apply lookup_insert_eq |].
  intros p q Hin E. unfold calibration_table in Hval.
  rewrite Forall_forall in Hval. destruct (Hval _ Hin) as [Hp _].
  apply (Homit _ Hin). simpl. by apply convert_top.
Qed.

Lemma config_levels_255_set (brightness : list (Z * Z)) (q : Z) :
  calibration_table brightness →
  NoDup (brightness.*1) → (100, q) ∈ brightness →
  cfg brightness !! 255 = Some (convert q).
Proof.
  intros Hval Hnd Hin. unfold config_levels, setdefault.
  fold (raw_levels ∅ brightness).
  assert (E : raw_levels ∅ brightness !! 255 = Some (convert q)).
  { assert (E100 : convert 100 = 255).
    { unfold _convert_percent_to_brightness. by rewrite decide_False. }
    rewrite <- E100. apply raw_levels_hit; [done | done |].
    intros p' q' Hin' E. unfold calibration_table in Hval.
    rewrite Forall_forall in Hval. destruct (Hval _ Hin') as [Hp _].
    apply convert_top; [done | congruence]. }
  by rewrite E.
Qed.

(** C1 (as amended): for every calibration table the forward table of a
    dimmable light has [translate(0) = 0]; [translate(255) = 255] holds when
    the table omits controller level 100, where the endpoint is added
    implicitly, and a table that configures level 100 gets
    [translate(255)] equal to the converted light level configured there. *)
Theorem C1_forward_endpoints (id : string) (brightness : list (Z * Z)) :
  calibration_table brightness →
  ∃ light, init id brightness = Some light ∧
    ∀ hass, (type hass light).2 ≠ Some TYPE_ONOFF →
      (translate_brightness hass light 0).2 = Some 0 ∧
      ((∀ kv, kv ∈ brightness → kv.1 ≠ 100) →
       (translate_brightness hass light 255).2 = Some 255) ∧
      (∀ q, NoDup (brightness.*1) → (100, q) ∈ brightness →
            (translate_brightness hass light 255).2 = Some (convert q)).
Proof.
  intros Hval.
  destruct (init_ok id brightness Hval) as (light & E & _ & Hok & H0 & Hseg).
  exists light. split; [done |]. intros hass Hty.
  rewrite !translate_brightness_dimmable by done.
  destruct Hok as [Hlen _ _ _ _ _]. simpl in Hlen.
  rewrite !getitem_lookup by lia.
  split; [done |]. split.
  - intros Homit. apply (segments_ok_point _ _ _ 255 255 Hseg).
    apply elem_of_sorted_items. by apply config_levels_255_default.
  - intros q Hnd Hin. apply (segments_ok_point _ _ _ 255 (convert q) Hseg).
    apply elem_of_sorted_items. by apply config_levels_255_set.
Qed.

(** C2 (as amended): for every calibration table and a dimmable light,
    every controller level [c] from 1 to 255 is a member of
    [translateBack(translate(c))]; level 0 is one too when the lowest
    calibration point has a non-zero light level. *)
Theorem C2_round_trip (id : string) (brightness : list (Z * Z)) :
  calibration_table brightness →
  ∃ light, init id brightness = Some light ∧
    ∀ hass c, (type hass light).2 ≠ Some TYPE_ONOFF →
      1 ≤ c ≤ 255 ∨
      (c = 0 ∧ ∃ C L, lowest_point value_to_brightness brightness = Some (C, L)
                      ∧ L ≠ 0) →
      ∃ v candidates,
        (translate_brightness hass light c).2 = Some v ∧
        (translate_brightness_back
           hass (translate_brightness hass light c).1 (Some v)).2
          = Some candidates ∧
        c ∈ candidates.
Proof.
  intros Hval.
  destruct (init_ok id brightness Hval) as (light & E & _ & Hok & H0 & Hseg).
  exists light. split; [done |]. intros hass c Hty Hc.
  pose proof (type_tables hass light) as [Ht _].
  injection Ht as _ Etl _ _.
  destruct Hok as [Hlen _ Htl _ Hrange Hback].
  simpl in Hlen, Htl, Hrange, Hback.
  destruct (lookup_lt_is_Some_2 (levels light) (Z.to_nat c)) as [v Hv]; [lia |].
  assert (Hvr : 0 ≤ v ≤ 255).
  { rewrite Forall_forall in Hrange. apply Hrange.
    by eapply list_elem_of_lookup_2. }
  assert (Hfwd : (translate_brightness hass light c).2 = Some v).
  { rewrite translate_brightness_dimmable by done.
    by rewrite getitem_lookup by lia. }
  assert (Hbwd : (translate_brightness_back
                    hass (translate_brightness hass light c).1 (Some v)).2
                 = to_lightener_levels light !! Z.to_nat v).
  { rewrite translate_brightness_self.
    rewrite translate_brightness_back_dimmable by (by rewrite type_cached).
    rewrite Etl. by rewrite getitem_lookup by lia. }
  exists v. rewrite Hfwd, Hbwd.
  destruct Hc as [Hc | (-> & C & L & Hlow & HL)].
  - destruct (Hback (Z.to_nat c) v ltac:(lia) Hv) as (l & Hl & Hin).
    exists l. rewrite Z2Nat.id in Hin by lia. done.
  - change (Z.to_nat 0) with 0%nat in Hv.
    assert (v = 0) as -> by congruence.
    unfold lowest_point in Hlow.
    pose proof (config_levels_chain brightness Hval) as Hch.
    destruct (sorted_items (cfg brightness)) as [| kv items] eqn:Eitems;
      [done |].
    injection Hlow as ->.
    destruct (fill_levels_zero C L items Hch HL) as (t & l & Et & Hl & Hin).
    apply init_tables in E as (E & _). rewrite Eitems, Et in E.
    injection E as ->. exists l. done.
Qed.

(** C8: for every calibration segment from [(prevC, prevL)] to [(C, L)] and
    every controller level [i] strictly between [prevC] and [C], the forward
    table holds [ceil(prevL + (L - prevL) * (i - prevC) / (C - prevC))] at
    [i], and it holds [L] itself at [C].  The segments are the neighbouring
    pairs of the sorted calibration points with [(0, 0)] put in front. *)
Theorem C8_forward_interpolation_is_ceil
    (id : string) (brightness : list (Z * Z)) :
  calibration_table brightness →
  ∃ light, init id brightness = Some light ∧
    ∀ (j : nat) prevC prevL C L,
      ((0, 0) :: sorted_items (cfg brightness)) !! j = Some (prevC, prevL) →
      ((0, 0) :: sorted_items (cfg brightness)) !! S j = Some (C, L) →
      levels light !! Z.to_nat C = Some L ∧
      ∀ i, prevC < i < C →
           levels light !! Z.to_nat i
           = Some (Qceiling (inject_Z prevL
                             + inject_Z (L - prevL) * inject_Z (i - prevC)
                               / inject_Z (C - prevC))%Q).
Proof.
  intros Hval.
  destruct (init_ok id brightness Hval) as (light & E & _ & _ & _ & Hseg).
  exists light. split; [done |]. intros j prevC prevL C L Hj HSj.
  destruct (segments_ok_lookup _ _ _ j prevC prevL C L Hseg Hj HSj) as [HC Hi].
  split; [done |]. intros i Hlt. rewrite (Hi i Hlt).
  by rewrite interpolate_ceil.
Qed.

(** C9 (as amended): for a light classified as on/off-only, [translate(c)]
    is 0 where the dimmable curve is 0 at [c] and 255 where the dimmable
    curve is non-zero at [c], for every controller level; it is never an
    intermediate value. *)
Theorem C9_on_off_follows_dimmable_curve
    (id : string) (brightness : list (Z * Z)) :
  calibration_table brightness →
  ∃ light, init id brightness = Some light ∧
    ∀ hass c, (type hass light).2 = Some TYPE_ONOFF → 0 ≤ c ≤ 255 →
      ∃ v, levels light !! Z.to_nat c = Some v ∧
           (translate_brightness hass light c).2
           = Some (if decide (v = 0) then 0 else 255).
Proof.
  intros Hval.
  destruct (init_ok id brightness Hval) as (light & E & _ & Hok & _ & _).
  exists light. split; [done |]. intros hass c Hty Hc.
  rewrite translate_brightness_on_off by done.
  destruct Hok as [Hlen Hoo _ _ Hrange _]. simpl in *.
  destruct (lookup_lt_is_Some_2 (levels light) (Z.to_nat c)) as [v Hv]; [lia |].
  exists v. split; [done |].
  rewrite getitem_lookup by (rewrite Hoo, length_fmap; lia).
  rewrite Hoo, list_lookup_fmap, Hv. simpl. f_equal.
  rewrite Forall_forall in Hrange.
  pose proof (Hrange v (list_elem_of_lookup_2 _ _ _ Hv)).
  unfold on_off. repeat case_decide; lia.
Qed.

(** C10: for every calibration table whose controller percentages are in
    [1,100] and light percentages in [0,100], construction succeeds, both
    forward tables have exactly 256 entries, every entry is in [0,255], and
    [translate(c)] returns a brightness in [0,255] for every controller
    level 0..255, whatever the type of the light. *)
Theorem C10_forward_tables_total (id : string) (brightness : list (Z * Z)) :
  calibration_table brightness →
  ∃ light, init id brightness = Some light ∧
    length (levels light) = 256%nat ∧
    length (levels_on_off light) = 256%nat ∧
    Forall (λ v, 0 ≤ v ≤ 255) (levels light) ∧
    Forall (λ v, 0 ≤ v ≤ 255) (levels_on_off light) ∧
    ∀ hass c, 0 ≤ c ≤ 255 →
      ∃ v, (translate_brightness hass light c).2 = Some v ∧ 0 ≤ v ≤ 255.
Proof.
  intros Hval.
  destruct (init_ok id brightness Hval) as (light & E & _ & Hok & _ & _).
  exists light. split; [done |].
  destruct Hok as [Hlen Hoo _ _ Hrange _]. simpl in *.
  assert (Hrange' : Forall (λ v, 0 ≤ v ≤ 255) (levels_on_off light)).
  { rewrite Hoo. apply Forall_fmap. eapply Forall_impl; [exact Hrange |].
    intros v _. simpl. destruct (on_off_cases v); lia. }
  assert (Hlen' : length (levels_on_off light) = 256%nat)
    by (rewrite Hoo, length_fmap; lia).
  split; [lia |]. split; [done |]. split; [done |]. split; [done |].
  intros hass c Hc.
  destruct (decide ((type hass light).2 = Some TYPE_ONOFF)) as [Hty | Hty].
  - rewrite translate_brightness_on_off by done.
    rewrite getitem_lookup by lia.
    destruct (lookup_lt_is_Some_2 (levels_on_off light) (Z.to_nat c))
      as [v Hv]; [lia |].
    exists v. split; [done |]. rewrite Forall_forall in Hrange'.
    apply Hrange'. by eapply list_elem_of_lookup_2.
  - rewrite translate_brightness_dimmable by done.
    rewrite getitem_lookup by lia.
    destruct (lookup_lt_is_Some_2 (levels light) (Z.to_nat c))
      as [v Hv]; [lia |].
    exists v. split; [done |]. rewrite Forall_forall in Hrange.
    apply Hrange. by eapply list_elem_of_lookup_2.
Qed.

End CurveProperties.

(** ** Sets of candidate levels *)

Lemma elem_of_set_of (y : option Z) (l : list Z) :
  y ∈ set_of l ↔ ∃ x, y = Some x ∧ x ∈ l.
Proof.
  unfold set_of. rewrite elem_of_list_to_set, list_elem_of_fmap. naive_solver.
Qed.

Lemma elem_of_intersection_all (y : option Z) (s : pyset) (others : list pyset) :
  y ∈ intersection s others ↔ y ∈ s ∧ ∀ o, o ∈ others → y ∈ o.
Proof.
  unfold intersection. revert s.
  induction others as [| a others IH]; intros s; simpl.
  - split; [| by intros []].
    intros Hy. split; [done |]. intros o Ho. by apply elem_of_nil in Ho.
  - rewrite IH, elem_of_intersection. split.
    + intros [[Hs Ha] Ho]. split; [done |].
      intros o Hin. apply elem_of_cons in Hin as [-> | Hin]; auto.
    + intros [Hs Ho]. split.
      * split; [done |]. apply Ho, list_elem_of_here.
      * intros o Hin. by apply Ho, list_elem_of_further.
Qed.

Lemma common_level_of_prefered (p : Z) (levels : list (list Z)) :
  levels ≠ [] → common_candidate levels p →
  common_level_of (Some p) levels = Some {[Some p]}.
Proof.
  intros Hne Hp. destruct levels as [| l ls]; [done |].
  unfold common_level_of. rewrite decide_True; [done |].
  assert (Hin : Some p ∈ intersection {[Some p]} (set_of <$> l :: ls)).
  { apply elem_of_intersection_all. split; [set_solver |].
    intros o Ho. apply list_elem_of_fmap in Ho as (l' & -> & Hl').
    apply elem_of_set_of. exists p. split; [done |]. by apply Hp. }
  destruct (decide (size (intersection {[Some p]} (set_of <$> l :: ls)) = 0%nat))
    as [E | E]; [| lia].
  apply size_empty_iff in E. set_solver.
Qed.

Lemma common_level_of_none (prefered : option Z) (levels : list (list Z)) :
  (¬ ∃ x, common_candidate levels x) →
  common_level_of prefered levels = Some ∅.
Proof.
  intros Hnone. destruct levels as [| l ls].
  { exfalso. apply Hnone. exists 0. intros l Hl. by apply elem_of_nil in Hl. }
  assert (Hcommon : ∀ y s, y ∈ intersection s (set_of <$> l :: ls) → False).
  { intros y s Hy. apply elem_of_intersection_all in Hy as [_ Hy].
    pose proof (Hy (set_of l) ltac:(rewrite fmap_cons; apply list_elem_of_here))
      as Hl.
    apply elem_of_set_of in Hl as (x & -> & _).
    apply Hnone. exists x. intros l' Hl'.
    pose proof (Hy (set_of l') ltac:(by apply list_elem_of_fmap_2)) as Hx.
    apply elem_of_set_of in Hx as (x' & [= <-] & Hx). done. }
  unfold common_level_of. rewrite decide_False.
  - f_equal. apply elem_of_equiv_empty_L. intros y Hy.
    apply (Hcommon y (set_of l)).
    apply elem_of_intersection_all. apply elem_of_intersection_all in Hy as [H1 H2].
    split; [done |]. intros o Ho. rewrite fmap_cons in Ho.
    apply elem_of_cons in Ho as [-> | Ho]; auto.
  - intros Hpos. apply size_pos_elem_of in Hpos as [y Hy]. by eapply Hcommon.
Qed.

(** ** The reconciliation pass and the write transaction *)

Section GroupProperties.

Variable group_state : Hass → list string → GroupAttrs.
Variable set_pop : pyset → option Z.
Variable FORWARDED_ATTRIBUTES : list string.
Variable group_turn_off : gmap string Value → list string → list Command.

(** [pop] on a non-empty set returns one of its members. *)
Hypothesis set_pop_member : ∀ s : pyset, s ≠ ∅ → set_pop s ∈ s.

Local Abbreviation update := (async_update_group_state group_state set_pop).
Local Abbreviation notify := (on_state_change group_state set_pop).
Local Abbreviation await := (await_call group_state set_pop).
Local Abbreviation fan_out := (dispatch group_state set_pop).
Local Abbreviation turn_on :=
  (async_turn_on group_state set_pop FORWARDED_ATTRIBUTES).
Local Abbreviation turn_off :=
  (async_turn_off group_state set_pop group_turn_off).

(** The pass on an unfrozen controller that the base class finds on, with
    the candidate lists [levels] gathered without error. *)
Lemma update_on (hass : Hass) (self : LightenerLight)
    (entities : list LightenerControlledLight) (levels : list (list Z)) :
  _is_frozen self = false →
  g_is_on (group_state hass (_entity_ids self)) = Some true →
  gather_levels hass (_entity_ids self) (_entities self) [] =
    (entities, Some levels) →
  ∃ self', update hass self = (self', Returned) ∧
    _attr_brightness self' =
      match common_level_of (_prefered_brightness self) levels with
      | Some s => if decide (s ≠ ∅) then set_pop s else _prefered_brightness self
      | None => _prefered_brightness self
      end.
Proof.
  intros Hfrozen Hon Hgather. unfold async_update_group_state.
  rewrite Hfrozen.
  set (self1 := set_group_attrs (group_state hass (_entity_ids self)) self).
  assert (Hon1 : is_on self1 = true).
  { unfold is_on, self1. simpl. rewrite Hon. done. }
  rewrite Hon1.
  change (_entity_ids self1) with (_entity_ids self).
  change (_entities self1) with (_entities self).
  rewrite Hgather. simpl.
  change (is_on (set_entities entities self1)) with (is_on self1).
  rewrite Hon1.
  eexists. split; [done |]. simpl.
  destruct (common_level_of (_prefered_brightness self) levels) as [s |];
    [| done].
  by case_decide.
Qed.

(** C6: in a reconciliation pass with the controller on, when the preferred
    brightness is a member of every voting light's candidate set, the
    displayed brightness becomes the preferred brightness. *)
Theorem C6_prefered_brightness_wins (hass : Hass) (self : LightenerLight)
    (entities : list LightenerControlledLight) (levels : list (list Z))
    (p : Z) :
  _is_frozen self = false →
  g_is_on (group_state hass (_entity_ids self)) = Some true →
  gather_levels hass (_entity_ids self) (_entities self) [] =
    (entities, Some levels) →
  _prefered_brightness self = Some p →
  common_candidate levels p →
  ∃ self', update hass self = (self', Returned) ∧
           _attr_brightness self' = Some p.
Proof.
  intros Hfrozen Hon Hgather Hpref Hcommon.
  destruct (update_on hass self entities levels Hfrozen Hon Hgather)
    as (self' & E & Hb).
  exists self'. split; [done |]. rewrite Hb, Hpref.
  destruct (decide (levels = [])) as [-> | Hne]; [done |].
  rewrite common_level_of_prefered by done.
  assert (Hs : ({[Some p]} : pyset) ≠ ∅) by set_solver.
  rewrite decide_True by done.
  pose proof (set_pop_member _ Hs) as Hpop. set_solver.
Qed.

(** C7: in a reconciliation pass with the controller on, when no level is
    common to all voting lights' candidate sets, the displayed brightness
    is the preferred brightness: its value when it is set, unset when it is
    unset. *)
Theorem C7_no_common_level_falls_back (hass : Hass) (self : LightenerLight)
    (entities : list LightenerControlledLight) (levels : list (list Z)) :
  _is_frozen self = false →
  g_is_on (group_state hass (_entity_ids self)) = Some true →
  gather_levels hass (_entity_ids self) (_entities self) [] =
    (entities, Some levels) →
  (¬ ∃ x, common_candidate levels x) →
  ∃ self', update hass self = (self', Returned) ∧
           _attr_brightness self' = _prefered_brightness self.
Proof.
  intros Hfrozen Hon Hgather Hnone.
  destruct (update_on hass self entities levels Hfrozen Hon Hgather)
    as (self' & E & Hb).
  exists self'. split; [done |]. rewrite Hb.
  rewrite common_level_of_none by done.
  by rewrite decide_False by (intros H; by apply H).
Qed.

(** A frozen controller ignores a state change of a member. *)
Lemma notify_frozen (hass : Hass) (self : LightenerLight) :
  _is_frozen self = true → notify hass self = self.
Proof.
  intros Hf. unfold on_state_change, async_update_group_state.
  rewrite Hf. unfold async_write_ha_state. by rewrite Hf.
Qed.

Lemma await_frozen (c : Command) (r : Run) :
  _is_frozen (run_self r) = true → run_self (await c r).1 = run_self r.
Proof.
  intros Hf. unfold await_call. simpl.
  induction (arrivals _) as [| h hs IH] using rev_ind; [done |].
  rewrite foldl_snoc. rewrite IH. apply notify_frozen. done.
Qed.

(** The fan-out keeps the controller frozen and leaves what it displays and
    what it has published untouched, whatever arrives meanwhile. *)
Lemma dispatch_frozen (data : gmap string Value) (brightness : option Z)
    (todo : list LightenerControlledLight) (done : nat) (r r' : Run)
    (out : Outcome) :
  _is_frozen (run_self r) = true →
  fan_out data brightness todo done r = (r', out) →
  _is_frozen (run_self r') = true ∧
  _attr_brightness (run_self r') = _attr_brightness (run_self r) ∧
  _prefered_brightness (run_self r') = _prefered_brightness (run_self r) ∧
  published (run_self r') = published (run_self r).
Proof.
  revert done r. induction todo as [| entity rest IH]; intros done r Hf E.
  - simpl in E. by injection E as <- _.
  - cbn [dispatch] in E.
    set (tr := match brightness with
               | Some b =>
                   let '(e, v) := translate_brightness (run_hass r) entity b in
                   (e, Some v)
               | None => (entity, None)
               end) in E.
    destruct tr as [entity' entity_brightness].
    set (r1 := with_entities (<[done := entity']> (_entities (run_self r))) r)
      in E.
    assert (Hf1 : _is_frozen (run_self r1) = true) by done.
    assert (Hstep : ∀ c r2 o, await c r1 = (r2, o) →
              (o = Returned → fan_out data brightness rest (S done) r2 = (r', out)) →
              (o = Raised → (r2, Raised) = (r', out)) →
              _is_frozen (run_self r') = true ∧
              _attr_brightness (run_self r') = _attr_brightness (run_self r) ∧
              _prefered_brightness (run_self r') = _prefered_brightness (run_self r) ∧
              published (run_self r') = published (run_self r)).
    { intros c r2 o Ea HR HX.
      pose proof (await_frozen c r1 Hf1) as Hs. rewrite Ea in Hs. simpl in Hs.
      destruct o.
      - destruct (IH (S done) r2) as (H1 & H2 & H3 & H4);
          [by rewrite Hs | by apply HR |]. by rewrite H1, H2, H3, H4, Hs.
      - specialize (HX eq_refl). injection HX as <- _. by rewrite Hs. }
    destruct entity_brightness as [[v |] |].
    + destruct (await _ r1) as [r2 o] eqn:Ea.
      eapply Hstep; [exact Ea | |]; intros ->; done.
    + by injection E as <- _.
    + destruct (await _ r1) as [r2 o] eqn:Ea.
      eapply Hstep; [exact Ea | |]; intros ->; done.
Qed.

Lemma await_calls_frozen (cs : list Command) (r r' : Run) (out : Outcome) :
  _is_frozen (run_self r) = true →
  await_calls group_state set_pop cs r = (r', out) →
  run_self r' = run_self r.
Proof.
  revert r. induction cs as [| c cs IH]; intros r Hf E.
  - simpl in E. by injection E as <- _.
  - cbn [await_calls] in E. pose proof (await_frozen c r Hf) as Hs.
    destruct (await c r) as [r2 o]. simpl in Hs. destruct o.
    + rewrite (IH r2) by (by rewrite ?Hs). done.
    + by injection E as <- _.
Qed.

Lemma begin_turn_on_frozen (kwargs : gmap string Value) (self : LightenerLight) :
  _is_frozen (begin_turn_on kwargs self).2 = true ∧
  published (begin_turn_on kwargs self).2 = published self.
Proof.
  unfold begin_turn_on.
  destruct (kwargs_brightness kwargs) as [b |], (_attr_brightness self) as [a |];
    simpl; try done.
  case_decide; simpl; [done |]. by destruct (_prefered_brightness self).
Qed.

Lemma settle_unfrozen (r : Run) :
  _is_frozen (run_self (settle group_state set_pop r).1) = false.
Proof.
  unfold settle, async_update_group_state. simpl.
  destruct (is_on _).
  - destruct (gather_levels _ _ _ _) as [entities [levels |]]; simpl; done.
  - done.
Qed.

(** C5: while a [setBrightness] transaction is in flight, a state-change
    notification from a controlled light changes nothing in the controller
    and publishes no state.  The frozen flag is set before the first
    per-light command; while a command is awaited with the flag set, any
    notifications leave the controller object as it is; and when the
    fan-out ends the flag is still set, with the displayed brightness and
    the published states those of its start. *)
Theorem C5_notifications_ignored_in_flight
    (kwargs : gmap string Value) (r : Run) :
  _is_frozen (begin_turn_on kwargs (run_self r)).2 = true ∧
  (∀ hass self, _is_frozen self = true → notify hass self = self) ∧
  (∀ c r0, _is_frozen (run_self r0) = true →
           run_self (await c r0).1 = run_self r0) ∧
  (∀ r1 out,
     fan_out (filter (λ kv, kv.1 ∈ FORWARDED_ATTRIBUTES) kwargs)
             (begin_turn_on kwargs (run_self r)).1
             (_entities (begin_turn_on kwargs (run_self r)).2) 0
             (with_self (begin_turn_on kwargs (run_self r)).2 r) = (r1, out) →
     _is_frozen (run_self r1) = true ∧
     _attr_brightness (run_self r1)
       = _attr_brightness (begin_turn_on kwargs (run_self r)).2 ∧
     published (run_self r1) = published (run_self r)).
Proof.
  destruct (begin_turn_on_frozen kwargs (run_self r)) as [Hf Hp].
  split; [done |]. split; [apply notify_frozen |].
  split; [apply await_frozen |].
  intros r1 out E.
  apply dispatch_frozen in E as (H1 & H2 & _ & H4); [| done].
  split; [done |]. split; [done |]. simpl in H4. congruence.
Qed.

End GroupProperties.

(** ** Examples, with Home Assistant's functions for the parameters *)

Lemma pop_first_member (s : pyset) : s ≠ ∅ → pop_first s ∈ s.
Proof.
  intros Hs. unfold pop_first.
  destruct (elements s) as [| x xs] eqn:E.
  - apply elements_empty_iff in E. by apply leibniz_equiv in E.
  - simpl. apply elem_of_elements. rewrite E. apply list_elem_of_here.
Qed.

Lemma calibration_table_check (brightness : list (Z * Z)) :
  bool_decide (calibration_table brightness) = true →
  calibration_table brightness.
Proof. intros H. by apply bool_decide_eq_true in H. Qed.

Lemma fresh_light_dimmable (id : string) (brightness : list (Z * Z))
    (light : LightenerControlledLight) :
  __init__ ha_value_to_brightness id brightness = Some light →
  (type no_states light).2 ≠ Some TYPE_ONOFF.
Proof.
  intros E. apply init_tables in E as (_ & Hty & _).
  unfold type. by rewrite Hty.
Qed.

Lemma fresh_light_on_off (id : string) (brightness : list (Z * Z))
    (light : LightenerControlledLight) :
  __init__ ha_value_to_brightness id brightness = Some light →
  (type all_on_off light).2 = Some TYPE_ONOFF.
Proof.
  intros E. apply init_tables in E as (_ & Hty & _).
  unfold type. by rewrite Hty.
Qed.

(** C1 fails for the calibration [50:100, 100:0]: [translate(255)] is 0. *)
Lemma C1_counterexample :
  ¬ (∀ light,
       __init__ ha_value_to_brightness "light.a" up_and_down = Some light →
       (translate_brightness no_states light 255).2 = Some 255).
Proof.
  intros H.
  assert (E : ∃ light,
             __init__ ha_value_to_brightness "light.a" up_and_down = Some light ∧
             (translate_brightness no_states light 255).2 = Some 0).
  { vm_compute. eexists. split; reflexivity. }
  destruct E as (light & E & E0). specialize (H light E). congruence.
Qed.

Lemma C1_forward_endpoints_witness :
  ∃ light,
    __init__ ha_value_to_brightness "light.a" [(25, 50); (75, 100)] = Some light ∧
    (translate_brightness no_states light 0).2 = Some 0 ∧
    (translate_brightness no_states light 255).2 = Some 255.
Proof.
  destruct (C1_forward_endpoints ha_value_to_brightness
              ha_value_to_brightness_range ha_value_to_brightness_full
              ha_value_to_brightness_below "light.a" [(25, 50); (75, 100)])
    as (light & E & H).
  { apply calibration_table_check. vm_compute. reflexivity. }
  exists light. split; [exact E |].
  destruct (H no_states (fresh_light_dimmable _ _ _ E)) as (H0 & H255 & _).
  split; [exact H0 |]. apply H255.
  apply (proj1 (Forall_forall (λ kv : Z * Z, kv.1 ≠ 100) _)).
  repeat constructor; simpl; lia.
Defined.

(** C2 fails for the calibration [50:0]: [translate(0)] is 0 and the
    candidates for light level 0 are the controller levels 1 to 128. *)
Lemma C2_counterexample :
  ¬ (∀ light v candidates,
       __init__ ha_value_to_brightness "light.a" [(50, 0)] = Some light →
       (translate_brightness no_states light 0).2 = Some v →
       (translate_brightness_back
          no_states (translate_brightness no_states light 0).1 (Some v)).2
         = Some candidates →
       0 ∈ candidates).
Proof.
  intros H.
  assert (E : ∃ light,
             __init__ ha_value_to_brightness "light.a" [(50, 0)] = Some light ∧
             (translate_brightness no_states light 0).2 = Some 0 ∧
             (translate_brightness_back
                no_states (translate_brightness no_states light 0).1 (Some 0)).2
               = Some (seqZ 1 128)).
  { vm_compute. eexists. split; [reflexivity |]. split; reflexivity. }
  destruct E as (light & E & E0 & Eb).
  specialize (H light 0 (seqZ 1 128) E E0 Eb).
  apply elem_of_seqZ in H. lia.
Qed.

Lemma C2_round_trip_witness :
  ∃ light,
    __init__ ha_value_to_brightness "light.a" [(25, 50); (75, 100)] = Some light ∧
    ∀ c, c = 0 ∨ c = 60 →
      ∃ v candidates,
        (translate_brightness no_states light c).2 = Some v ∧
        (translate_brightness_back
           no_states (translate_brightness no_states light c).1 (Some v)).2
          = Some candidates ∧
        c ∈ candidates.
Proof.
  destruct (C2_round_trip ha_value_to_brightness ha_value_to_brightness_range
              "light.a" [(25, 50); (75, 100)]) as (light & E & H).
  { apply calibration_table_check. vm_compute. reflexivity. }
  exists light. split; [exact E |]. intros c Hc.
  apply H; [exact (fresh_light_dimmable _ _ _ E) |].
  destruct Hc as [-> | ->].
  - right. split; [reflexivity |]. exists 64, 128.
    split; [vm_compute; reflexivity | lia].
  - left. lia.
Defined.

Lemma C8_forward_interpolation_is_ceil_witness :
  ∃ light,
    __init__ ha_value_to_brightness "light.a" [(50, 100)] = Some light ∧
    levels light !! 128%nat = Some 255 ∧
    levels light !! 1%nat = Some 2.
Proof.
  destruct (C8_forward_interpolation_is_ceil ha_value_to_brightness
              ha_value_to_brightness_range "light.a" [(50, 100)])
    as (light & E & H).
  { apply calibration_table_check. vm_compute. reflexivity. }
  exists light. split; [exact E |].
  destruct (H 0%nat 0 0 128 255) as [HC Hi];
    [vm_compute; reflexivity | vm_compute; reflexivity |].
  split; [exact HC |]. apply (Hi 1). lia.
Defined.

(** C9 fails for the calibration [50:100, 100:0]: the first point with a
    non-zero light level is at controller level 128, and an on/off light is
    sent 0 at controller level 255. *)
Lemma C9_counterexample :
  ¬ (∀ light c,
       __init__ ha_value_to_brightness "light.a" up_and_down = Some light →
       0 ≤ c ≤ 255 →
       (translate_brightness all_on_off light c).2
       = Some (on_off_by_threshold
                 (sorted_items (config_levels ha_value_to_brightness up_and_down))
                 c)).
Proof.
  intros H.
  assert (E : ∃ light,
             __init__ ha_value_to_brightness "light.a" up_and_down = Some light ∧
             (translate_brightness all_on_off light 255).2 = Some 0).
  { vm_compute. eexists. split; reflexivity. }
  destruct E as (light & E & E0).
  assert (Hc : 0 ≤ 255 ≤ 255) by lia.
  specialize (H light 255 E Hc). rewrite E0 in H.
  vm_compute in H. discriminate H.
Qed.

Lemma C9_on_off_follows_dimmable_curve_witness :
  ∃ light,
    __init__ ha_value_to_brightness "light.a" up_and_down = Some light ∧
    ∃ v, levels light !! Z.to_nat 255 = Some v ∧
         (translate_brightness all_on_off light 255).2
         = Some (if decide (v = 0) then 0 else 255).
Proof.
  destruct (C9_on_off_follows_dimmable_curve ha_value_to_brightness
              ha_value_to_brightness_range "light.a" up_and_down)
    as (light & E & H).
  { apply calibration_table_check. vm_compute. reflexivity. }
  exists light. split; [exact E |].
  apply H; [exact (fresh_light_on_off _ _ _ E) | lia].
Defined.

Lemma C10_forward_tables_total_witness :
  ∃ light,
    __init__ ha_value_to_brightness "light.a" [(25, 50); (75, 100)] = Some light ∧
    length (levels light) = 256%nat ∧
    length (levels_on_off light) = 256%nat ∧
    ∃ v, (translate_brightness all_on_off light 200).2 = Some v ∧ 0 ≤ v ≤ 255.
Proof.
  destruct (C10_forward_tables_total ha_value_to_brightness
              ha_value_to_brightness_range "light.a" [(25, 50); (75, 100)])
    as (light & E & Hl & Hlo & _ & _ & H).
  { apply calibration_table_check. vm_compute. reflexivity. }
  exists light. split; [exact E |]. split; [exact Hl |]. split; [exact Hlo |].
  apply H. lia.
Defined.

Lemma pair_snd_eq {A B} (p : A * B) (b : B) : p.2 = b → p = (p.1, b).
Proof. destruct p. simpl. by intros ->. Qed.

(** A member without a state object is passed over by the voting loop. *)
Lemma gather_levels_skips_missing (hass : Hass) (id : string)
    (ids : list string) (entities : list LightenerControlledLight)
    (levels : list (list Z)) :
  hass id = None →
  gather_levels hass (id :: ids) entities levels
  = gather_levels hass ids entities levels.
Proof. intros H. simpl. by rewrite H. Qed.

(** C3: evaluation at a controlled light whose state is [unavailable],
    next to [light.a] that is on at 153, both with the default calibration.
    The unavailable light is not excluded from the vote: it contributes the
    candidate set of brightness 0, the intersection with the candidates of
    [light.a] is empty and the displayed brightness stays unset.  Only a
    light that has no state object at all is excluded: then the displayed
    brightness is 153. *)
Theorem C3_unavailable_state_votes_as_off :
  (gather_levels b_unavailable ["light.a"; "light.b"] (two_lights []) []).2
    = Some [[153]; [0]] ∧
  _attr_brightness
    (async_update_group_state light_group_state pop_first b_unavailable
       (new_lightener (two_lights []))).1 = None ∧
  (gather_levels b_missing ["light.a"; "light.b"] (two_lights []) []).2
    = Some [[153]] ∧
  _attr_brightness
    (async_update_group_state light_group_state pop_first b_missing
       (new_lightener (two_lights []))).1 = Some 153.
Proof. vm_compute. repeat split. Qed.

(** C4 fails when the first per-light command of [setBrightness] raises:
    the method ends with the exception, the frozen flag is still set and
    nothing has been published. *)
Lemma C4_counterexample :
  (async_turn_on light_group_state pop_first ha_forwarded_attributes
     brightness_128 (example_run first_call_fails)).2 = Raised ∧
  _is_frozen
    (run_self
       (async_turn_on light_group_state pop_first ha_forwarded_attributes
          brightness_128 (example_run first_call_fails)).1) ≠ false ∧
  published
    (run_self
       (async_turn_on light_group_state pop_first ha_forwarded_attributes
          brightness_128 (example_run first_call_fails)).1) = [].
Proof.
  vm_compute. split; [reflexivity |]. split; [| reflexivity].
  intros H. discriminate H.
Qed.

Lemma C5_notifications_ignored_in_flight_witness :
  ∃ r1,
    dispatch light_group_state pop_first
      (filter (λ kv, kv.1 ∈ ha_forwarded_attributes) brightness_128)
      (begin_turn_on brightness_128 (run_self (example_run calls_complete))).1
      (_entities
         (begin_turn_on brightness_128 (run_self (example_run calls_complete))).2)
      0
      (with_self
         (begin_turn_on brightness_128 (run_self (example_run calls_complete))).2
         (example_run calls_complete)) = (r1, Returned) ∧
    _is_frozen (run_self r1) = true ∧
    _attr_brightness (run_self r1)
      = _attr_brightness
          (begin_turn_on brightness_128
             (run_self (example_run calls_complete))).2 ∧
    published (run_self r1) = published (run_self (example_run calls_complete)).
Proof.
  destruct (C5_notifications_ignored_in_flight light_group_state pop_first
              ha_forwarded_attributes brightness_128
              (example_run calls_complete)) as (_ & _ & _ & H).
  eexists. split; [| apply (H _ Returned)];
    apply pair_snd_eq; vm_compute; reflexivity.
Defined.

(** Both lights, calibrated [50:100, 100:0], are seen at brightness 100,
    which the controller levels 50, 51 and 206 produce. *)
Lemma C6_prefered_brightness_wins_witness :
  ∃ self',
    async_update_group_state light_group_state pop_first (both_on 100 100)
      (set_prefered_brightness (Some 206)
         (new_lightener (two_lights up_and_down))) = (self', Returned) ∧
    _attr_brightness self' = Some 206.
Proof.
  eapply (C6_prefered_brightness_wins light_group_state pop_first
            pop_first_member (both_on 100 100)
            (set_prefered_brightness (Some 206)
               (new_lightener (two_lights up_and_down)))
            _ [[50; 51; 206]; [50; 51; 206]] 206).
  - reflexivity.
  - vm_compute. reflexivity.
  - apply pair_snd_eq. vm_compute. reflexivity.
  - reflexivity.
  - unfold common_candidate.
    apply (proj1 (Forall_forall (λ l : list Z, 206 ∈ l) _)).
    apply (bool_decide_unpack _). vm_compute. exact I.
Defined.

(** The two lights, with the default calibration, are seen at 100 and 200. *)
Lemma C7_no_common_level_falls_back_witness :
  ∃ self',
    async_update_group_state light_group_state pop_first (both_on 100 200)
      (set_prefered_brightness (Some 42) (new_lightener (two_lights [])))
      = (self', Returned) ∧
    _attr_brightness self'
      = _prefered_brightness
          (set_prefered_brightness (Some 42) (new_lightener (two_lights []))).
Proof.
  eapply (C7_no_common_level_falls_back light_group_state pop_first
            (both_on 100 200)
            (set_prefered_brightness (Some 42) (new_lightener (two_lights [])))
            _ [[100]; [200]]).
  - reflexivity.
  - vm_compute. reflexivity.
  - apply pair_snd_eq. vm_compute. reflexivity.
  - intros [x Hx].
    assert (H1 : x ∈ [100]) by (apply Hx, list_elem_of_here).
    assert (H2 : x ∈ [200])
      by (apply Hx, list_elem_of_further, list_elem_of_here).
    apply list_elem_of_singleton in H1.
    apply list_elem_of_singleton in H2. lia.
Defined.


(** * Further properties of the curve *)

(** ** Interpolation *)

Lemma interpolate_end (a b c d : Z) : d ≠ c → interpolate a b c d d = b.
Proof.
  intros Hd. rewrite interpolate_Z by done.
  replace (- ((b - a) * (d - c))) with ((a - b) * (d - c)) by lia.
  rewrite Z.div_mul by lia. lia.
Qed.

(** The interpolation stays between the end values whichever way the
    segment runs. *)
Lemma interpolate_between_any (a b c d i : Z) :
  d ≠ c → Z.min c d ≤ i ≤ Z.max c d →
  Z.min a b ≤ interpolate a b c d i ≤ Z.max a b.
Proof.
  intros Hd Hi. destruct (Z.lt_ge_cases c d) as [Hlt | Hge].
  - apply interpolate_between; lia.
  - rewrite interpolate_Z by done.
    set (m := c - d). assert (Hm : 0 < m) by (unfold m; lia).
    replace (- ((b - a) * (i - c)) / (d - c))
      with (((b - a) * (i - c)) / m)
      by (unfold m; rewrite <- (Z.div_opp_opp _ (c - d)) by lia;
          f_equal; lia).
    set (n := (b - a) * (i - c)).
    pose proof (Z.mul_div_le n m Hm) as Hlo.
    pose proof (Z.mul_succ_div_gt n m Hm) as Hhi.
    assert (Hk : - m ≤ i - c ≤ 0) by (unfold m; lia).
    destruct (Z.le_gt_cases a b) as [Hab | Hab].
    + assert (- ((b - a) * m) ≤ n ≤ 0) by (unfold n; nia).
      assert (- (b - a) ≤ n / m ≤ 0) by nia. lia.
    + assert (0 ≤ n ≤ (a - b) * m) by (unfold n; nia).
      assert (0 ≤ n / m ≤ a - b) by nia. lia.
Qed.

(** On a rising segment the interpolation never decreases. *)
Lemma interpolate_mono (a b c d i j : Z) :
  a ≤ b → c < d → c ≤ i → i ≤ j →
  interpolate a b c d i ≤ interpolate a b c d j.
Proof.
  intros Hab Hcd Hi Hij. rewrite !interpolate_Z by lia.
  assert (- ((b - a) * (j - c)) / (d - c) ≤ - ((b - a) * (i - c)) / (d - c)).
  { apply Z.div_le_mono; [lia | nia]. }
  lia.
Qed.

(** ** The reverse tables *)

Lemma for_each_preserves {S A} (body : S → A → option S) (P : nat → S → Prop)
    (xs : list A) (s s' : S) :
  P 0%nat s →
  (∀ k x s1 s2, xs !! k = Some x → P k s1 → body s1 x = Some s2 →
                P (Datatypes.S k) s2) →
  for_each body xs s = Some s' → P (length xs) s'.
Proof.
  revert P s. induction xs as [| x xs IH]; intros P s H0 Hstep E.
  - simpl in E. by injection E as <-.
  - simpl in E. destruct (body s x) as [s1 |] eqn:Eb; [| done]. simpl in E.
    apply (IH (λ k, P (Datatypes.S k)) s1).
    + by apply (Hstep 0%nat x s s1).
    + intros k y s2 s3 Hk. by apply Hstep.
    + done.
Qed.

Lemma append_at_lookup (t t' : list (list Z)) (i x : Z) (j : nat) (l' : list Z) :
  0 ≤ i < Z.of_nat (length t) →
  append_at t i x = Some t' → t' !! j = Some l' →
  (j = Z.to_nat i ∧ ∃ l, t !! j = Some l ∧ l' = l ++ [x]) ∨
  (j ≠ Z.to_nat i ∧ t !! j = Some l').
Proof.
  intros Hi E Hj. unfold append_at in E. rewrite py_index_Some in E by done.
  simpl in E. destruct (t !! Z.to_nat i) as [l |] eqn:El; [| done].
  simpl in E. injection E as <-.
  apply list_lookup_insert_Some in Hj as [(<- & <- & _) | (Hne & Hj)].
  - left. split; [done |]. by exists l.
  - right. done.
Qed.

Lemma initial_tables_reverse_ok : reverse_ok initial_tables 1.
Proof.
  split; unfold initial_tables;
    cbn [t_levels t_to_lightener_levels t_to_lightener_levels_on_off].
  - intros j l x Hj Hx. apply lookup_replicate in Hj as [-> _].
    by apply elem_of_nil in Hx.
  - intros j l Hj. apply lookup_replicate in Hj as [-> _]. constructor.
  - intros j l x Hj Hx. apply lookup_replicate in Hj as [-> _].
    by apply elem_of_nil in Hx.
  - intros j l Hj _ _. by apply lookup_replicate in Hj as [-> _].
  - intros [| i] v Hi Hv; [lia |]. by destruct i.
Qed.

Lemma on_off_index (v : Z) :
  Z.to_nat (on_off v) = 0%nat ∨ Z.to_nat (on_off v) = 255%nat.
Proof. destruct (on_off_cases v) as [-> | ->]; [by left | by right]. Qed.

(** Appending the value [v] for the controller level [n]. *)
Lemma push_reverse_ok (t : Tables) (n v : Z) (tl tlo : list (list Z)) :
  tables_ok t n → reverse_ok t n → 1 ≤ n → 0 ≤ v ≤ 255 →
  append_at (t_to_lightener_levels t) v n = Some tl →
  append_at (t_to_lightener_levels_on_off t) (on_off v) n = Some tlo →
  reverse_ok {| t_levels := t_levels t ++ [v];
                t_to_lightener_levels := tl;
                t_levels_on_off := t_levels_on_off t ++ [on_off v];
                t_to_lightener_levels_on_off := tlo |} (n + 1).
Proof.
  intros [Hlen _ Htl Htlo _ _] [Hb Hnd Hbo Hoe Hob] Hn Hv Etl Etlo.
  assert (Hio : 0 ≤ on_off v < Z.of_nat (length (t_to_lightener_levels_on_off t)))
    by (destruct (on_off_cases v); lia).
  assert (Hiv : 0 ≤ v < Z.of_nat (length (t_to_lightener_levels t))) by lia.
  split; simpl.
  - intros j l' x Hj Hx.
    destruct (append_at_lookup _ _ _ _ _ _ Hiv Etl Hj)
      as [(-> & l & Hl & ->) | (_ & Hj')]; clear Hj; [| rename Hj' into Hj].
    + apply elem_of_app in Hx as [Hx | Hx].
      * specialize (Hb _ _ _ Hl Hx). lia.
      * apply list_elem_of_singleton in Hx. lia.
    + specialize (Hb _ _ _ Hj Hx). lia.
  - intros j l' Hj.
    destruct (append_at_lookup _ _ _ _ _ _ Hiv Etl Hj)
      as [(-> & l & Hl & ->) | (_ & Hj')]; clear Hj; [| rename Hj' into Hj].
    + apply NoDup_app. split; [by eapply Hnd |]. split; [| apply NoDup_singleton].
      intros x Hx Hx'. apply list_elem_of_singleton in Hx'.
      specialize (Hb _ _ _ Hl Hx). lia.
    + by eapply Hnd.
  - intros j l' x Hj Hx.
    destruct (append_at_lookup _ _ _ _ _ _ Hio Etlo Hj)
      as [(-> & l & Hl & ->) | (_ & Hj')]; clear Hj; [| rename Hj' into Hj].
    + apply elem_of_app in Hx as [Hx | Hx].
      * specialize (Hbo _ _ _ Hl Hx). lia.
      * apply list_elem_of_singleton in Hx. lia.
    + specialize (Hbo _ _ _ Hj Hx). lia.
  - intros j l' Hj H0 H255.
    destruct (append_at_lookup _ _ _ _ _ _ Hio Etlo Hj)
      as [(-> & _) | (_ & Hj')]; clear Hj; [| rename Hj' into Hj].
    + destruct (on_off_index v); lia.
    + by eapply Hoe.
  - destruct (append_at_ok (t_to_lightener_levels_on_off t) (on_off v) n Hio)
      as (tlo' & Etlo' & [_ Gtlo] & l & Hl & Hin).
    assert (tlo' = tlo) as -> by congruence.
    intros i w Hi Hw. apply lookup_app_Some in Hw as [Hw | [Hge Hw]].
    + destruct (Hob i w Hi Hw) as (l0 & Hl0 & Hin0).
      destruct (Gtlo _ _ Hl0) as (l1 & Hl1 & Hsub).
      exists l1. split; [done |]. by apply Hsub.
    + apply list_lookup_singleton_Some in Hw as [Hz ->].
      exists l. split; [done |]. replace (Z.of_nat i) with n by lia. done.
Qed.

(** One step of the second inner loop, with [x] the controller level it
    computes. *)
Lemma reverse_step_reverse_ok (pC pL C L : Z) (t t' : Tables) (i n : Z) :
  tables_ok t n → reverse_ok t n → 0 ≤ i ≤ 255 →
  0 ≤ interpolate pC C pL L i < n →
  reverse_step pC pL C L t i = Some t' →
  reverse_ok t' n.
Proof.
  intros [Hlen _ Htl Htlo _ _] [Hb Hnd Hbo Hoe Hob] Hi Hx E.
  unfold reverse_step in E. rewrite getitem_lookup in E by lia.
  destruct (t_to_lightener_levels t !! Z.to_nat i) as [known |] eqn:Hknown;
    [| done].
  simpl in E. case_decide as Hin.
  { injection E as <-. by split. }
  set (x := interpolate pC C pL L i) in *.
  assert (Hio : 0 ≤ on_off x < Z.of_nat (length (t_to_lightener_levels_on_off t)))
    by (destruct (on_off_cases x); lia).
  assert (Hiv : 0 ≤ i < Z.of_nat (length (t_to_lightener_levels t))) by lia.
  destruct (append_at (t_to_lightener_levels t) i x) as [tl |] eqn:Etl; [| done].
  simpl in E.
  destruct (append_at (t_to_lightener_levels_on_off t) (on_off x) x)
    as [tlo |] eqn:Etlo; [| done].
  simpl in E. injection E as <-. split; simpl.
  - intros j l' y Hj Hy.
    destruct (append_at_lookup _ _ _ _ _ _ Hiv Etl Hj)
      as [(-> & l & Hl & ->) | (_ & Hj')]; clear Hj; [| rename Hj' into Hj].
    + apply elem_of_app in Hy as [Hy | Hy].
      * by eapply Hb.
      * apply list_elem_of_singleton in Hy. by subst y.
    + by eapply Hb.
  - intros j l' Hj.
    destruct (append_at_lookup _ _ _ _ _ _ Hiv Etl Hj)
      as [(-> & l & Hl & ->) | (_ & Hj')]; clear Hj; [| rename Hj' into Hj].
    + assert (l = known) as -> by congruence.
      apply NoDup_app. split; [by eapply Hnd |]. split; [| apply NoDup_singleton].
      intros y Hy Hy'. apply list_elem_of_singleton in Hy'. by subst y.
    + by eapply Hnd.
  - intros j l' y Hj Hy.
    destruct (append_at_lookup _ _ _ _ _ _ Hio Etlo Hj)
      as [(-> & l & Hl & ->) | (_ & Hj')]; clear Hj; [| rename Hj' into Hj].
    + apply elem_of_app in Hy as [Hy | Hy].
      * by eapply Hbo.
      * apply list_elem_of_singleton in Hy. by subst y.
    + by eapply Hbo.
  - intros j l' Hj H0 H255.
    destruct (append_at_lookup _ _ _ _ _ _ Hio Etlo Hj)
      as [(-> & _) | (_ & Hj')]; clear Hj; [| rename Hj' into Hj].
    + destruct (on_off_index x); lia.
    + by eapply Hoe.
  - destruct (append_at_ok (t_to_lightener_levels_on_off t) (on_off x) x Hio)
      as (tlo' & Etlo' & [_ Gtlo] & _).
    assert (tlo' = tlo) as -> by congruence.
    intros k w Hk Hw. destruct (Hob k w Hk Hw) as (l0 & Hl0 & Hin0).
    destruct (Gtlo _ _ Hl0) as (l1 & Hl1 & Hsub).
    exists l1. split; [done |]. by apply Hsub.
Qed.

(** One calibration segment keeps the invariant of the reverse tables. *)
Lemma segment_step_reverse_ok (pC pL C L : Z) (t t' : Tables) (p' : Z * Z) :
  tables_ok t (pC + 1) → reverse_ok t (pC + 1) →
  0 ≤ pC < C → 0 ≤ pL ≤ 255 → 0 ≤ L ≤ 255 →
  segment_step (t, (pC, pL)) (C, L) = Some (t', p') →
  reverse_ok t' (C + 1).
Proof.
  intros Hok Hrev HC HpL HL E. unfold segment_step in E.
  (* the first inner loop *)
  destruct (for_each (forward_step pC pL C L) _ t) as [t1 |] eqn:E1; [| done].
  simpl in E.
  assert (H1 : tables_ok t1 C ∧ reverse_ok t1 C).
  { rewrite py_range_up in E1.
    pose proof (for_each_preserves (forward_step pC pL C L)
                  (λ k s, tables_ok s (pC + 1 + Z.of_nat k) ∧
                          reverse_ok s (pC + 1 + Z.of_nat k))
                  (seqZ (pC + 1) (C - (pC + 1))) t t1) as Hloop.
    rewrite length_seqZ in Hloop.
    replace (pC + 1 + Z.of_nat (Z.to_nat (C - (pC + 1)))) with C in Hloop
      by lia.
    apply Hloop; [| | exact E1].
    - by rewrite Z.add_0_r.
    - intros k x s1 s2 Hx [Hs Hr] Eb.
      apply lookup_seqZ in Hx as [-> Hlt].
      pose proof (interpolate_between pL L pC C (pC + 1 + Z.of_nat k)) as Hbt.
      destruct (push_ok s1 (pC + 1 + Z.of_nat k)
                  (interpolate pL L pC C (pC + 1 + Z.of_nat k)) Hs)
        as (tl & tlo & Etl & Etlo & _ & Hok'); [lia | lia |].
      unfold forward_step in Eb. rewrite Etl in Eb. simpl in Eb.
      rewrite Etlo in Eb. simpl in Eb. injection Eb as <-.
      replace (pC + 1 + Z.of_nat (S k)) with (pC + 1 + Z.of_nat k + 1) by lia.
      split; [done |]. apply push_reverse_ok; try done; lia. }
  destruct H1 as [Hok1 Hrev1].
  (* the configured point *)
  destruct (push_ok t1 C L Hok1) as (tl & tlo & Etl & Etlo & _ & Hok2);
    [lia | lia |].
  unfold point_step in E. rewrite Etl in E. simpl in E.
  rewrite Etlo in E. simpl in E.
  pose proof (push_reverse_ok t1 C L tl tlo Hok1 Hrev1 ltac:(lia) HL Etl Etlo)
    as Hrev2.
  set (t2 := {| t_levels := t_levels t1 ++ [L];
                t_to_lightener_levels := tl;
                t_levels_on_off := t_levels_on_off t1 ++ [on_off L];
                t_to_lightener_levels_on_off := tlo |}) in *.
  (* the second inner loop *)
  destruct (for_each (reverse_step pC pL C L) _ t2) as [t3 |] eqn:E3; [| done].
  simpl in E. injection E as <- _.
  set (xs := py_range pL L (if decide (pL < L) then 1 else -1)) in *.
  assert (Hxs : ∀ x, x ∈ xs → 0 ≤ x ≤ 255 ∧ pL ≠ L ∧
                             Z.min pL L ≤ x ≤ Z.max pL L).
  { intros x Hx. apply elem_of_py_range in Hx; [lia |]. case_decide; auto. }
  apply (for_each_preserves (reverse_step pC pL C L)
           (λ _ s, tables_ok s (C + 1) ∧ reverse_ok s (C + 1)) xs t2 t3);
    [done | | done].
  intros k x s1 s2 Hx [Hs Hr] Eb.
  destruct (Hxs x (list_elem_of_lookup_2 _ _ _ Hx)) as (Hx255 & Hne & Hmm).
  pose proof (interpolate_between_any pC C pL L x ltac:(lia) Hmm) as Hbt.
  split.
  - destruct (reverse_step_ok pC pL C L s1 x)
      as (s2' & Es & El & Eo & Hg & Ho & _); [apply Hs | apply Hs | done |].
    assert (s2' = s2) as -> by congruence.
    by eapply tables_ok_grows.
  - apply (reverse_step_reverse_ok pC pL C L s1 s2 x (C + 1) Hs Hr);
      [done | lia | exact Eb].
Qed.

Lemma fill_from_reverse_ok (items : list (Z * Z)) (t t' : Tables)
    (pC pL : Z) (p' : Z * Z) :
  tables_ok t (pC + 1) → reverse_ok t (pC + 1) →
  0 ≤ pC → 0 ≤ pL ≤ 255 → chain pC items →
  for_each segment_step items (t, (pC, pL)) = Some (t', p') →
  reverse_ok t' (p'.1 + 1).
Proof.
  revert t pC pL. induction items as [| [C L] rest IH]; intros t pC pL.
  - intros _ Hrev _ _ _ E. simpl in E. by injection E as <- <-.
  - intros Hok Hrev HpC HpL (HC & HL & Hch) E. cbn [for_each] in E.
    destruct (segment_step_ok pC pL C L t Hok ltac:(lia) HpL HL)
      as (t1 & E1 & Hok1 & _).
    rewrite E1 in E. simpl in E.
    eapply (IH t1 C L); [done | | lia | done | done | exact E].
    apply (segment_step_reverse_ok pC pL C L t t1 (C, L) Hok Hrev);
      [lia | done | done | exact E1].
Qed.

Lemma fill_levels_reverse_ok (items : list (Z * Z)) (t : Tables) :
  chain 0 items → fill_levels items = Some t →
  reverse_ok t ((default (0, 0) (last items)).1 + 1).
Proof.
  intros Hch E. unfold fill_levels in E.
  destruct (fill_from_ok items initial_tables 0 0 initial_tables_ok)
    as (t' & E' & _); [lia | lia | done |].
  rewrite E' in E. simpl in E. injection E as <-.
  apply (fill_from_reverse_ok items initial_tables t' 0 0 _
           initial_tables_ok initial_tables_reverse_ok); [lia | lia | done |].
  exact E'.
Qed.

(** ** Subscripts *)

Lemma getitem_None {A} (l : list A) (i : Z) :
  getitem l i = None ↔ i < - Z.of_nat (length l) ∨ Z.of_nat (length l) ≤ i.
Proof.
  unfold getitem, py_index. repeat case_decide; simpl.
  - split; [| lia]. intros Hn. apply lookup_ge_None in Hn. lia.
  - split; [| lia]. intros Hn. apply lookup_ge_None in Hn. lia.
  - split; [lia | done].
Qed.

Lemma getitem_negative {A} (l : list A) (i : Z) :
  - Z.of_nat (length l) ≤ i < 0 →
  getitem l i = getitem l (Z.of_nat (length l) + i).
Proof.
  intros Hi. unfold getitem, py_index.
  rewrite (decide_False (P := 0 ≤ i < _)) by lia.
  rewrite (decide_True (P := - _ ≤ i < 0)) by lia.
  by rewrite (decide_True (P := 0 ≤ _ + i < _)) by lia.
Qed.

Lemma translate_brightness_back_on_off hass self b :
  (type hass self).2 = Some TYPE_ONOFF →
  (translate_brightness_back hass self (Some b)).2
  = getitem (to_lightener_levels_on_off self) b.
Proof.
  intros Hty. unfold translate_brightness_back.
  pose proof (type_tables hass self) as [Ht _].
  destruct (type hass self) as [self' ty]. simpl in *.
  rewrite decide_True by done. simpl.
  by injection Ht as _ _ _ ->.
Qed.

(** ** Rising calibrations *)

Lemma segments_mono (items : list (Z * Z)) (prev : Z * Z) (lv : list Z) :
  segments_ok prev items lv → chain prev.1 items → ascending prev.2 items →
  lv !! Z.to_nat prev.1 = Some prev.2 → 0 ≤ prev.1 →
  ∀ i j a b,
    prev.1 ≤ i → i ≤ j → j ≤ (default prev (last items)).1 →
    lv !! Z.to_nat i = Some a → lv !! Z.to_nat j = Some b → a ≤ b.
Proof.
  revert prev. induction items as [| [C L] rest IH]; intros [pC pL]; simpl.
  - intros _ _ _ _ _ i j a b Hi Hij Hj Ha Hb.
    assert (i = j) as -> by lia. assert (a = b) by congruence. lia.
  - intros (HC & Hin & Hseg) (HpC & HL & Hch) (Hup & Hasc) Hprev H0
           i j a b Hi Hij Hj Ha Hb.
    assert (Hlast : default (pC, pL) (last ((C, L) :: rest))
                    = default (C, L) (last rest)).
    { rewrite last_cons. by destruct (last rest). }
    rewrite Hlast in Hj.
    assert (Hval : ∀ k, pC ≤ k ≤ C →
                        lv !! Z.to_nat k = Some (interpolate pL L pC C k)).
    { intros k Hk. destruct (decide (k = pC)) as [-> | HkpC].
      - by rewrite interpolate_start.
      - destruct (decide (k = C)) as [-> | HkC].
        + by rewrite interpolate_end by lia.
        + apply Hin. lia. }
    pose proof (IH (C, L) Hseg Hch Hasc HC ltac:(simpl; lia)) as IH'.
    simpl in IH'.
    destruct (Z.le_gt_cases j C) as [HjC | HjC].
    + rewrite Hval in Ha, Hb by lia. injection Ha as <-. injection Hb as <-.
      apply interpolate_mono; lia.
    + destruct (Z.le_gt_cases C i) as [HiC | HiC].
      * by apply (IH' i j a b).
      * rewrite Hval in Ha by lia. injection Ha as <-.
        pose proof (interpolate_between pL L pC C i ltac:(lia) ltac:(lia)).
        pose proof (IH' C j L b ltac:(lia) ltac:(lia) Hj HC Hb). lia.
Qed.

Section MoreCurveProperties.

Variable value_to_brightness : Z * Z → Z → Z.

Hypothesis value_to_brightness_range :
  ∀ p, 1 ≤ value_to_brightness (1, 100) p ≤ 255.

Local Abbreviation cfg := (config_levels value_to_brightness).
Local Abbreviation init := (__init__ value_to_brightness).

(** A light built from a calibration table carries the invariants of both
    the forward and the reverse tables. *)
Lemma init_reverse_ok (id : string) (brightness : list (Z * Z)) :
  calibration_table brightness →
  ∃ light, init id brightness = Some light ∧
           tables_ok (tables_of light) 256 ∧
           reverse_ok (tables_of light) 256 ∧
           segments_ok (0, 0) (sorted_items (cfg brightness)) (levels light) ∧
           well_formed light.
Proof.
  intros Hval.
  destruct (init_ok value_to_brightness value_to_brightness_range
              id brightness Hval) as (light & E & _ & Hok & _ & Hseg).
  exists light. split; [done |]. split; [done |].
  pose proof (init_tables value_to_brightness id brightness light E)
    as (Efill & _).
  pose proof (fill_levels_reverse_ok _ _
                (config_levels_chain value_to_brightness
                   value_to_brightness_range brightness Hval) Efill) as Hrev.
  rewrite (config_levels_last value_to_brightness value_to_brightness_range)
    in Hrev by done.
  split; [done |]. split; [done |].
  destruct Hok as [Hlen Hoo Htl Htlo _ _]. simpl in *.
  unfold well_formed. rewrite Hoo, length_fmap. lia.
Qed.

(** The subscript of [translate_brightness] follows Python's rules: a
    controller level outside [-256, 255] raises [IndexError], and a
    negative level from -256 on is read from the end of the table, so it
    gives the result of the level 256 above it. *)
Theorem translate_brightness_subscript
    (id : string) (brightness : list (Z * Z)) :
  calibration_table brightness →
  ∃ light, init id brightness = Some light ∧
    ∀ hass c,
      ((translate_brightness hass light c).2 = None ↔ c < -256 ∨ 255 < c) ∧
      (-256 ≤ c < 0 →
       (translate_brightness hass light c).2
       = (translate_brightness hass light (256 + c)).2).
Proof.
  intros Hval.
  destruct (init_reverse_ok id brightness Hval)
    as (light & E & _ & _ & _ & Hl & Hlo & _).
  exists light. split; [done |]. intros hass c.
  destruct (decide ((type hass light).2 = Some TYPE_ONOFF)) as [Hty | Hty].
  - rewrite !translate_brightness_on_off by done. split.
    + rewrite getitem_None, Hlo. lia.
    + intros Hc. rewrite getitem_negative by (rewrite Hlo; lia).
      by rewrite Hlo.
  - rewrite !translate_brightness_dimmable by done. split.
    + rewrite getitem_None, Hl. lia.
    + intros Hc. rewrite getitem_negative by (rewrite Hl; lia).
      by rewrite Hl.
Qed.

(** When the light levels of the calibration points never decrease in the
    order of their controller levels, the forward table of a dimmable light
    never decreases either: a higher controller level never gives a lower
    light level. *)
Theorem translate_brightness_monotone
    (id : string) (brightness : list (Z * Z)) :
  calibration_table brightness →
  ascending 0 (sorted_items (cfg brightness)) →
  ∃ light, init id brightness = Some light ∧
    ∀ hass i j vi vj,
      (type hass light).2 ≠ Some TYPE_ONOFF →
      0 ≤ i → i ≤ j → j ≤ 255 →
      (translate_brightness hass light i).2 = Some vi →
      (translate_brightness hass light j).2 = Some vj →
      vi ≤ vj.
Proof.
  intros Hval Hasc.
  destruct (init_ok value_to_brightness value_to_brightness_range
              id brightness Hval) as (light & E & _ & Hok & H0 & Hseg).
  exists light. split; [done |]. intros hass i j vi vj Hty Hi Hij Hj.
  rewrite !translate_brightness_dimmable by done.
  destruct Hok as [Hlen _ _ _ _ _]. simpl in Hlen.
  rewrite !getitem_lookup by lia. intros Hvi Hvj.
  apply (segments_mono _ (0, 0) (levels light) Hseg
           (config_levels_chain value_to_brightness value_to_brightness_range
              brightness Hval) Hasc H0 ltac:(simpl; lia) i j vi vj);
    [done | done | | done | done].
  rewrite (config_levels_last value_to_brightness value_to_brightness_range)
    by done. done.
Qed.

(** For a dimmable light, the candidate list that [translate_brightness_back]
    returns holds controller levels from 0 to 255 only and holds none of
    them twice. *)
Theorem translate_brightness_back_candidates
    (id : string) (brightness : list (Z * Z)) :
  calibration_table brightness →
  ∃ light, init id brightness = Some light ∧
    ∀ hass b candidates,
      (type hass light).2 ≠ Some TYPE_ONOFF →
      (translate_brightness_back hass light (Some b)).2 = Some candidates →
      NoDup candidates ∧ ∀ x, x ∈ candidates → 0 ≤ x ≤ 255.
Proof.
  intros Hval.
  destruct (init_reverse_ok id brightness Hval)
    as (light & E & _ & [Hb Hnd _ _ _] & _).
  exists light. split; [done |]. intros hass b candidates Hty.
  rewrite translate_brightness_back_dimmable by done.
  unfold getitem. destruct (py_index _ b) as [n |]; [| done]. simpl.
  intros Hn. split; [by eapply Hnd |].
  intros x Hx. specialize (Hb n candidates x Hn Hx). lia.
Qed.

(** For an on/off light, [translate_brightness_back] has candidates at the
    light levels 0 and 255 only: every light level from 1 to 254 gives the
    empty list, and every candidate is a controller level from 0 to 255. *)
Theorem translate_brightness_back_on_off_sparse
    (id : string) (brightness : list (Z * Z)) :
  calibration_table brightness →
  ∃ light, init id brightness = Some light ∧
    ∀ hass, (type hass light).2 = Some TYPE_ONOFF →
      (∀ b, 1 ≤ b ≤ 254 →
            (translate_brightness_back hass light (Some b)).2 = Some []) ∧
      (∀ b candidates x,
         (translate_brightness_back hass light (Some b)).2 = Some candidates →
         x ∈ candidates → 0 ≤ x ≤ 255).
Proof.
  intros Hval.
  destruct (init_reverse_ok id brightness Hval)
    as (light & E & _ & [_ _ Hbo Hoe _] & _ & _ & _ & _ & Hlen).
  exists light. split; [done |]. intros hass Hty. split.
  - intros b Hb. rewrite translate_brightness_back_on_off by done.
    rewrite getitem_lookup by lia.
    destruct (lookup_lt_is_Some_2 (to_lightener_levels_on_off light) (Z.to_nat b))
      as [l Hl]; [lia |].
    rewrite Hl. f_equal. apply (Hoe _ _ Hl); lia.
  - intros b candidates x.
    rewrite translate_brightness_back_on_off by done.
    unfold getitem. destruct (py_index _ b) as [n |]; [| done]. simpl.
    intros Hn Hx. specialize (Hbo n candidates x Hn Hx). lia.
Qed.

(** For an on/off light too, every controller level from 1 to 255 is among
    the candidates of the light level it translates to. *)
Theorem on_off_round_trip (id : string) (brightness : list (Z * Z)) :
  calibration_table brightness →
  ∃ light, init id brightness = Some light ∧
    ∀ hass c, (type hass light).2 = Some TYPE_ONOFF → 1 ≤ c ≤ 255 →
      ∃ v candidates,
        (translate_brightness hass light c).2 = Some v ∧
        (translate_brightness_back hass light (Some v)).2 = Some candidates ∧
        c ∈ candidates.
Proof.
  intros Hval.
  destruct (init_reverse_ok id brightness Hval)
    as (light & E & [Hlen Hoo _ _ _ _] & [_ _ _ _ Hob] & _ & _ & Hlo & _ & Hlto).
  exists light. split; [done |]. intros hass c Hty Hc.
  simpl in Hlen, Hoo, Hob.
  destruct (lookup_lt_is_Some_2 (levels light) (Z.to_nat c)) as [w Hw]; [lia |].
  destruct (Hob (Z.to_nat c) w ltac:(lia) Hw) as (l & Hl & Hin).
  exists (on_off w), l.
  rewrite translate_brightness_on_off, translate_brightness_back_on_off by done.
  rewrite !getitem_lookup by (destruct (on_off_cases w); lia).
  rewrite Hoo, list_lookup_fmap, Hw, Hl.
  split; [done |]. split; [done |]. by rewrite Z2Nat.id in Hin by lia.
Qed.

(** Without any calibration entry the curve is the identity: a dimmable
    light is sent the controller level itself, an on/off light is sent 255
    for every level but 0, and the only candidate for a dimmable light seen
    at brightness [c] is [c]. *)
Theorem default_calibration_is_identity (id : string) :
  ∃ light, init id [] = Some light ∧
    ∀ hass c, 0 ≤ c ≤ 255 →
      ((type hass light).2 ≠ Some TYPE_ONOFF →
       (translate_brightness hass light c).2 = Some c ∧
       (translate_brightness_back hass light (Some c)).2 = Some [c]) ∧
      ((type hass light).2 = Some TYPE_ONOFF →
       (translate_brightness hass light c).2 = Some (on_off c)).
Proof.
  assert (E : ∃ on_off_candidates,
             init id []
             = Some {| entity_id := id;
                       _type := None;
                       levels := seqZ 0 256;
                       to_lightener_levels := (λ c, [c]) <$> seqZ 0 256;
                       levels_on_off := on_off <$> seqZ 0 256;
                       to_lightener_levels_on_off := on_off_candidates |}).
  { vm_compute. eexists. reflexivity. }
  destruct E as [on_off_candidates E].
  eexists. split; [exact E |]. intros hass c Hc. split.
  - intros Hty.
    rewrite translate_brightness_dimmable, translate_brightness_back_dimmable
      by done.
    cbn [levels to_lightener_levels].
    rewrite !getitem_lookup by (rewrite ?length_fmap, length_seqZ; lia).
    rewrite list_lookup_fmap, lookup_seqZ_lt by lia. simpl.
    split; f_equal; [lia | f_equal; lia].
  - intros Hty. rewrite translate_brightness_on_off by done.
    cbn [levels_on_off].
    rewrite getitem_lookup by (rewrite length_fmap, length_seqZ; lia).
    rewrite list_lookup_fmap, lookup_seqZ_lt by lia. simpl.
    do 2 f_equal. lia.
Qed.

End MoreCurveProperties.

(** * Further properties of the light type *)

(** A light without a cached type is classified by the state it has at
    that moment: on/off exactly when the supported color modes of the state
    are the single mode [onoff], dimmable in every other case.  Without a
    state the light stays unclassified and unchanged. *)
Theorem type_classification (hass : Hass) (self : LightenerControlledLight) :
  _type self = None →
  match hass (entity_id self) with
  | Some st =>
      (type hass self).2
      = Some (if decide (attr_supported_color_modes st = Some [ONOFF])
              then TYPE_ONOFF else TYPE_DIMMABLE)
  | None => type hass self = (self, None)
  end.
Proof.
  intros Hty. unfold type. rewrite Hty.
  destruct (hass (entity_id self)) as [st |]; [| done]. simpl.
  destruct (attr_supported_color_modes st) as [modes |]; [| done].
  f_equal. destruct modes as [| m [| m' modes]].
  - by rewrite decide_False.
  - destruct (decide (m = ONOFF)) as [-> | Hm].
    + rewrite decide_True by done. reflexivity.
    + rewrite decide_False by congruence.
      rewrite (bool_decide_eq_false_2 (ONOFF ∈ [m])); [by rewrite andb_false_r |].
      intros Hin. apply list_elem_of_singleton in Hin. congruence.
  - rewrite decide_False by done.
    rewrite (bool_decide_eq_false_2 (length (m :: m' :: modes) = 1%nat));
      [by rewrite andb_false_r | done].
Qed.

(** Once a type has been found it is final: whatever the state machine
    holds later, the property returns the same type and leaves the light as
    it is. *)
Theorem type_is_final (hass hass' : Hass) (self : LightenerControlledLight)
    (ty : LightType) :
  (type hass self).2 = Some ty →
  type hass' (type hass self).1 = ((type hass self).1, Some ty).
Proof.
  unfold type. destruct (_type self) as [ty0 |] eqn:E; simpl.
  - intros [= <-]. by rewrite E.
  - destruct (hass (entity_id self)) as [st |]; simpl; [| done].
    by intros [= <-].
Qed.

Lemma type_well_formed (hass : Hass) (self : LightenerControlledLight) :
  well_formed self → well_formed (type hass self).1.
Proof.
  intros Hwf. pose proof (type_tables hass self) as [Ht _].
  unfold well_formed in *.
  by injection Ht as -> -> -> ->.
Qed.

(** * Further properties of the reconciliation pass *)

Lemma elem_of_common (y : option Z) (l : list Z) (ls : list (list Z)) :
  y ∈ intersection (set_of l) (set_of <$> ls) ↔
  ∃ x, y = Some x ∧ common_candidate (l :: ls) x.
Proof.
  rewrite elem_of_intersection_all. split.
  - intros [Hl Hls]. apply elem_of_set_of in Hl as (x & -> & Hx).
    exists x. split; [done |]. intros l' Hl'.
    apply elem_of_cons in Hl' as [-> | Hl']; [done |].
    pose proof (Hls (set_of l') (list_elem_of_fmap_2 _ _ _ Hl')) as Hin.
    apply elem_of_set_of in Hin as (x' & [= <-] & Hin). done.
  - intros (x & -> & Hx). split.
    + apply elem_of_set_of. exists x. split; [done |].
      apply Hx, list_elem_of_here.
    + intros o Ho. apply list_elem_of_fmap in Ho as (l' & -> & Hl').
      apply elem_of_set_of. exists x. split; [done |].
      by apply Hx, list_elem_of_further.
Qed.

Lemma fix_color_modes_brightness (s : LightenerLight) :
  _attr_color_mode (fix_color_modes s) ≠ Some ONOFF ∧
  ∃ modes, _attr_supported_color_modes (fix_color_modes s) = Some modes ∧
           modes ≠ [] ∧ (ONOFF ∉ modes) ∧
           ((∀ m, m ∈ default [] (_attr_supported_color_modes s) → m = ONOFF) →
            modes = [BRIGHTNESS]).
Proof.
  unfold fix_color_modes. simpl. split; [by case_decide |].
  set (kept := match _attr_supported_color_modes s with
               | Some (m :: ms) => filter (λ x, x ≠ ONOFF) (m :: ms)
               | _ => []
               end).
  assert (Hkept : ONOFF ∉ kept).
  { unfold kept. destruct (_attr_supported_color_modes s) as [[| m ms] |];
      try apply not_elem_of_nil.
    intros Hin. apply list_elem_of_filter in Hin as [Hne _]. done. }
  assert (Honly : (∀ m, m ∈ default [] (_attr_supported_color_modes s) →
                        m = ONOFF) → kept = []).
  { intros Hall. unfold kept.
    destruct (_attr_supported_color_modes s) as [[| m ms] |]; try done.
    simpl in Hall.
    destruct (filter (λ x, x ≠ ONOFF) (m :: ms)) as [| y ys] eqn:Ef; [done |].
    assert (Hy : y ∈ filter (λ x, x ≠ ONOFF) (m :: ms))
      by (rewrite Ef; apply list_elem_of_here).
    apply list_elem_of_filter in Hy as [Hne Hy]. by specialize (Hall y Hy). }
  eexists. split; [done |]. case_decide as Hlen.
  - split; [done |]. split; [| done].
    intros Hin. apply list_elem_of_singleton in Hin. done.
  - split; [by destruct kept |]. split; [done |].
    intros Hall. rewrite (Honly Hall) in Hlen. done.
Qed.

(** Lights without a state object take no part in the vote: the voting loop
    gives the same candidate lists, and leaves the lights in the same
    state, as the loop over only those entity ids that have a state. *)
Theorem gather_levels_skips_stateless (hass : Hass) (entity_ids : list string)
    (entities : list LightenerControlledLight) (levels : list (list Z)) :
  gather_levels hass entity_ids entities levels
  = gather_levels hass (filter (λ id, is_Some (hass id)) entity_ids)
                  entities levels.
Proof.
  revert entities levels.
  induction entity_ids as [| id ids IH]; intros entities levels; [done |].
  destruct (hass id) as [st |] eqn:E.
  - rewrite filter_cons_True by (by rewrite E). simpl. rewrite E.
    destruct (vote_state hass st entities levels) as [es [lv |]]; [| done].
    apply IH.
  - rewrite filter_cons_False by (rewrite E; by intros [? ?]).
    simpl. rewrite E. apply IH.
Qed.

Lemma translate_brightness_back_total (hass : Hass)
    (self : LightenerControlledLight) (b : Z) :
  well_formed self → 0 ≤ b ≤ 255 →
  ∃ candidates,
    (translate_brightness_back hass self (Some b)).2 = Some candidates ∧
    well_formed (translate_brightness_back hass self (Some b)).1 ∧
    entity_id (translate_brightness_back hass self (Some b)).1 = entity_id self.
Proof.
  intros Hwf Hb. unfold translate_brightness_back.
  pose proof (type_well_formed hass self Hwf) as Hwf'.
  pose proof (type_tables hass self) as [_ Hid].
  destruct (type hass self) as [self' ty]. simpl in *.
  pose proof Hwf' as (_ & _ & Hl & Hlo).
  case_decide; simpl; rewrite getitem_lookup by lia.
  - destruct (lookup_lt_is_Some_2 (to_lightener_levels_on_off self') (Z.to_nat b))
      as [l Hl']; [lia |].
    exists l. rewrite Hl'. auto.
  - destruct (lookup_lt_is_Some_2 (to_lightener_levels self') (Z.to_nat b))
      as [l Hl']; [lia |].
    exists l. rewrite Hl'. auto.
Qed.

Lemma vote_state_total (hass : Hass) (st : State)
    (entities : list LightenerControlledLight) (levels : list (list Z)) :
  Forall well_formed entities →
  (∀ b, observed_brightness st = Some b → 0 ≤ b ≤ 255) →
  ∃ entities' levels',
    vote_state hass st entities levels = (entities', Some levels') ∧
    Forall well_formed entities' ∧
    entity_id <$> entities' = entity_id <$> entities.
Proof.
  intros Hwf Hst. revert levels.
  induction Hwf as [| entity rest Hentity Hrest IH]; intros levels.
  - by exists [], levels.
  - cbn [vote_state]. case_decide as Hid.
    + destruct (observed_brightness st) as [b |] eqn:Eb.
      * destruct (translate_brightness_back_total hass entity b Hentity
                    (Hst b eq_refl)) as (candidates & Ec & Hwf' & Hid').
        destruct (translate_brightness_back hass entity (Some b))
          as [entity' r]. simpl in Ec, Hwf', Hid'. subst r.
        destruct (IH (levels ++ [candidates])) as (es & lv & E & Hes & Hids).
        rewrite E. exists (entity' :: es), lv.
        split; [done |]. split; [by constructor |].
        rewrite !fmap_cons. by rewrite Hid', Hids.
      * destruct (IH (levels ++ [[]])) as (es & lv & E & Hes & Hids).
        rewrite E. exists (entity :: es), lv.
        split; [done |]. split; [by constructor |].
        rewrite !fmap_cons. by rewrite Hids.
    + destruct (IH levels) as (es & lv & E & Hes & Hids).
      rewrite E. exists (entity :: es), lv.
      split; [done |]. split; [by constructor |].
      rewrite !fmap_cons. by rewrite Hids.
Qed.

(** The voting loop never raises when every light has its full tables and
    every brightness read from a state is in [0,255]. *)
Lemma gather_levels_total (hass : Hass) (entity_ids : list string)
    (entities : list LightenerControlledLight) (levels : list (list Z)) :
  Forall well_formed entities →
  (∀ id st b, hass id = Some st → observed_brightness st = Some b →
              0 ≤ b ≤ 255) →
  ∃ entities' levels',
    gather_levels hass entity_ids entities levels = (entities', Some levels') ∧
    Forall well_formed entities' ∧
    entity_id <$> entities' = entity_id <$> entities.
Proof.
  intros Hwf Hst. revert entities levels Hwf.
  induction entity_ids as [| id ids IH]; intros entities levels Hwf.
  - by exists entities, levels.
  - simpl. destruct (hass id) as [st |] eqn:E; [| by apply IH].
    destruct (vote_state_total hass st entities levels Hwf
                (λ b, Hst id st b E)) as (es & lv & Ev & Hes & Hids).
    rewrite Ev. destruct (IH es lv Hes) as (es' & lv' & E' & Hes' & Hids').
    exists es', lv'. split; [done |]. split; [done |]. congruence.
Qed.

Section MoreGroupProperties.

Variable group_state : Hass → list string → GroupAttrs.
Variable set_pop : pyset → option Z.

Hypothesis set_pop_member : ∀ s : pyset, s ≠ ∅ → set_pop s ∈ s.

Local Abbreviation update := (async_update_group_state group_state set_pop).

Lemma update_when_off_holds (hass : Hass) (self : LightenerLight) :
  _is_frozen self = false →
  g_is_on (group_state hass (_entity_ids self)) ≠ Some true →
  ∃ self', update hass self = (self', Returned) ∧
           _attr_brightness self' = None ∧
           _entities self' = _entities self.
Proof.
  intros Hf Hoff. unfold async_update_group_state. rewrite Hf.
  set (self1 := set_group_attrs (group_state hass (_entity_ids self)) self).
  assert (Hoff1 : is_on self1 = false).
  { unfold is_on, self1. simpl. by apply bool_decide_eq_false_2. }
  rewrite Hoff1. eexists. split; [done |]. simpl. by rewrite Hoff1.
Qed.

(** When the base class does not find the controller on, the pass leaves
    the displayed brightness unset, whatever the preferred brightness is,
    and consults no controlled light. *)
Theorem update_when_off (hass : Hass) (self : LightenerLight) :
  _is_frozen self = false →
  g_is_on (group_state hass (_entity_ids self)) ≠ Some true →
  ∃ self', update hass self = (self', Returned) ∧
           _attr_brightness self' = None ∧
           _entities self' = _entities self.
Proof.
  intros Hf Hoff. unfold async_update_group_state. rewrite Hf.
  set (self1 := set_group_attrs (group_state hass (_entity_ids self)) self).
  assert (Hoff1 : is_on self1 = false).
  { unfold is_on, self1. simpl. by apply bool_decide_eq_false_2. }
  rewrite Hoff1. eexists. split; [done |]. simpl. by rewrite Hoff1.
Qed.

Lemma update_keeps_intent_holds (hass : Hass) (self : LightenerLight) :
  _prefered_brightness (update hass self).1 = _prefered_brightness self ∧
  _is_frozen (update hass self).1 = _is_frozen self ∧
  _entity_ids (update hass self).1 = _entity_ids self ∧
  published (update hass self).1 = published self.
Proof.
  unfold async_update_group_state.
  destruct (_is_frozen self) eqn:Hf; [by rewrite ?Hf |].
  destruct (is_on _); [| by rewrite ?Hf].
  destruct (gather_levels _ _ _ _) as [entities [levels |]]; simpl;
    by rewrite ?Hf.
Qed.

(** A reconciliation pass changes neither the preferred brightness, nor the
    frozen flag, nor the list of entity ids, and it writes no state, however
    it ends. *)
Theorem update_keeps_intent (hass : Hass) (self : LightenerLight) :
  _prefered_brightness (update hass self).1 = _prefered_brightness self ∧
  _is_frozen (update hass self).1 = _is_frozen self ∧
  _entity_ids (update hass self).1 = _entity_ids self ∧
  published (update hass self).1 = published self.
Proof.
  unfold async_update_group_state.
  destruct (_is_frozen self) eqn:Hf; [by rewrite ?Hf |].
  destruct (is_on _); [| by rewrite ?Hf].
  destruct (gather_levels _ _ _ _) as [entities [levels |]]; simpl;
    by rewrite ?Hf.
Qed.

(** After every pass on an unfrozen controller the Lightener reports
    brightness support: its color mode is not [onoff], its supported color
    modes are a non-empty collection without [onoff], and they are exactly
    [brightness] when the base class found no mode but [onoff]. *)
Theorem update_reports_brightness_support (hass : Hass)
    (self self' : LightenerLight) :
  _is_frozen self = false →
  update hass self = (self', Returned) →
  _attr_color_mode self' ≠ Some ONOFF ∧
  ∃ modes, _attr_supported_color_modes self' = Some modes ∧
           modes ≠ [] ∧ (ONOFF ∉ modes) ∧
           ((∀ m, m ∈ default [] (g_supported_color_modes
                                    (group_state hass (_entity_ids self))) →
                  m = ONOFF) →
            modes = [BRIGHTNESS]).
Proof.
  intros Hf. unfold async_update_group_state. rewrite Hf.
  destruct (is_on _).
  - destruct (gather_levels _ _ _ _) as [entities [levels |]]; simpl;
      [| done].
    intros [= <-]. apply fix_color_modes_brightness.
  - intros [= <-]. apply fix_color_modes_brightness.
Qed.

(** The three ways a pass on a controller that is on can end. *)
Lemma update_on_cases (hass : Hass) (self : LightenerLight)
    (entities : list LightenerControlledLight) (levels : list (list Z)) :
  _is_frozen self = false →
  g_is_on (group_state hass (_entity_ids self)) = Some true →
  gather_levels hass (_entity_ids self) (_entities self) [] =
    (entities, Some levels) →
  ∃ self', update hass self = (self', Returned) ∧
    ((levels = [] ∧ _attr_brightness self' = _prefered_brightness self) ∨
     (levels ≠ [] ∧ ∃ b, _attr_brightness self' = Some b ∧
                         common_candidate levels b) ∨
     ((¬ ∃ x, common_candidate levels x) ∧
      _attr_brightness self' = _prefered_brightness self)).
Proof.
  intros Hf Hon Hg.
  destruct (update_on group_state set_pop hass self entities levels Hf Hon Hg)
    as (self' & E & Hb).
  exists self'. split; [done |]. rewrite Hb. clear Hb E.
  destruct levels as [| l ls]; [by left |].
  unfold common_level_of. case_decide as Hsize.
  - right. left. split; [done |].
    apply size_pos_elem_of in Hsize as [y Hy].
    apply elem_of_intersection_all in Hy as [Hy Hall].
    apply elem_of_singleton in Hy as ->.
    pose proof (Hall (set_of l)
                  ltac:(rewrite fmap_cons; apply list_elem_of_here)) as Hl.
    apply elem_of_set_of in Hl as (p & Hp & _).
    assert (Hne : ({[_prefered_brightness self]} : pyset) ≠ ∅) by set_solver.
    rewrite decide_True by done.
    pose proof (set_pop_member _ Hne) as Hpop.
    apply elem_of_singleton in Hpop. exists p. split; [congruence |].
    intros l' Hl'.
    pose proof (Hall (set_of l') (list_elem_of_fmap_2 _ _ _ Hl')) as Hin.
    apply elem_of_set_of in Hin as (p' & Hp' & Hin). congruence.
  - case_decide as Hne.
    + right. left. split; [done |].
      pose proof (set_pop_member _ Hne) as Hpop.
      apply elem_of_common in Hpop as (b & Hpop & Hb). by exists b.
    + right. right. split; [| done].
      intros [x Hx].
      assert (Hin : Some x ∈ intersection (set_of l) (set_of <$> ls))
        by (apply elem_of_common; by exists x).
      rewrite Hne in Hin. by apply not_elem_of_empty in Hin.
Qed.

(** On a controller that is on, the displayed brightness after a pass is
    never a guess: it is the preferred brightness, or it is a level that
    every voting light accepts. *)
Theorem displayed_brightness_is_voted (hass : Hass) (self : LightenerLight)
    (entities : list LightenerControlledLight) (levels : list (list Z)) :
  _is_frozen self = false →
  g_is_on (group_state hass (_entity_ids self)) = Some true →
  gather_levels hass (_entity_ids self) (_entities self) [] =
    (entities, Some levels) →
  ∃ self', update hass self = (self', Returned) ∧
    (_attr_brightness self' = _prefered_brightness self ∨
     ∃ b, _attr_brightness self' = Some b ∧ common_candidate levels b).
Proof.
  intros Hf Hon Hg.
  destruct (update_on_cases hass self entities levels Hf Hon Hg)
    as (self' & E & [[_ H] | [[_ H] | [_ H]]]);
    exists self'; (split; [done |]); auto.
Qed.

(** When exactly one level is accepted by every voting light, that level is
    displayed, whatever the preferred brightness is. *)
Theorem single_common_level_is_displayed (hass : Hass) (self : LightenerLight)
    (entities : list LightenerControlledLight) (levels : list (list Z))
    (x : Z) :
  _is_frozen self = false →
  g_is_on (group_state hass (_entity_ids self)) = Some true →
  gather_levels hass (_entity_ids self) (_entities self) [] =
    (entities, Some levels) →
  levels ≠ [] →
  common_candidate levels x →
  (∀ y, common_candidate levels y → y = x) →
  ∃ self', update hass self = (self', Returned) ∧
           _attr_brightness self' = Some x.
Proof.
  intros Hf Hon Hg Hne Hx Huniq.
  destruct (update_on_cases hass self entities levels Hf Hon Hg)
    as (self' & E & [[H _] | [[_ (b & Hb & Hc)] | [H _]]]);
    exists self'; (split; [done |]).
  - done.
  - by rewrite Hb, (Huniq b Hc).
  - exfalso. apply H. by exists x.
Qed.

Lemma update_never_raises_holds (hass : Hass) (self : LightenerLight) :
  Forall well_formed (_entities self) →
  (∀ id st b, hass id = Some st → observed_brightness st = Some b →
              0 ≤ b ≤ 255) →
  (update hass self).2 = Returned ∧
  Forall well_formed (_entities (update hass self).1) ∧
  entity_id <$> _entities (update hass self).1 = entity_id <$> _entities self.
Proof.
  intros Hwf Hst. unfold async_update_group_state.
  destruct (_is_frozen self); [done |].
  destruct (is_on _); [| done].
  destruct (gather_levels_total hass (_entity_ids self) (_entities self) []
              Hwf Hst) as (es & lv & E & Hes & Hids).
  cbn [_entity_ids _entities set_group_attrs]. rewrite E. done.
Qed.

(** A pass never raises when every controlled light has its full tables
    and every brightness read from a state is in [0,255]. *)
Theorem update_never_raises (hass : Hass) (self : LightenerLight) :
  Forall well_formed (_entities self) →
  (∀ id st b, hass id = Some st → observed_brightness st = Some b →
              0 ≤ b ≤ 255) →
  (update hass self).2 = Returned ∧
  Forall well_formed (_entities (update hass self).1) ∧
  entity_id <$> _entities (update hass self).1 = entity_id <$> _entities self.
Proof.
  intros Hwf Hst. unfold async_update_group_state.
  destruct (_is_frozen self); [done |].
  destruct (is_on _); [| done].
  destruct (gather_levels_total hass (_entity_ids self) (_entities self) []
              Hwf Hst) as (es & lv & E & Hes & Hids).
  cbn [_entity_ids _entities set_group_attrs]. rewrite E. done.
Qed.

End MoreGroupProperties.


(** * Further properties of the commands *)

Lemma entity_command_payload_holds (data : gmap string Value)
    (brightness entity_brightness : option Z) (id : string) :
  service_data (entity_command data brightness entity_brightness id)
    !! ATTR_ENTITY_ID = Some (VStr id) ∧
  (entity_brightness = Some 0 →
   service (entity_command data brightness entity_brightness id)
     = SERVICE_TURN_OFF ∧
   ∀ k, k ≠ ATTR_ENTITY_ID →
        service_data (entity_command data brightness entity_brightness id) !! k
        = if decide (k = ATTR_TRANSITION) then data !! ATTR_TRANSITION
          else None) ∧
  (entity_brightness ≠ Some 0 →
   service (entity_command data brightness entity_brightness id)
     = SERVICE_TURN_ON ∧
   ∀ b, brightness ≠ None → entity_brightness = Some b →
        service_data (entity_command data brightness entity_brightness id)
          !! ATTR_BRIGHTNESS = Some (VInt b)).
Proof.
  unfold entity_command. split; [| split].
  - case_decide; apply lookup_insert_eq.
  - intros ->. rewrite decide_True by done. simpl. split; [done |].
    intros k Hk. rewrite lookup_insert_ne by done.
    destruct (data !! ATTR_TRANSITION) as [v |] eqn:Ed; case_decide as Hkt.
    + subst k. apply lookup_singleton_eq.
    + by apply lookup_singleton_ne.
    + apply lookup_empty.
    + apply lookup_empty.
  - intros Hne. rewrite decide_False by done. simpl. split; [done |].
    intros b Hb ->. rewrite lookup_insert_ne by done.
    destruct brightness; [| done]. apply lookup_insert_eq.
Qed.

(** A light with a translated brightness of 0 is sent [turn_off], addressed
    to it, with the transition when one was given and with nothing else: no
    brightness and no other forwarded attribute.  Every other light is sent
    [turn_on], addressed to it, with its translated brightness. *)
Theorem entity_command_payload (data : gmap string Value)
    (brightness entity_brightness : option Z) (id : string) :
  service_data (entity_command data brightness entity_brightness id)
    !! ATTR_ENTITY_ID = Some (VStr id) ∧
  (entity_brightness = Some 0 →
   service (entity_command data brightness entity_brightness id)
     = SERVICE_TURN_OFF ∧
   ∀ k, k ≠ ATTR_ENTITY_ID →
        service_data (entity_command data brightness entity_brightness id) !! k
        = if decide (k = ATTR_TRANSITION) then data !! ATTR_TRANSITION
          else None) ∧
  (entity_brightness ≠ Some 0 →
   service (entity_command data brightness entity_brightness id)
     = SERVICE_TURN_ON ∧
   ∀ b, brightness ≠ None → entity_brightness = Some b →
        service_data (entity_command data brightness entity_brightness id)
          !! ATTR_BRIGHTNESS = Some (VInt b)).
Proof.
  unfold entity_command. split; [| split].
  - case_decide; apply lookup_insert_eq.
  - intros ->. rewrite decide_True by done. simpl. split; [done |].
    intros k Hk. rewrite lookup_insert_ne by done.
    destruct (data !! ATTR_TRANSITION) as [v |] eqn:Ed; case_decide as Hkt.
    + subst k. apply lookup_singleton_eq.
    + by apply lookup_singleton_ne.
    + apply lookup_empty.
    + apply lookup_empty.
  - intros Hne. rewrite decide_False by done. simpl. split; [done |].
    intros b Hb ->. rewrite lookup_insert_ne by done.
    destruct brightness; [| done]. apply lookup_insert_eq.
Qed.

Lemma translate_brightness_total (hass : Hass)
    (self : LightenerControlledLight) (b : Z) :
  well_formed self → 0 ≤ b ≤ 255 →
  ∃ v, (translate_brightness hass self b).2 = Some v.
Proof.
  intros Hwf Hb. unfold translate_brightness.
  pose proof (type_well_formed hass self Hwf) as (Hl & Hlo & _).
  destruct (type hass self) as [self' ty]. simpl in *.
  case_decide; simpl; rewrite getitem_lookup by lia;
    apply lookup_lt_is_Some_2; lia.
Qed.

Lemma translate_brightness_entity (hass : Hass)
    (self : LightenerControlledLight) (b : Z) :
  entity_id (translate_brightness hass self b).1 = entity_id self ∧
  (well_formed self → well_formed (translate_brightness hass self b).1).
Proof.
  rewrite translate_brightness_self. split.
  - apply type_tables.
  - apply type_well_formed.
Qed.

Lemma resolved_translate (hass : Hass) (e e' : LightenerControlledLight)
    (b : Z) :
  resolved hass e e' →
  (translate_brightness hass e' b).2 = (translate_brightness hass e b).2 ∧
  entity_id e' = entity_id e.
Proof.
  intros [-> | ->]; [done |]. split; [| apply type_tables].
  unfold translate_brightness at 1. rewrite type_cached.
  unfold translate_brightness. by destruct (type hass e).
Qed.

Lemma resolved_type (hass : Hass) (e e' : LightenerControlledLight) :
  resolved hass e e' → resolved hass e (type hass e').1.
Proof.
  intros [-> | ->]; [by right |]. right. by rewrite type_cached.
Qed.

Lemma resolved_well_formed (hass : Hass) (e e' : LightenerControlledLight) :
  resolved hass e e' → well_formed e → well_formed e'.
Proof. intros [-> | ->]; [done |]. apply type_well_formed. Qed.

Lemma commands_for_resolved (data : gmap string Value) (brightness : option Z)
    (hass : Hass) (es es' : list LightenerControlledLight) :
  Forall2 (resolved hass) es es' →
  commands_for data brightness hass es' = commands_for data brightness hass es.
Proof.
  intros H. unfold commands_for.
  induction H as [| e e' es es' He Hes IH]; [done |].
  rewrite !fmap_cons, IH. f_equal.
  destruct brightness as [b |]; simpl.
  - destruct (resolved_translate hass e e' b He) as [-> ->]. done.
  - destruct (resolved_translate hass e e' 0 He) as [_ ->]. done.
Qed.

Lemma vote_state_resolved (hass : Hass) (st : State)
    (es0 es : list LightenerControlledLight) (levels : list (list Z)) :
  Forall2 (resolved hass) es0 es →
  Forall2 (resolved hass) es0 (vote_state hass st es levels).1.
Proof.
  intros H. revert levels.
  induction H as [| e0 e es0 es He Hes IH]; intros levels; [constructor |].
  cbn [vote_state]. case_decide as Hid.
  - assert (Hr : ∀ ob, resolved hass e0
                         (match ob with
                          | Some _ => translate_brightness_back hass e ob
                          | None => (e, Some [])
                          end).1).
    { intros [b |]; [| done]. unfold translate_brightness_back.
      pose proof (resolved_type hass e0 e He) as Hty.
      destruct (type hass e) as [e1 ty]. by case_decide. }
    specialize (Hr (observed_brightness st)).
    destruct (match observed_brightness st with
              | Some _ => translate_brightness_back hass e (observed_brightness st)
              | None => (e, Some [])
              end) as [e' [candidates |]]; simpl in Hr.
    + specialize (IH (levels ++ [candidates])).
      destruct (vote_state hass st es (levels ++ [candidates])) as [es' out].
      by constructor.
    + by constructor.
  - specialize (IH levels).
    destruct (vote_state hass st es levels) as [es' out]. by constructor.
Qed.

Lemma gather_levels_resolved (hass : Hass) (entity_ids : list string)
    (es0 es : list LightenerControlledLight) (levels : list (list Z)) :
  Forall2 (resolved hass) es0 es →
  Forall2 (resolved hass) es0 (gather_levels hass entity_ids es levels).1.
Proof.
  revert es levels. induction entity_ids as [| id ids IH]; intros es levels H;
    [done |].
  simpl. destruct (hass id) as [st |]; [| by apply IH].
  pose proof (vote_state_resolved hass st es0 es levels H) as Hv.
  destruct (vote_state hass st es levels) as [es' [levels' |]]; [| done].
  by apply IH.
Qed.

Section MoreCommandProperties.

Variable group_state : Hass → list string → GroupAttrs.
Variable set_pop : pyset → option Z.
Variable FORWARDED_ATTRIBUTES : list string.
Variable group_turn_off : gmap string Value → list string → list Command.

Local Abbreviation update := (async_update_group_state group_state set_pop).
Local Abbreviation await := (await_call group_state set_pop).
Local Abbreviation fan_out := (dispatch group_state set_pop).
Local Abbreviation turn_on :=
  (async_turn_on group_state set_pop FORWARDED_ATTRIBUTES).
Local Abbreviation turn_off :=
  (async_turn_off group_state set_pop group_turn_off).

(** An awaited call in a schedule where every call completes. *)
Lemma await_call_complete (c : Command) (r : Run) :
  all_complete (run_schedule r) →
  (await c r).2 = Returned ∧
  run_calls (await c r).1 = run_calls r ++ [c] ∧
  all_complete (run_schedule (await c r).1).
Proof.
  intros Hs. unfold await_call, all_complete in *.
  destruct (run_schedule r) as [| a sched]; simpl; [done |].
  apply Forall_cons in Hs as [-> Hs]. done.
Qed.

(** While the controller is frozen, a [setBrightness] fan-out whose calls
    all complete sends exactly one command to every controlled light, in
    the order of the lights, each addressed to its light; with a brightness
    in [0,255] and lights that have their full tables it does not raise. *)
Theorem dispatch_addresses_each_light (data : gmap string Value)
    (brightness : option Z) (todo : list LightenerControlledLight)
    (done : nat) (r : Run) :
  _is_frozen (run_self r) = true →
  Forall well_formed todo →
  (∀ b, brightness = Some b → 0 ≤ b ≤ 255) →
  all_complete (run_schedule r) →
  ∃ r' commands,
    fan_out data brightness todo done r = (r', Returned) ∧
    run_calls r' = run_calls r ++ commands ∧
    (λ c, service_data c !! ATTR_ENTITY_ID) <$> commands
      = (λ e, Some (VStr (entity_id e))) <$> todo.
Proof.
  intros Hf Hwf Hb. revert done r Hf.
  induction Hwf as [| entity rest Hentity Hrest IH]; intros done r Hf Hsched.
  - exists r, []. simpl. by rewrite app_nil_r.
  - cbn [dispatch].
    set (tr := match brightness with
               | Some b =>
                   let '(e, v) := translate_brightness (run_hass r) entity b in
                   (e, Some v)
               | None => (entity, None)
               end).
    assert (Htr : entity_id tr.1 = entity_id entity ∧
                  tr.2 ≠ Some None).
    { unfold tr. destruct brightness as [b |]; [| done].
      destruct (translate_brightness_total (run_hass r) entity b Hentity
                  (Hb b eq_refl)) as [v Hv].
      destruct (translate_brightness_entity (run_hass r) entity b) as [Hid _].
      destruct (translate_brightness (run_hass r) entity b) as [e' v'].
      simpl in *. subst v'. done. }
    destruct tr as [entity' entity_brightness]. simpl in Htr.
    destruct Htr as [Hid Hsome].
    set (r1 := with_entities (<[done := entity']> (_entities (run_self r))) r).
    set (c := entity_command data brightness (mjoin entity_brightness)
                             (entity_id entity')).
    assert (Hawait : ∃ r2, await c r1 = (r2, Returned) ∧
                           _is_frozen (run_self r2) = true ∧
                           run_calls r2 = run_calls r ++ [c] ∧
                           all_complete (run_schedule r2)).
    { pose proof (await_frozen group_state set_pop c r1 Hf) as Hs.
      destruct (await_call_complete c r1 Hsched) as (Ho & Hc & Hs').
      destruct (await c r1) as [r2 o]. simpl in *. subst o.
      exists r2. by rewrite Hs. }
    destruct Hawait as (r2 & Ea & Hf2 & Hc2 & Hs2).
    destruct (IH (S done) r2 Hf2 Hs2) as (r' & commands & E & Hcalls & Hids).
    exists r', (c :: commands).
    assert (Hgoal : match await c r1 with
                    | (r', Returned) => fan_out data brightness rest (S done) r'
                    | (r', Raised) => (r', Raised)
                    end = (r', Returned)) by (by rewrite Ea).
    split; [| split].
    + destruct entity_brightness as [[v |] |]; done.
    + rewrite Hcalls, Hc2, <- app_assoc. done.
    + rewrite !fmap_cons, Hids. f_equal. unfold c.
      destruct (entity_command_payload_holds data brightness
                  (mjoin entity_brightness) (entity_id entity')) as [-> _].
      by rewrite Hid.
Qed.

(** With an unchanged state machine the fan-out is a function of the
    brightness and the forwarded data alone: it sends [commands_for] and
    leaves every light at most with its type looked up. *)
Lemma dispatch_quiet (data : gmap string Value) (brightness : option Z)
    (todo pre : list LightenerControlledLight) (r : Run) :
  Forall well_formed todo →
  (∀ b, brightness = Some b → 0 ≤ b ≤ 255) →
  quiet (run_schedule r) →
  _entities (run_self r) = pre ++ todo →
  ∃ r' todo',
    fan_out data brightness todo (length pre) r = (r', Returned) ∧
    run_calls r' = run_calls r ++ commands_for data brightness (run_hass r) todo ∧
    run_hass r' = run_hass r ∧
    quiet (run_schedule r') ∧
    run_self r' = set_entities (pre ++ todo') (run_self r) ∧
    Forall2 (resolved (run_hass r)) todo todo'.
Proof.
  intros Hwf Hb. revert pre r.
  induction Hwf as [| entity rest Hentity Hrest IH]; intros pre r Hq Hes.
  - exists r, []. simpl. rewrite !app_nil_r in *. split; [done |].
    split; [done |]. split; [done |]. split; [done |]. split; [| constructor].
    rewrite <- Hes. by destruct r as [[] ? ? ?].
  - cbn [dispatch].
    set (tr := match brightness with
               | Some b =>
                   let '(e, v) := translate_brightness (run_hass r) entity b in
                   (e, Some v)
               | None => (entity, None)
               end).
    assert (Htr : resolved (run_hass r) entity tr.1 ∧
                  tr.2 ≠ Some None ∧
                  mjoin tr.2
                  = brightness ≫= λ b, (translate_brightness (run_hass r) entity b).2).
    { unfold tr. destruct brightness as [b |]; [| by split; [left |]].
      destruct (translate_brightness_total (run_hass r) entity b Hentity
                  (Hb b eq_refl)) as [v Hv].
      pose proof (translate_brightness_self (run_hass r) entity b) as Hself.
      destruct (translate_brightness (run_hass r) entity b) as [e' v'] eqn:Et.
      simpl in *. subst v' e'. split; [by right |]. split; [done |].
      by rewrite Et. }
    destruct tr as [entity' entity_brightness]. simpl in Htr.
    destruct Htr as (Hres & Hsome & Hjoin).
    assert (Hid : entity_id entity' = entity_id entity).
    { destruct Hres as [-> | ->]; [done |]. apply type_tables. }
    set (r1 := with_entities (<[length pre := entity']> (_entities (run_self r))) r).
    set (c := entity_command data brightness (mjoin entity_brightness)
                             (entity_id entity')).
    assert (Hins : <[length pre := entity']> (_entities (run_self r))
                   = (pre ++ [entity']) ++ rest).
    { rewrite Hes. rewrite insert_app_r_alt by done.
      rewrite Nat.sub_diag. simpl. by rewrite <- app_assoc. }
    set (r2 := {| run_self := run_self r1;
                  run_hass := run_hass r;
                  run_schedule := tail (run_schedule r);
                  run_calls := run_calls r ++ [c] |}).
    assert (Ea : await c r1 = (r2, Returned)).
    { unfold await_call, r2, r1. simpl.
      destruct (run_schedule r) as [| a sched]; simpl; [done |].
      apply Forall_cons in Hq as [[-> ->] _]. done. }
    assert (Hq2 : quiet (run_schedule r2)).
    { unfold r2, quiet in *. simpl.
      destruct (run_schedule r) as [| a sched]; [done |].
      by apply Forall_cons in Hq as [_ ?]. }
    destruct (IH (pre ++ [entity']) r2 Hq2) as (r' & todo' & E & Hcalls & Hh & Hq' & Hself & Hres').
    { unfold r2, r1. simpl. done. }
    rewrite length_app in E. simpl in E. rewrite Nat.add_1_r in E.
    exists r', (entity' :: todo').
    split; [| split; [| split; [| split; [| split]]]].
    + destruct entity_brightness as [[v |] |]; try done; by rewrite Ea.
    + rewrite Hcalls. unfold r2 at 1. simpl. rewrite <- app_assoc.
      simpl. do 2 f_equal. unfold c. by rewrite Hjoin, Hid.
    + done.
    + done.
    + rewrite Hself. unfold r2, r1. simpl. rewrite <- app_assoc. simpl.
      by destruct (run_self r).
    + constructor; done.
Qed.

Lemma resolved_trans (hass : Hass) (e0 e e' : LightenerControlledLight) :
  resolved hass e0 e → resolved hass e e' → resolved hass e0 e'.
Proof. intros H [-> | ->]; [done |]. by apply resolved_type. Qed.

Lemma Forall2_resolved_trans (hass : Hass)
    (es0 es es' : list LightenerControlledLight) :
  Forall2 (resolved hass) es0 es → Forall2 (resolved hass) es es' →
  Forall2 (resolved hass) es0 es'.
Proof.
  intros H. revert es'. induction H as [| e0 e es0 es He Hes IH]; intros es' H'.
  - by inversion H'.
  - inversion H' as [| ? e' ? es'' He' Hes']; subst.
    constructor; [by eapply resolved_trans | by apply IH].
Qed.

Lemma Forall2_resolved_well_formed (hass : Hass)
    (es0 es : list LightenerControlledLight) :
  Forall2 (resolved hass) es0 es → Forall well_formed es0 →
  Forall well_formed es.
Proof.
  induction 1 as [| e0 e es0 es He Hes IH]; intros Hwf; [constructor |].
  apply Forall_cons in Hwf as [H0 Hwf].
  constructor; [by eapply resolved_well_formed | by apply IH].
Qed.

Lemma update_resolved (hass : Hass) (self : LightenerLight)
    (es0 : list LightenerControlledLight) :
  Forall2 (resolved hass) es0 (_entities self) →
  Forall2 (resolved hass) es0 (_entities (update hass self).1).
Proof.
  intros H. unfold async_update_group_state.
  destruct (_is_frozen self); [done |].
  destruct (is_on _); [| done].
  pose proof (gather_levels_resolved hass (_entity_ids self) es0
                (_entities self) [] H) as Hg.
  cbn [_entity_ids _entities set_group_attrs].
  destruct (gather_levels hass (_entity_ids self) (_entities self) [])
    as [entities [levels |]]; done.
Qed.

Lemma begin_turn_on_explicit (kwargs : gmap string Value) (b : Z)
    (self : LightenerLight) :
  kwargs_brightness kwargs = Some b →
  begin_turn_on kwargs self
  = (Some b,
     set_is_frozen true
       (set_prefered_brightness (Some b)
          (set_attr_brightness (Some b) self))).
Proof.
  intros Hk. unfold begin_turn_on. rewrite Hk.
  by destruct (_attr_brightness self).
Qed.

(** One [setBrightness(b)] with an unchanged state machine, on lights that
    are the lights [es0] with at most their types looked up. *)
Lemma turn_on_quiet (kwargs : gmap string Value) (b : Z) (r : Run)
    (es0 : list LightenerControlledLight) :
  kwargs_brightness kwargs = Some b → 0 ≤ b ≤ 255 →
  Forall well_formed es0 →
  Forall2 (resolved (run_hass r)) es0 (_entities (run_self r)) →
  quiet (run_schedule r) →
  (∀ id st v, run_hass r id = Some st → observed_brightness st = Some v →
              0 ≤ v ≤ 255) →
  ∃ r1,
    turn_on kwargs r = (r1, Returned) ∧
    run_calls r1
      = run_calls r ++
        commands_for (filter (λ kv, kv.1 ∈ FORWARDED_ATTRIBUTES) kwargs)
                     (Some b) (run_hass r) es0 ∧
    run_hass r1 = run_hass r ∧
    quiet (run_schedule r1) ∧
    Forall2 (resolved (run_hass r)) es0 (_entities (run_self r1)).
Proof.
  intros Hk Hb Hwf0 Hres Hq Hst. unfold async_turn_on.
  rewrite (begin_turn_on_explicit kwargs b _ Hk). cbv beta iota zeta.
  set (data := filter (λ kv, kv.1 ∈ FORWARDED_ATTRIBUTES) kwargs).
  set (self1 := set_is_frozen true
                  (set_prefered_brightness (Some b)
                     (set_attr_brightness (Some b) (run_self r)))).
  pose proof (Forall2_resolved_well_formed _ _ _ Hres Hwf0) as Hwf.
  destruct (dispatch_quiet data (Some b) (_entities self1) [] (with_self self1 r))
    as (r' & todo' & E & Hcalls & Hh & Hq' & Hself & Hres');
    [done | by intros ? [= <-] | done | done |].
  cbn [length] in E. rewrite E. simpl in Hcalls, Hh, Hself, Hres'.
  rewrite (commands_for_resolved data (Some b) (run_hass r) es0 _ Hres)
    in Hcalls.
  pose proof (Forall2_resolved_trans _ _ _ _ Hres Hres') as Hres0.
  (* the closing pass *)
  unfold settle. rewrite Hh.
  set (self2 := set_is_frozen false (run_self r')).
  assert (Hes2 : _entities self2 = todo') by (unfold self2; by rewrite Hself).
  pose proof (update_never_raises_holds group_state set_pop (run_hass r) self2)
    as Hnr.
  destruct Hnr as (Hret & _ & _).
  { rewrite Hes2. by eapply Forall2_resolved_well_formed. }
  { done. }
  pose proof (update_resolved (run_hass r) self2 es0) as Hupd.
  rewrite Hes2 in Hupd. specialize (Hupd Hres0).
  destruct (update (run_hass r) self2) as [self3 o]. simpl in Hret, Hupd.
  subst o. eexists. split; [done |]. simpl.
  split; [done |]. split; [done |]. split; [done |].
  unfold async_write_ha_state. by destruct (_is_frozen self3).
Qed.

(** Idempotence of [setBrightness]: two calls in a row with the same
    brightness, while the state machine does not change and every call
    completes, issue the same per-light commands both times. *)
Theorem turn_on_twice_same_commands (kwargs : gmap string Value) (b : Z)
    (r : Run) :
  kwargs_brightness kwargs = Some b → 0 ≤ b ≤ 255 →
  Forall well_formed (_entities (run_self r)) →
  quiet (run_schedule r) →
  (∀ id st v, run_hass r id = Some st → observed_brightness st = Some v →
              0 ≤ v ≤ 255) →
  ∃ r1 r2 commands,
    turn_on kwargs r = (r1, Returned) ∧
    run_calls r1 = run_calls r ++ commands ∧
    turn_on kwargs r1 = (r2, Returned) ∧
    run_calls r2 = run_calls r1 ++ commands.
Proof.
  intros Hk Hb Hwf Hq Hst.
  assert (Hrefl : Forall2 (resolved (run_hass r)) (_entities (run_self r))
                    (_entities (run_self r))).
  { apply Forall2_same_length_lookup_2; [done |].
    intros i e e' He He'. left. congruence. }
  destruct (turn_on_quiet kwargs b r (_entities (run_self r)) Hk Hb Hwf Hrefl
              Hq Hst) as (r1 & E1 & Hc1 & Hh1 & Hq1 & Hres1).
  destruct (turn_on_quiet kwargs b r1 (_entities (run_self r)) Hk Hb Hwf)
    as (r2 & E2 & Hc2 & _); [by rewrite Hh1 | done | by rewrite Hh1 |].
  exists r1, r2. eexists. split; [done |]. split; [exact Hc1 |].
  split; [done |]. by rewrite Hc2, Hh1.
Qed.

(** [setOff] remembers the displayed brightness: when its calls complete
    and the base class then finds the controller off, the preferred
    brightness is the brightness displayed before the call, the displayed
    brightness is unset, and a following [setBrightness] without a
    brightness translates that remembered brightness. *)
Theorem turn_off_remembers_brightness (kwargs kwargs' : gmap string Value)
    (r r' : Run) :
  turn_off kwargs r = (r', Returned) →
  g_is_on (group_state (run_hass r') (_entity_ids (run_self r))) ≠ Some true →
  kwargs_brightness kwargs' = None →
  _prefered_brightness (run_self r') = _attr_brightness (run_self r) ∧
  _attr_brightness (run_self r') = None ∧
  (begin_turn_on kwargs' (run_self r')).1 = _attr_brightness (run_self r).
Proof.
  unfold async_turn_off. intros E Hoff Hk.
  set (self0 := set_prefered_brightness
                  (_attr_brightness (set_is_frozen true (run_self r)))
                  (set_is_frozen true (run_self r))) in *.
  destruct (await_calls group_state set_pop _ (with_self self0 r))
    as [r1 o] eqn:Ea.
  destruct o; [| done].
  apply (await_calls_frozen group_state set_pop) in Ea; [| done].
  simpl in Ea. unfold settle in E. rewrite Ea in E.
  assert (Hh : run_hass r' = run_hass r1).
  { destruct (update (run_hass r1) (set_is_frozen false self0)) as [s [|]];
      [by injection E as <- | discriminate E]. }
  rewrite Hh in Hoff.
  destruct (update_when_off_holds group_state set_pop (run_hass r1)
              (set_is_frozen false self0) eq_refl Hoff)
    as (self' & Eu & Hb & _).
  pose proof (update_keeps_intent_holds group_state set_pop (run_hass r1)
                (set_is_frozen false self0)) as (Hp & Hf & _).
  rewrite Eu in E, Hp, Hf. simpl in Hp, Hf. injection E as <-.
  unfold async_write_ha_state. rewrite Hf. simpl.
  split; [done |]. split; [done |].
  unfold begin_turn_on. rewrite Hk. simpl. rewrite Hb. simpl. by rewrite Hp.
Qed.

End MoreCommandProperties.


(** * The write transaction, call by call *)

Section TransactionProperties.

Variable group_state : Hass → list string → GroupAttrs.
Variable set_pop : pyset → option Z.
Variable FORWARDED_ATTRIBUTES : list string.
Variable group_turn_off : gmap string Value → list string → list Command.

Local Abbreviation update := (async_update_group_state group_state set_pop).
Local Abbreviation await := (await_call group_state set_pop).
Local Abbreviation fan_out := (dispatch group_state set_pop).
Local Abbreviation turn_on :=
  (async_turn_on group_state set_pop FORWARDED_ATTRIBUTES).
Local Abbreviation turn_off :=
  (async_turn_off group_state set_pop group_turn_off).

(** One awaited call records its command, consumes one await of the
    schedule, and raises exactly when that await does not complete. *)
Lemma await_call_trace (c : Command) (r : Run) :
  run_calls (await c r).1 = run_calls r ++ [c] ∧
  run_schedule (await c r).1 = tail (run_schedule r) ∧
  match (await c r).2 with
  | Returned => ∀ a, head (run_schedule r) = Some a → completes a = true
  | Raised => ∃ a, head (run_schedule r) = Some a ∧ completes a = false
  end.
Proof.
  unfold await_call. cbn [fst snd run_calls run_schedule].
  split; [done |]. split; [done |].
  destruct (run_schedule r) as [| a schedule]; simpl.
  - intros a H. discriminate H.
  - destruct (completes a) eqn:Hc.
    + intros a' H. by injection H as <-.
    + by exists a.
Qed.

Lemma set_entities_same (self : LightenerLight) :
  set_entities (_entities self) self = self.
Proof. by destruct self. Qed.

(** The fan-out, call by call: it changes nothing in the object but the
    type caches of the lights; its commands are addressed to the first
    lights, in order; every call before the last one completed; and when
    it raises, either the last call raised or the translation for the
    next light did. *)
Lemma dispatch_trace (data : gmap string Value) (brightness : option Z)
    (todo : list LightenerControlledLight) :
  ∀ (done : nat) (r r' : Run) (out : Outcome),
    _is_frozen (run_self r) = true →
    fan_out data brightness todo done r = (r', out) →
    set_entities (_entities (run_self r)) (run_self r') = run_self r ∧
    ∃ commands,
      run_calls r' = run_calls r ++ commands ∧
      (λ c, service_data c !! ATTR_ENTITY_ID) <$> commands
      = (λ e, Some (VStr (entity_id e))) <$> take (length commands) todo ∧
      all_complete (take (length commands - 1) (run_schedule r)) ∧
      match out with
      | Returned => length commands = length todo
      | Raised =>
          ((0 < length commands)%nat ∧
           ∃ a, run_schedule r !! (length commands - 1)%nat = Some a ∧
                completes a = false) ∨
          ((length commands < length todo)%nat ∧
           all_complete (take (length commands) (run_schedule r)))
      end.
Proof.
  induction todo as [| entity rest IH]; intros done r r' out Hf E.
  - simpl in E. injection E as <- <-.
    split; [apply set_entities_same |].
    exists []. rewrite app_nil_r. split; [done |]. split; [done |].
    split; [apply Forall_nil_2 | done].
  - cbn [dispatch] in E.
    set (tr := match brightness with
               | Some b =>
                   let '(e, v) := translate_brightness (run_hass r) entity b in
                   (e, Some v)
               | None => (entity, None)
               end) in E.
    assert (Hid : entity_id tr.1 = entity_id entity).
    { unfold tr. destruct brightness as [b |]; [| done].
      pose proof (translate_brightness_entity (run_hass r) entity b) as [H _].
      by destruct (translate_brightness (run_hass r) entity b). }
    destruct tr as [entity' entity_brightness]. cbn [fst] in Hid.
    set (r1 := with_entities (<[done := entity']> (_entities (run_self r))) r)
      in E.
    assert (Hf1 : _is_frozen (run_self r1) = true) by done.
    assert (Hself1 : set_entities (_entities (run_self r)) (run_self r1)
                     = run_self r).
    { unfold r1. simpl. by destruct (run_self r). }
    assert (Hraise : (r1, Raised) = (r', out) →
      set_entities (_entities (run_self r)) (run_self r') = run_self r ∧
      ∃ commands,
        run_calls r' = run_calls r ++ commands ∧
        (λ c, service_data c !! ATTR_ENTITY_ID) <$> commands
        = (λ e, Some (VStr (entity_id e)))
            <$> take (length commands) (entity :: rest) ∧
        all_complete (take (length commands - 1) (run_schedule r)) ∧
        match out with
        | Returned => length commands = length (entity :: rest)
        | Raised =>
            ((0 < length commands)%nat ∧
             ∃ a, run_schedule r !! (length commands - 1)%nat = Some a ∧
                  completes a = false) ∨
            ((length commands < length (entity :: rest))%nat ∧
             all_complete (take (length commands) (run_schedule r)))
        end).
    { intros E'. injection E' as <- <-. split; [exact Hself1 |].
      exists []. rewrite app_nil_r. split; [done |]. split; [done |].
      split; [apply Forall_nil_2 |]. right. simpl. split; [lia |].
      apply Forall_nil_2. }
    assert (Hcall : ∀ c,
      service_data c !! ATTR_ENTITY_ID = Some (VStr (entity_id entity)) →
      match await c r1 with
      | (r2, Returned) => fan_out data brightness rest (S done) r2
      | (r2, Raised) => (r2, Raised)
      end = (r', out) →
      set_entities (_entities (run_self r)) (run_self r') = run_self r ∧
      ∃ commands,
        run_calls r' = run_calls r ++ commands ∧
        (λ c, service_data c !! ATTR_ENTITY_ID) <$> commands
        = (λ e, Some (VStr (entity_id e)))
            <$> take (length commands) (entity :: rest) ∧
        all_complete (take (length commands - 1) (run_schedule r)) ∧
        match out with
        | Returned => length commands = length (entity :: rest)
        | Raised =>
            ((0 < length commands)%nat ∧
             ∃ a, run_schedule r !! (length commands - 1)%nat = Some a ∧
                  completes a = false) ∨
            ((length commands < length (entity :: rest))%nat ∧
             all_complete (take (length commands) (run_schedule r)))
        end).
    { intros c Hc E'.
      pose proof (await_frozen group_state set_pop c r1 Hf1) as Hs.
      destruct (await_call_trace c r1) as (Hcalls & Hsched & Hout).
      destruct (await c r1) as [r2 o]. cbn [fst snd] in Hs, Hcalls, Hsched, Hout.
      change (run_calls r1) with (run_calls r) in Hcalls.
      change (run_schedule r1) with (run_schedule r) in Hsched, Hout.
      destruct o.
      - destruct (IH (S done) r2 r' out) as (Hself & commands & Hc' & Hids & Hbefore & Hend);
          [by rewrite Hs | exact E' |].
        split.
        { rewrite <- Hself1. rewrite <- Hs.
          rewrite <- Hself at 2. by destruct (run_self r'). }
        exists (c :: commands). split.
        { rewrite Hc', Hcalls. by rewrite <- app_assoc. }
        split.
        { cbn [length take fmap list_fmap]. rewrite Hc. f_equal. exact Hids. }
        assert (Hhead : ∀ n, all_complete (take n (tail (run_schedule r))) →
                             all_complete (take (S n) (run_schedule r))).
        { intros n Hn. destruct (run_schedule r) as [| a schedule];
            [apply Forall_nil_2 |].
          cbn [take]. apply Forall_cons. split; [by apply Hout | exact Hn]. }
        rewrite Hsched in Hbefore, Hend.
        split.
        { cbn [length]. replace (S (length commands) - 1)%nat
            with (length commands) by lia.
          destruct (length commands) as [| n] eqn:Hn; [apply Forall_nil_2 |].
          apply Hhead. by replace n with (S n - 1)%nat by lia. }
        destruct out.
        + cbn [length]. by rewrite Hend.
        + destruct Hend as [(Hpos & a & Ha & Hca) | (Hlt & Hall)].
          * left. split; [cbn [length]; lia |]. exists a. split; [| exact Hca].
            cbn [length]. replace (S (length commands) - 1)%nat
              with (S (length commands - 1)) by lia.
            destruct (run_schedule r) as [| a0 schedule];
              [simpl in Ha; discriminate Ha | exact Ha].
          * right. split; [cbn [length]; lia |]. cbn [length]. by apply Hhead.
      - injection E' as <- <-. split; [by rewrite Hs |].
        exists [c]. split; [exact Hcalls |].
        split; [cbn [length take fmap list_fmap]; by rewrite Hc |].
        split; [apply Forall_nil_2 |].
        left. split; [simpl; lia |]. destruct Hout as (a & Ha & Hca).
        exists a. split; [| exact Hca]. simpl.
        by destruct (run_schedule r). }
    assert (Hto : ∀ eb,
      service_data (entity_command data brightness eb (entity_id entity'))
        !! ATTR_ENTITY_ID = Some (VStr (entity_id entity))).
    { intros eb. rewrite <- Hid.
      apply (entity_command_payload_holds data brightness eb (entity_id entity')). }
    destruct entity_brightness as [[v |] |].
    + apply (Hcall _ (Hto _) E).
    + apply (Hraise E).
    + apply (Hcall _ (Hto _) E).
Qed.

(** The calls of [LightGroup.async_turn_off], call by call. *)
Lemma await_calls_trace (cs : list Command) :
  ∀ (r r' : Run) (out : Outcome),
    await_calls group_state set_pop cs r = (r', out) →
    ∃ n : nat,
      run_calls r' = run_calls r ++ take n cs ∧
      all_complete (take (n - 1) (run_schedule r)) ∧
      match out with
      | Returned => n = length cs
      | Raised =>
          (0 < n ≤ length cs)%nat ∧
          ∃ a, run_schedule r !! (n - 1)%nat = Some a ∧ completes a = false
      end.
Proof.
  induction cs as [| c cs IH]; intros r r' out E.
  - simpl in E. injection E as <- <-. exists 0%nat.
    rewrite app_nil_r. split; [done |]. split; [apply Forall_nil_2 | done].
  - cbn [await_calls] in E.
    destruct (await_call_trace c r) as (Hcalls & Hsched & Hout).
    destruct (await c r) as [r2 o]. cbn [fst snd] in Hcalls, Hsched, Hout.
    destruct o.
    + destruct (IH r2 r' out E) as (n & Hc' & Hbefore & Hend).
      rewrite Hsched in Hbefore, Hend.
      assert (Hhead : ∀ k, all_complete (take k (tail (run_schedule r))) →
                           all_complete (take (S k) (run_schedule r))).
      { intros k Hk. destruct (run_schedule r) as [| a schedule];
          [apply Forall_nil_2 |].
        cbn [take]. apply Forall_cons. split; [by apply Hout | exact Hk]. }
      exists (S n). split.
      { rewrite Hc', Hcalls. by rewrite <- app_assoc. }
      split.
      { replace (S n - 1)%nat with n by lia.
        destruct n as [| k]; [apply Forall_nil_2 |].
        apply Hhead. by replace k with (S k - 1)%nat by lia. }
      destruct out.
      * by rewrite Hend.
      * destruct Hend as (Hn & a & Ha & Hca). split; [simpl; lia |].
        exists a. split; [| exact Hca].
        replace (S n - 1)%nat with (S (n - 1)) by lia.
        destruct (run_schedule r) as [| a0 schedule];
          [simpl in Ha; discriminate Ha | exact Ha].
    + injection E as <- <-. exists 1%nat. split; [exact Hcalls |].
      split; [apply Forall_nil_2 |]. split; [simpl; lia |].
      destruct Hout as (a & Ha & Hca). exists a. split; [| exact Hca].
      simpl. by destruct (run_schedule r).
Qed.

(** The tail of both commands once their calls have completed: the flag is
    cleared and one pass runs on the state machine as last seen; when the
    pass returns, the reconciled state is written, once. *)
Lemma settle_trace (r1 : Run) (self' : LightenerLight) (out' : Outcome) :
  update (run_hass r1) (set_is_frozen false (run_self r1)) = (self', out') →
  _is_frozen self' = false ∧
  match out' with
  | Returned =>
      settle group_state set_pop r1 = (with_self (publish self') r1, Returned) ∧
      published (publish self')
      = published (run_self r1) ++ [(_attr_is_on self', _attr_brightness self')]
  | Raised =>
      settle group_state set_pop r1 = (with_self self' r1, Raised) ∧
      published self' = published (run_self r1)
  end.
Proof.
  intros E.
  destruct (update_keeps_intent_holds group_state set_pop (run_hass r1)
              (set_is_frozen false (run_self r1))) as (_ & Hf & _ & Hp).
  rewrite E in Hf, Hp. cbn [fst] in Hf, Hp.
  change (_is_frozen (set_is_frozen false (run_self r1))) with false in Hf.
  change (published (set_is_frozen false (run_self r1)))
    with (published (run_self r1)) in Hp.
  split; [exact Hf |]. unfold settle. rewrite E.
  destruct out'.
  - unfold async_write_ha_state. rewrite Hf. split; [done |].
    cbn [publish published]. by rewrite Hp.
  - done.
Qed.

(** C4 (as amended).  For [setBrightness] and for [setOff], whichever way
    the awaited per-light calls end:
    - the commands issued are addressed to the first lights, in their
      order (for [setOff], they are the first calls of the base class),
      and every call before the last one completed, so nothing is issued
      after a call that raises;
    - when all of them complete, the frozen flag is cleared and one
      reconciliation pass is run on the state machine as last seen; when
      the pass returns, the reconciled state is written and it is the only
      state written by the whole command; when the pass itself raises, the
      exception leaves the method with the flag cleared and nothing
      written;
    - when a call raises (or, in [setBrightness], the translation for a
      light does), the exception leaves the method at once: the frozen
      flag stays set, nothing is reconciled (the object is the one of the
      moment the flag was set, the type caches of the lights apart) and
      nothing is written. *)
Theorem C4_flag_cleared_when_commands_complete
    (kwargs : gmap string Value) (r : Run) :
  (∀ r1 out,
     fan_out (filter (λ kv, kv.1 ∈ FORWARDED_ATTRIBUTES) kwargs)
             (begin_turn_on kwargs (run_self r)).1
             (_entities (begin_turn_on kwargs (run_self r)).2) 0
             (with_self (begin_turn_on kwargs (run_self r)).2 r) = (r1, out) →
     ∃ commands,
       run_calls r1 = run_calls r ++ commands ∧
       (λ c, service_data c !! ATTR_ENTITY_ID) <$> commands
       = (λ e, Some (VStr (entity_id e)))
           <$> take (length commands)
                    (_entities (begin_turn_on kwargs (run_self r)).2) ∧
       all_complete (take (length commands - 1) (run_schedule r)) ∧
       match out with
       | Returned =>
           length commands
           = length (_entities (begin_turn_on kwargs (run_self r)).2) ∧
           ∀ self' out',
             update (run_hass r1) (set_is_frozen false (run_self r1))
             = (self', out') →
             _is_frozen self' = false ∧
             match out' with
             | Returned =>
                 turn_on kwargs r = (with_self (publish self') r1, Returned) ∧
                 published (publish self')
                 = published (run_self r)
                   ++ [(_attr_is_on self', _attr_brightness self')]
             | Raised =>
                 turn_on kwargs r = (with_self self' r1, Raised) ∧
                 published self' = published (run_self r)
             end
       | Raised =>
           turn_on kwargs r = (r1, Raised) ∧
           _is_frozen (run_self r1) = true ∧
           published (run_self r1) = published (run_self r) ∧
           set_entities (_entities (begin_turn_on kwargs (run_self r)).2)
                        (run_self r1)
           = (begin_turn_on kwargs (run_self r)).2 ∧
           (((0 < length commands)%nat ∧
             ∃ a, run_schedule r !! (length commands - 1)%nat = Some a ∧
                  completes a = false) ∨
            ((length commands
              < length (_entities (begin_turn_on kwargs (run_self r)).2))%nat ∧
             all_complete (take (length commands) (run_schedule r))))
       end) ∧
  (∀ r1 out,
     await_calls group_state set_pop
       (group_turn_off kwargs (_entity_ids (run_self r)))
       (with_self (set_prefered_brightness (_attr_brightness (run_self r))
                     (set_is_frozen true (run_self r))) r) = (r1, out) →
     ∃ n : nat,
       run_calls r1
       = run_calls r
         ++ take n (group_turn_off kwargs (_entity_ids (run_self r))) ∧
       all_complete (take (n - 1) (run_schedule r)) ∧
       run_self r1
       = set_prefered_brightness (_attr_brightness (run_self r))
           (set_is_frozen true (run_self r)) ∧
       match out with
       | Returned =>
           n = length (group_turn_off kwargs (_entity_ids (run_self r))) ∧
           ∀ self' out',
             update (run_hass r1) (set_is_frozen false (run_self r1))
             = (self', out') →
             _is_frozen self' = false ∧
             match out' with
             | Returned =>
                 turn_off kwargs r = (with_self (publish self') r1, Returned) ∧
                 published (publish self')
                 = published (run_self r)
                   ++ [(_attr_is_on self', _attr_brightness self')]
             | Raised =>
                 turn_off kwargs r = (with_self self' r1, Raised) ∧
                 published self' = published (run_self r)
             end
       | Raised =>
           turn_off kwargs r = (r1, Raised) ∧
           _is_frozen (run_self r1) = true ∧
           published (run_self r1) = published (run_self r) ∧
           (0 < n ≤ length (group_turn_off kwargs
                              (_entity_ids (run_self r))))%nat ∧
           ∃ a, run_schedule r !! (n - 1)%nat = Some a ∧ completes a = false
       end).
Proof.
  split.
  - intros r1 out E.
    destruct (begin_turn_on_frozen kwargs (run_self r)) as [Hf Hp].
    assert (Eon : turn_on kwargs r
                  = match out with
                    | Returned => settle group_state set_pop r1
                    | Raised => (r1, Raised)
                    end).
    { unfold async_turn_on.
      destruct (begin_turn_on kwargs (run_self r)) as [brightness self].
      cbn [fst snd] in E. rewrite E. by destruct out. }
    destruct (dispatch_trace _ _ _ _
                (with_self (begin_turn_on kwargs (run_self r)).2 r) _ _ Hf E)
      as (Hself & commands & Hcalls & Hids & Hbefore & Hend).
    destruct (dispatch_frozen group_state set_pop _ _ _ _
                (with_self (begin_turn_on kwargs (run_self r)).2 r) _ _ Hf E)
      as (Hf1 & _ & _ & Hp1).
    cbn [with_self run_self run_calls run_schedule] in *.
    exists commands. split; [exact Hcalls |]. split; [exact Hids |].
    split; [exact Hbefore |].
    destruct out.
    + split; [exact Hend |]. intros self' out' Eu.
      destruct (settle_trace r1 self' out' Eu) as [Hfalse Hsettle].
      split; [exact Hfalse |]. rewrite Eon. destruct out'.
      * destruct Hsettle as [-> ->]. split; [done |]. by rewrite Hp1, Hp.
      * destruct Hsettle as [-> ->]. split; [done |]. by rewrite Hp1, Hp.
    + split; [exact Eon |]. split; [exact Hf1 |].
      split; [by rewrite Hp1, Hp |]. split; [exact Hself | exact Hend].
  - intros r1 out E.
    assert (Eoff : turn_off kwargs r
                   = match out with
                     | Returned => settle group_state set_pop r1
                     | Raised => (r1, Raised)
                     end).
    { unfold async_turn_off.
      change (_entity_ids (set_prefered_brightness _ _))
        with (_entity_ids (run_self r)).
      change (_attr_brightness (set_is_frozen true (run_self r)))
        with (_attr_brightness (run_self r)).
      rewrite E. by destruct out. }
    destruct (await_calls_trace _ _ _ _ E) as (n & Hcalls & Hbefore & Hend).
    apply await_calls_frozen in E as Hself; [| done].
    cbn [with_self run_self run_calls run_schedule] in *.
    exists n. split; [exact Hcalls |]. split; [exact Hbefore |].
    split; [exact Hself |].
    destruct out.
    + split; [exact Hend |]. intros self' out' Eu.
      destruct (settle_trace r1 self' out' Eu) as [Hfalse Hsettle].
      split; [exact Hfalse |]. rewrite Eoff. destruct out'.
      * destruct Hsettle as [-> ->]. split; [done |]. by rewrite Hself.
      * destruct Hsettle as [-> ->]. split; [done |]. by rewrite Hself.
    + split; [exact Eoff |]. rewrite Hself. split; [done |].
      split; [done | exact Hend].
Qed.

End TransactionProperties.

(** A fact about every way a call can end, at the way it does end. *)
Lemma at_outcome {A : Type} {x : A * Outcome} {P : A → Outcome → Prop}
    (H : ∀ a out, x = (a, out) → P a out) (out : Outcome) :
  x.2 = out → P x.1 out.
Proof. intros <-. apply H. by destruct x. Qed.

Lemma C4_flag_cleared_when_commands_complete_witness :
  (∃ r1 self',
     async_turn_on light_group_state pop_first ha_forwarded_attributes
       brightness_128 (example_run calls_complete)
     = (with_self (publish self') r1, Returned) ∧
     length (run_calls r1) = 2%nat ∧
     _is_frozen self' = false ∧
     published (publish self')
     = [(_attr_is_on self', _attr_brightness self')]) ∧
  (∃ r1,
     async_turn_on light_group_state pop_first ha_forwarded_attributes
       brightness_128 (example_run first_call_fails) = (r1, Raised) ∧
     length (run_calls r1) = 1%nat ∧
     _is_frozen (run_self r1) = true ∧
     published (run_self r1) = []).
Proof.
  split.
  - destruct (C4_flag_cleared_when_commands_complete light_group_state
                pop_first ha_forwarded_attributes light_group_turn_off
                brightness_128 (example_run calls_complete)) as [Hon _].
    destruct (at_outcome Hon Returned)
      as (commands & Hcalls & _ & _ & Hlen & Htail).
    { vm_compute. reflexivity. }
    destruct (at_outcome Htail Returned) as (Hfalse & Hturn & Hpub).
    { vm_compute. reflexivity. }
    eexists _, _. split; [exact Hturn |]. split.
    { rewrite Hcalls. cbn [example_run run_calls app]. rewrite Hlen.
      vm_compute. reflexivity. }
    split; [exact Hfalse | exact Hpub].
  - destruct (C4_flag_cleared_when_commands_complete light_group_state
                pop_first ha_forwarded_attributes light_group_turn_off
                brightness_128 (example_run first_call_fails)) as [Hon _].
    destruct (at_outcome Hon Raised)
      as (commands & Hcalls & _ & _ & Hturn & Hf & Hp & _ & _).
    { vm_compute. reflexivity. }
    eexists. split; [exact Hturn |]. split; [vm_compute; reflexivity |].
    split; [exact Hf | exact Hp].
Defined.

(** * The construction of the Lightener *)

(** A Lightener built from a configuration whose calibration tables are all
    valid is built without error, starts unfrozen without a preferred
    brightness, lists the entity ids of the configuration in order, holds
    one controlled light per entity id in the same order, each with its
    full tables; and a reconciliation pass on it never raises while the
    brightness read from every state is in [0,255]. *)
Theorem lightener_init_well_formed (value_to_brightness : Z * Z → Z → Z)
    (base : GroupAttrs) (entities : option (list (string * list (Z * Z)))) :
  (∀ p, 1 ≤ value_to_brightness (1, 100) p ≤ 255) →
  Forall (λ kv, calibration_table kv.2) (default [] entities) →
  ∃ self,
    LightenerLight__init__ value_to_brightness base entities = Some self ∧
    _is_frozen self = false ∧
    _prefered_brightness self = None ∧
    _entity_ids self = (default [] entities).*1 ∧
    entity_id <$> _entities self = _entity_ids self ∧
    Forall well_formed (_entities self) ∧
    ∀ group_state set_pop hass,
      (∀ id st b, hass id = Some st → observed_brightness st = Some b →
                  0 ≤ b ≤ 255) →
      (async_update_group_state group_state set_pop hass self).2 = Returned.
Proof.
  intros Hrange Hval. unfold LightenerLight__init__.
  assert (H : ∃ controlled,
             mapM (λ kv, __init__ value_to_brightness kv.1 kv.2)
                  (default [] entities) = Some controlled ∧
             entity_id <$> controlled = (default [] entities).*1 ∧
             Forall well_formed controlled).
  { induction Hval as [| [id table] rest Htable Hrest IH].
    - by exists [].
    - destruct IH as (controlled & E & Hids & Hwf).
      destruct (init_reverse_ok value_to_brightness Hrange id table Htable)
        as (light & El & _ & _ & _ & Hl).
      pose proof (init_tables value_to_brightness id table light El)
        as (_ & _ & Hid).
      exists (light :: controlled). split; [| split].
      + apply mapM_Some_2. constructor; [exact El | by apply mapM_Some_1].
      + rewrite !fmap_cons. f_equal; [exact Hid | exact Hids].
      + by constructor. }
  destruct H as (controlled & E & Hids & Hwf).
  rewrite E. simpl. eexists. split; [done |]. simpl.
  split; [done |]. split; [done |]. split; [done |]. split; [done |].
  split; [done |]. intros group_state set_pop hass Hst.
  by apply update_never_raises_holds.
Qed.

(** * Examples for the further properties *)

Lemma both_on_in_range (a b : Z) :
  0 ≤ a ≤ 255 → 0 ≤ b ≤ 255 →
  ∀ id st v, both_on a b id = Some st → observed_brightness st = Some v →
             0 ≤ v ≤ 255.
Proof.
  intros Ha Hb id st v Hst Hv. unfold both_on in Hst.
  repeat case_decide; try discriminate Hst; injection Hst as <-;
    injection Hv as <-; done.
Qed.

Lemma no_states_in_range :
  ∀ id st v, no_states id = Some st → observed_brightness st = Some v →
             0 ≤ v ≤ 255.
Proof. intros id st v Hst. discriminate Hst. Qed.

Lemma two_lights_well_formed (brightness : list (Z * Z)) :
  bool_decide (Forall well_formed (two_lights brightness)) = true →
  Forall well_formed (two_lights brightness).
Proof. intros H. by apply bool_decide_eq_true in H. Qed.

Lemma default_light_exists :
  ∃ light, __init__ ha_value_to_brightness "light.a" [] = Some light.
Proof. vm_compute. eexists. reflexivity. Qed.

Lemma translate_brightness_subscript_witness :
  ∃ light,
    __init__ ha_value_to_brightness "light.a" [(25, 50); (75, 100)] = Some light ∧
    (translate_brightness no_states light 256).2 = None ∧
    (translate_brightness no_states light (-1)).2
    = (translate_brightness no_states light (256 + -1)).2.
Proof.
  destruct (translate_brightness_subscript ha_value_to_brightness
              ha_value_to_brightness_range "light.a" [(25, 50); (75, 100)])
    as (light & E & H).
  { apply calibration_table_check. vm_compute. reflexivity. }
  exists light. split; [exact E |].
  split.
  - apply (proj1 (H no_states 256)). right. lia.
  - apply (proj2 (H no_states (-1))). lia.
Defined.

Lemma translate_brightness_monotone_witness :
  ∃ light,
    __init__ ha_value_to_brightness "light.a" [(25, 50); (75, 100)] = Some light ∧
    ∀ vi vj,
      (translate_brightness no_states light 10).2 = Some vi →
      (translate_brightness no_states light 200).2 = Some vj →
      vi ≤ vj.
Proof.
  destruct (translate_brightness_monotone ha_value_to_brightness
              ha_value_to_brightness_range "light.a" [(25, 50); (75, 100)])
    as (light & E & H).
  { apply calibration_table_check. vm_compute. reflexivity. }
  { assert (Es : sorted_items
                   (config_levels ha_value_to_brightness [(25, 50); (75, 100)])
                 = [(64, 128); (191, 255); (255, 255)])
      by (vm_compute; reflexivity).
    rewrite Es. simpl. lia. }
  exists light. split; [exact E |]. intros vi vj.
  apply (H no_states 10 200 vi vj (fresh_light_dimmable _ _ _ E)); lia.
Defined.

Lemma translate_brightness_back_candidates_witness :
  ∃ light,
    __init__ ha_value_to_brightness "light.a" up_and_down = Some light ∧
    ∀ candidates,
      (translate_brightness_back no_states light (Some 100)).2 = Some candidates →
      NoDup candidates ∧ ∀ x, x ∈ candidates → 0 ≤ x ≤ 255.
Proof.
  destruct (translate_brightness_back_candidates ha_value_to_brightness
              ha_value_to_brightness_range "light.a" up_and_down)
    as (light & E & H).
  { apply calibration_table_check. vm_compute. reflexivity. }
  exists light. split; [exact E |]. intros candidates.
  apply (H no_states 100 candidates (fresh_light_dimmable _ _ _ E)).
Defined.

Lemma translate_brightness_back_on_off_sparse_witness :
  ∃ light,
    __init__ ha_value_to_brightness "light.a" up_and_down = Some light ∧
    (translate_brightness_back all_on_off light (Some 100)).2 = Some [].
Proof.
  destruct (translate_brightness_back_on_off_sparse ha_value_to_brightness
              ha_value_to_brightness_range "light.a" up_and_down)
    as (light & E & H).
  { apply calibration_table_check. vm_compute. reflexivity. }
  exists light. split; [exact E |].
  apply (proj1 (H all_on_off (fresh_light_on_off _ _ _ E))). lia.
Defined.

Lemma on_off_round_trip_witness :
  ∃ light,
    __init__ ha_value_to_brightness "light.a" up_and_down = Some light ∧
    ∃ v candidates,
      (translate_brightness all_on_off light 60).2 = Some v ∧
      (translate_brightness_back all_on_off light (Some v)).2 = Some candidates ∧
      60 ∈ candidates.
Proof.
  destruct (on_off_round_trip ha_value_to_brightness
              ha_value_to_brightness_range "light.a" up_and_down)
    as (light & E & H).
  { apply calibration_table_check. vm_compute. reflexivity. }
  exists light. split; [exact E |].
  apply (H all_on_off 60 (fresh_light_on_off _ _ _ E)). lia.
Defined.

Lemma type_classification_witness :
  ∃ light,
    __init__ ha_value_to_brightness "light.a" [] = Some light ∧
    (type all_on_off light).2 = Some TYPE_ONOFF.
Proof.
  destruct default_light_exists as (light & E).
  exists light. split; [exact E |].
  pose proof (init_tables ha_value_to_brightness "light.a" [] light E)
    as (_ & Hty & _).
  exact (type_classification all_on_off light Hty).
Defined.

Lemma type_is_final_witness :
  ∃ light,
    __init__ ha_value_to_brightness "light.a" [] = Some light ∧
    type no_states (type all_on_off light).1
    = ((type all_on_off light).1, Some TYPE_ONOFF).
Proof.
  destruct default_light_exists as (light & E).
  exists light. split; [exact E |].
  apply (type_is_final all_on_off no_states light TYPE_ONOFF).
  exact (fresh_light_on_off _ _ _ E).
Defined.

Lemma update_when_off_witness :
  ∃ self',
    async_update_group_state light_group_state pop_first no_states
      (set_prefered_brightness (Some 42) (new_lightener (two_lights [])))
    = (self', Returned) ∧
    _attr_brightness self' = None ∧
    _entities self'
    = _entities (set_prefered_brightness (Some 42)
                   (new_lightener (two_lights []))).
Proof.
  apply (update_when_off light_group_state pop_first no_states
           (set_prefered_brightness (Some 42) (new_lightener (two_lights [])))).
  - reflexivity.
  - vm_compute. intros H. discriminate H.
Defined.

Lemma update_reports_brightness_support_witness :
  _attr_color_mode
    (async_update_group_state light_group_state pop_first all_on_off
       (new_lightener (two_lights []))).1 ≠ Some ONOFF ∧
  ∃ modes,
    _attr_supported_color_modes
      (async_update_group_state light_group_state pop_first all_on_off
         (new_lightener (two_lights []))).1 = Some modes ∧
    modes ≠ [] ∧ (ONOFF ∉ modes) ∧
    ((∀ m, m ∈ default [] (g_supported_color_modes
                             (light_group_state all_on_off
                                (_entity_ids (new_lightener (two_lights [])))))
           → m = ONOFF) →
     modes = [BRIGHTNESS]).
Proof.
  apply (update_reports_brightness_support light_group_state pop_first
           all_on_off (new_lightener (two_lights [])) _ eq_refl).
  apply pair_snd_eq. vm_compute. reflexivity.
Defined.

Lemma displayed_brightness_is_voted_witness :
  ∃ self',
    async_update_group_state light_group_state pop_first (both_on 100 100)
      (new_lightener (two_lights up_and_down)) = (self', Returned) ∧
    (_attr_brightness self'
     = _prefered_brightness (new_lightener (two_lights up_and_down)) ∨
     ∃ b, _attr_brightness self' = Some b ∧
          common_candidate [[50; 51; 206]; [50; 51; 206]] b).
Proof.
  eapply (displayed_brightness_is_voted light_group_state pop_first
            pop_first_member (both_on 100 100)
            (new_lightener (two_lights up_and_down)) _
            [[50; 51; 206]; [50; 51; 206]]).
  - reflexivity.
  - vm_compute. reflexivity.
  - apply pair_snd_eq. vm_compute. reflexivity.
Defined.

Lemma single_common_level_is_displayed_witness :
  ∃ self',
    async_update_group_state light_group_state pop_first (both_on 60 60)
      (set_prefered_brightness (Some 200) (new_lightener (two_lights [])))
    = (self', Returned) ∧
    _attr_brightness self' = Some 60.
Proof.
  eapply (single_common_level_is_displayed light_group_state pop_first
            pop_first_member (both_on 60 60)
            (set_prefered_brightness (Some 200) (new_lightener (two_lights [])))
            _ [[60]; [60]] 60).
  - reflexivity.
  - vm_compute. reflexivity.
  - apply pair_snd_eq. vm_compute. reflexivity.
  - intros H. discriminate H.
  - intros l Hl. apply elem_of_cons in Hl as [-> | Hl];
      [apply list_elem_of_here |].
    apply list_elem_of_singleton in Hl as ->. apply list_elem_of_here.
  - intros y Hy. apply list_elem_of_singleton. apply Hy, list_elem_of_here.
Defined.

Lemma update_never_raises_witness :
  (async_update_group_state light_group_state pop_first (both_on 100 200)
     (new_lightener (two_lights []))).2 = Returned.
Proof.
  apply (update_never_raises light_group_state pop_first (both_on 100 200)
           (new_lightener (two_lights []))).
  - apply (two_lights_well_formed []). vm_compute. reflexivity.
  - apply both_on_in_range; lia.
Defined.

Lemma dispatch_addresses_each_light_witness :
  ∃ r' commands,
    dispatch light_group_state pop_first brightness_128 (Some 128)
      (two_lights []) 0
      (with_self (set_is_frozen true (new_lightener (two_lights [])))
         (example_run calls_complete)) = (r', Returned) ∧
    run_calls r' = [] ++ commands ∧
    (λ c, service_data c !! ATTR_ENTITY_ID) <$> commands
    = (λ e, Some (VStr (entity_id e))) <$> two_lights [].
Proof.
  apply (dispatch_addresses_each_light light_group_state pop_first
           brightness_128 (Some 128) (two_lights []) 0
           (with_self (set_is_frozen true (new_lightener (two_lights [])))
              (example_run calls_complete))).
  - reflexivity.
  - apply (two_lights_well_formed []). vm_compute. reflexivity.
  - intros b Hb. injection Hb as <-. lia.
  - repeat constructor.
Defined.

Lemma turn_on_twice_same_commands_witness :
  ∃ r1 r2 commands,
    async_turn_on light_group_state pop_first ha_forwarded_attributes
      brightness_128 (example_run []) = (r1, Returned) ∧
    run_calls r1 = run_calls (example_run []) ++ commands ∧
    async_turn_on light_group_state pop_first ha_forwarded_attributes
      brightness_128 r1 = (r2, Returned) ∧
    run_calls r2 = run_calls r1 ++ commands.
Proof.
  apply (turn_on_twice_same_commands light_group_state pop_first
           ha_forwarded_attributes brightness_128 128 (example_run [])).
  - vm_compute. reflexivity.
  - lia.
  - apply (two_lights_well_formed []). vm_compute. reflexivity.
  - constructor.
  - apply both_on_in_range; lia.
Defined.

Lemma turn_off_remembers_brightness_witness :
  _prefered_brightness
    (run_self (async_turn_off light_group_state pop_first
                 light_group_turn_off ∅ off_run).1) = Some 77 ∧
  _attr_brightness
    (run_self (async_turn_off light_group_state pop_first
                 light_group_turn_off ∅ off_run).1) = None ∧
  (begin_turn_on ∅
     (run_self (async_turn_off light_group_state pop_first
                  light_group_turn_off ∅ off_run).1)).1 = Some 77.
Proof.
  apply (turn_off_remembers_brightness light_group_state pop_first
           light_group_turn_off ∅ ∅ off_run).
  - apply pair_snd_eq. vm_compute. reflexivity.
  - vm_compute. intros H. discriminate H.
  - reflexivity.
Defined.

Lemma lightener_init_well_formed_witness :
  ∃ self,
    LightenerLight__init__ ha_value_to_brightness
      {| g_is_on := None; g_brightness := None;
         g_color_mode := Some UNKNOWN;
         g_supported_color_modes := Some [ONOFF] |}
      (Some [("light.a", []); ("light.b", up_and_down)]) = Some self ∧
    _entity_ids self = ["light.a"; "light.b"] ∧
    (async_update_group_state light_group_state pop_first (both_on 100 200)
       self).2 = Returned.
Proof.
  destruct (lightener_init_well_formed ha_value_to_brightness
              {| g_is_on := None; g_brightness := None;
                 g_color_mode := Some UNKNOWN;
                 g_supported_color_modes := Some [ONOFF] |}
              (Some [("light.a", []); ("light.b", up_and_down)])
              ha_value_to_brightness_range)
    as (self & E & _ & _ & Hids & _ & _ & H).
  { apply (bool_decide_unpack _). vm_compute. exact I. }
  exists self. split; [exact E |]. split; [exact Hids |].
  apply H. apply both_on_in_range; lia.
Defined.

(** * Properties of the options flow *)

Section OptionsFlowProperties.

Variable fullmatch : string → option (string * string).
Variable int : string → option Z.
Variable str : Z → string.
Variable splitlines : string → list string.
Variable state_name : string → option string.
Variable options_entities :
  option (list (string * option (list (string * string)))).

Local Abbreviation parse := (parse_brightness fullmatch int str).
Local Abbreviation valid := (valid_entry fullmatch int).
Local Abbreviation invalid := (invalid_entry fullmatch int).
Local Abbreviation step :=
  (async_step_light_configuration fullmatch int str splitlines state_name
     options_entities).
Local Abbreviation init_step :=
  (async_step_init fullmatch int str splitlines state_name options_entities).
Local Abbreviation submit :=
  (submit_all fullmatch int str splitlines state_name options_entities).
Local Abbreviation form_text := (suggested_text options_entities).

Lemma parse_brightness_cons (entry : string) (rest : list string)
    (acc : gmap Z string) (table : gmap Z string) :
  parse (entry :: rest) acc = Accepted table →
  ∃ group1 group2 left' right',
    fullmatch entry = Some (group1, group2) ∧
    int group1 = Some left' ∧ int group2 = Some right' ∧
    1 ≤ left' ≤ 100 ∧ right' ≤ 100 ∧
    parse rest (<[left' := str right']> acc) = Accepted table.
Proof.
  simpl. destruct (fullmatch entry) as [[group1 group2] |] eqn:Hm;
    [| intros H; discriminate H].
  destruct (int group1) as [left' |] eqn:H1; [| intros H; discriminate H].
  destruct (int group2) as [right' |] eqn:H2; [| intros H; discriminate H].
  case_decide as Hr; [| intros H; discriminate H].
  intros H. exists group1, group2, left', right'.
  split; [done |]. split; [done |]. split; [done |].
  split; [lia |]. split; [lia | exact H].
Qed.

Lemma parse_brightness_valid (entry : string) (rest : list string)
    (acc : gmap Z string) :
  valid entry →
  ∃ left' right', 1 ≤ left' ≤ 100 ∧ right' ≤ 100 ∧
    parse (entry :: rest) acc = parse rest (<[left' := str right']> acc).
Proof.
  intros (group1 & group2 & left' & right' & Hm & H1 & H2 & Hl & Hr).
  exists left', right'. split; [done |]. split; [done |].
  simpl. rewrite Hm, H1, H2. case_decide as Hd; [done |].
  exfalso. apply Hd. lia.
Qed.

Lemma parse_brightness_accepted (entries : list string) :
  ∀ acc table,
    parse entries acc = Accepted table →
    Forall valid entries ∧
    (∀ k v, table !! k = Some v →
       acc !! k = Some v ∨
       (1 ≤ k ≤ 100 ∧
        ∃ entry group1 group2 right',
          entry ∈ entries ∧ fullmatch entry = Some (group1, group2) ∧
          int group1 = Some k ∧ int group2 = Some right' ∧
          right' ≤ 100 ∧ v = str right')) ∧
    (∀ k, is_Some (acc !! k) → is_Some (table !! k)) ∧
    (∀ entry group1 group2 k,
       entry ∈ entries → fullmatch entry = Some (group1, group2) →
       int group1 = Some k → is_Some (table !! k)).
Proof.
  induction entries as [| entry rest IH]; intros acc table H.
  - injection H as <-. split; [constructor |]. split; [by left |].
    split; [done |]. intros entry g1 g2 k Hin. by apply elem_of_nil in Hin.
  - apply parse_brightness_cons in H
      as (group1 & group2 & left' & right' & Hm & H1 & H2 & Hl & Hr & H).
    destruct (IH _ _ H) as (Hv & Hk & Hacc & Hdom).
    split; [| split; [| split]].
    + constructor; [| exact Hv].
      exists group1, group2, left', right'. done.
    + intros k v Hkv. destruct (Hk k v Hkv) as [Hin | (Hb & e & g1 & g2 & r & He & Hrest)].
      * destruct (decide (left' = k)) as [-> | Hne].
        -- rewrite lookup_insert_eq in Hin. injection Hin as <-.
           right. split; [done |].
           exists entry, group1, group2, right'.
           split; [apply list_elem_of_here | done].
        -- rewrite lookup_insert_ne in Hin by done. by left.
      * right. split; [done |]. exists e, g1, g2, r.
        split; [by apply list_elem_of_further | done].
    + intros k Hs. apply Hacc.
      destruct (decide (left' = k)) as [-> | Hne].
      * rewrite lookup_insert_eq. by eexists.
      * by rewrite lookup_insert_ne.
    + intros e g1 g2 k He Hme Hie.
      apply elem_of_cons in He as [-> | He].
      * apply Hacc. rewrite Hm in Hme. injection Hme as <- <-.
        rewrite H1 in Hie. injection Hie as <-.
        rewrite lookup_insert_eq. by eexists.
      * by apply (Hdom e g1 g2 k).
Qed.

Lemma parse_brightness_app (pre : list string) :
  ∀ entries acc table,
    parse (pre ++ entries) acc = Accepted table →
    ∃ acc', parse entries acc' = Accepted table.
Proof.
  induction pre as [| entry pre IH]; intros entries acc table H.
  - by exists acc.
  - rewrite <- app_comm_cons in H.
    apply parse_brightness_cons in H
      as (group1 & group2 & left' & right' & _ & _ & _ & _ & _ & H).
    by apply IH in H.
Qed.

Lemma parse_brightness_untouched (entries : list string) (k : Z) :
  ∀ acc table,
    parse entries acc = Accepted table →
    (∀ entry group1 group2,
       entry ∈ entries → fullmatch entry = Some (group1, group2) →
       int group1 ≠ Some k) →
    table !! k = acc !! k.
Proof.
  induction entries as [| entry rest IH]; intros acc table H Hno.
  - by injection H as <-.
  - apply parse_brightness_cons in H
      as (group1 & group2 & left' & right' & Hm & H1 & H2 & Hl & Hr & H).
    rewrite (IH _ _ H).
    + apply lookup_insert_ne. intros ->.
      by apply (Hno entry group1 group2 (list_elem_of_here _ _) Hm).
    + intros e g1 g2 He. apply Hno. by apply list_elem_of_further.
Qed.

Lemma parse_brightness_rejected (good : list string) (entry : string)
    (rest : list string) :
  Forall valid good → invalid entry →
  ∀ acc, parse (good ++ entry :: rest) acc = Rejected entry.
Proof.
  intros Hgood Hbad. induction Hgood as [| e good He Hgood IH]; intros acc.
  - simpl. destruct Hbad as [-> | (g1 & g2 & l & r & -> & -> & -> & Hn)];
      [done |].
    case_decide as Hd; [| done]. exfalso. apply Hn. lia.
  - rewrite <- app_comm_cons.
    destruct (parse_brightness_valid e (good ++ entry :: rest) acc He)
      as (l & r & _ & _ & ->).
    apply IH.
Qed.

(** A brightness text is accepted only when every entry matches the pattern
    with a controller percentage in [1,100] and a light percentage of at
    most 100.  The accepted table has keys in [1,100] only, each with the
    [str] of the light percentage of one of the entries, and it has a key
    for the controller percentage of every entry. *)
Theorem accepted_table_is_valid (entries : list string)
    (table : gmap Z string) :
  parse_brightness fullmatch int str entries ∅ = Accepted table →
  Forall (valid_entry fullmatch int) entries ∧
  (∀ k v, table !! k = Some v →
     1 ≤ k ≤ 100 ∧
     ∃ entry group1 group2 right',
       entry ∈ entries ∧ fullmatch entry = Some (group1, group2) ∧
       int group1 = Some k ∧ int group2 = Some right' ∧
       right' ≤ 100 ∧ v = str right') ∧
  (∀ entry group1 group2 k,
     entry ∈ entries → fullmatch entry = Some (group1, group2) →
     int group1 = Some k → is_Some (table !! k)).
Proof.
  intros H. destruct (parse_brightness_accepted _ _ _ H) as (Hv & Hk & _ & Hd).
  split; [exact Hv |]. split; [| exact Hd].
  intros k v Hkv. destruct (Hk k v Hkv) as [Hin | Hr]; [| exact Hr].
  rewrite lookup_empty in Hin. discriminate Hin.
Qed.

(** When a controller percentage is entered more than once, the last entry
    for it is the one that is stored. *)
Theorem later_entry_overrides (pre : list string) (entry : string)
    (post : list string) (group1 group2 : string) (k right' : Z)
    (table : gmap Z string) :
  parse_brightness fullmatch int str (pre ++ entry :: post) ∅
  = Accepted table →
  fullmatch entry = Some (group1, group2) →
  int group1 = Some k → int group2 = Some right' →
  (∀ e g1 g2, e ∈ post → fullmatch e = Some (g1, g2) → int g1 ≠ Some k) →
  table !! k = Some (str right').
Proof.
  intros H Hm H1 H2 Hno.
  apply parse_brightness_app in H as (acc & H).
  apply parse_brightness_cons in H
    as (g1 & g2 & l & r & Hm' & H1' & H2' & _ & _ & H).
  rewrite Hm in Hm'. injection Hm' as <- <-.
  rewrite H1 in H1'. injection H1' as <-.
  rewrite H2 in H2'. injection H2' as <-.
  rewrite (parse_brightness_untouched post k _ _ H Hno).
  apply lookup_insert_eq.
Qed.

(** The first entry that does not match, or that is out of range, is
    reported: the form of the same light is shown again with the error
    [invalid_brightness], with that entry as [error_entry] and with the
    submitted text as the suggested value.  Nothing is stored and the flow
    is left as it was, so the entries after it are never looked at. *)
Theorem invalid_entry_is_reported (self : LightenerOptionsFlow)
    (user_input : gmap string (option string))
    (text : string) (good : list string) (entry : string)
    (rest remaining : list string) (light name : string) :
  user_input !! "brightness" = Some (Some text) →
  splitlines text = good ++ entry :: rest →
  Forall (valid_entry fullmatch int) good → invalid_entry fullmatch int entry →
  flow_current_light self = Some light →
  state_name light = Some name →
  flow_controlled_entities self = Some remaining →
  step (Some user_input) self
  = (self,
     Some (light_configuration_form
             (bool_decide (length remaining = 0%nat)) text
             (<["light_name" := name]> {["error_entry" := entry]})
             {["brightness" := "invalid_brightness"]})).
Proof.
  intros Hu Hs Hgood Hbad Hl Hn Hr. unfold async_step_light_configuration.
  rewrite Hu. simpl.
  rewrite Hs, (parse_brightness_rejected good entry rest Hgood Hbad).
  by rewrite Hl, Hn, Hr.
Qed.

Lemma next_light_form_pop (entities : option EntitiesData)
    (light : string) (rest : list string) (current : option string)
    (name : string) :
  state_name light = Some name →
  next_light_form state_name options_entities
    {| flow_entities := entities;
       flow_controlled_entities := Some (light :: rest);
       flow_current_light := current |}
  = ({| flow_entities := entities;
        flow_controlled_entities := Some rest;
        flow_current_light := Some light |},
     Some (light_configuration_form (bool_decide (length rest = 0%nat))
             (form_text light) {["light_name" := name]} ∅)).
Proof. intros Hn. unfold next_light_form. simpl. by rewrite Hn. Qed.

Lemma step_stores_table (entities : EntitiesData) (current : string)
    (rest : list string) (user_input : gmap string (option string))
    (text : string) (table : gmap Z string) :
  default (Some "") (user_input !! "brightness") = Some text →
  parse (splitlines text) ∅ = Accepted table →
  is_Some (entities !! current) →
  step (Some user_input)
    {| flow_entities := Some entities;
       flow_controlled_entities := Some rest;
       flow_current_light := Some current |}
  = if decide (length rest ≠ 0%nat)
    then next_light_form state_name options_entities
           {| flow_entities := Some (<[current := Some table]> entities);
              flow_controlled_entities := Some rest;
              flow_current_light := Some current |}
    else ({| flow_entities := Some (<[current := Some table]> entities);
             flow_controlled_entities := Some rest;
             flow_current_light := Some current |},
          Some (create_entry (Some (<[current := Some table]> entities)))).
Proof.
  intros Hu Hp [x Hx]. unfold async_step_light_configuration.
  rewrite Hu, Hp. simpl. by rewrite Hx.
Qed.

Lemma init_entities_lookup (ids : list string) :
  ∀ (acc : EntitiesData) (id : string),
    foldl (λ entities entity, <[entity := None]> entities) acc ids !! id
    = if decide (id ∈ ids) then Some None else acc !! id.
Proof.
  induction ids as [| x ids IH]; intros acc id; cbn [foldl].
  - destruct (decide (id ∈ [])) as [Hin |]; [by apply elem_of_nil in Hin | done].
  - rewrite IH. destruct (decide (id ∈ ids)) as [Hin | Hin].
    + rewrite decide_True; [done | by apply list_elem_of_further].
    + destruct (decide (id = x)) as [-> | Hne].
      * rewrite decide_True by apply list_elem_of_here.
        apply lookup_insert_eq.
      * rewrite decide_False.
        -- by apply lookup_insert_ne.
        -- intros [-> | Hin']%elem_of_cons; done.
Qed.

Lemma submit_all_spec (rest : list string) :
  ∀ (current : string) (entities : EntitiesData)
    (inputs : list (gmap string (option string)))
    (tables : list (gmap Z string)),
    NoDup (current :: rest) →
    Forall (λ id, is_Some (state_name id)) rest →
    Forall2 (λ user_input table,
               ∃ text,
                 default (Some "") (user_input !! "brightness") = Some text ∧
                 parse (splitlines text) ∅ = Accepted table)
            inputs tables →
    length inputs = S (length rest) →
    is_Some (entities !! current) →
    (∀ id, id ∈ rest → is_Some (entities !! id)) →
    (∀ i next, rest !! i = Some next →
       ∃ name, state_name next = Some name ∧
         submit inputs {| flow_entities := Some entities;
                          flow_controlled_entities := Some rest;
                          flow_current_light := Some current |} !! i
         = Some (Some (light_configuration_form
                         (bool_decide (S i = length rest))
                         (form_text next) {["light_name" := name]} ∅))) ∧
    ∃ final,
      submit inputs {| flow_entities := Some entities;
                       flow_controlled_entities := Some rest;
                       flow_current_light := Some current |} !! length rest
      = Some (Some (create_entry (Some final))) ∧
      (∀ i id table, (current :: rest) !! i = Some id →
                     tables !! i = Some table →
                     final !! id = Some (Some table)) ∧
      (∀ id, id ∉ current :: rest → final !! id = entities !! id).
Proof.
  induction rest as [| next rest IH];
    intros current entities inputs tables Hnd Hnames Hacc Hlen Hcur Hrest.
  - destruct Hacc as [| user_input table inputs' tables' (text & Hu & Hp) Hacc];
      [discriminate Hlen |].
    destruct Hacc; [| discriminate Hlen].
    split; [intros i next Hi; discriminate Hi |].
    exists (<[current := Some table]> entities).
    cbn [submit_all]. rewrite (step_stores_table _ _ _ _ _ _ Hu Hp Hcur).
    rewrite decide_False by (simpl; lia).
    split; [done |]. split.
    + intros [| i] id tb Hi Ht; [| discriminate Hi].
      injection Hi as <-. injection Ht as <-. apply lookup_insert_eq.
    + intros id Hid. apply lookup_insert_ne. intros ->.
      apply Hid, list_elem_of_here.
  - destruct Hacc as [| user_input table inputs' tables' (text & Hu & Hp) Hacc];
      [discriminate Hlen |].
    apply Forall_cons in Hnames as [[name Hname] Hnames].
    apply NoDup_cons in Hnd as [Hcur_notin Hnd].
    simpl in Hlen. injection Hlen as Hlen.
    set (entities' := <[current := Some table]> entities).
    assert (Hstep :
      step (Some user_input)
        {| flow_entities := Some entities;
           flow_controlled_entities := Some (next :: rest);
           flow_current_light := Some current |}
      = ({| flow_entities := Some entities';
            flow_controlled_entities := Some rest;
            flow_current_light := Some next |},
         Some (light_configuration_form (bool_decide (length rest = 0%nat))
                 (form_text next) {["light_name" := name]} ∅))).
    { rewrite (step_stores_table _ _ _ _ _ _ Hu Hp Hcur).
      rewrite decide_True by (simpl; lia).
      by apply next_light_form_pop. }
    assert (Hnext : is_Some (entities' !! next)).
    { unfold entities'. rewrite lookup_insert_ne.
      - apply Hrest, list_elem_of_here.
      - intros ->. apply Hcur_notin, list_elem_of_here. }
    assert (Hrest' : ∀ id, id ∈ rest → is_Some (entities' !! id)).
    { intros id Hid. unfold entities'.
      destruct (decide (current = id)) as [-> | Hne].
      - rewrite lookup_insert_eq. by eexists.
      - rewrite lookup_insert_ne by done.
        by apply Hrest, list_elem_of_further. }
    destruct (IH next entities' inputs' tables' Hnd Hnames Hacc Hlen Hnext Hrest')
      as (Hforms & final & Hfinal & Htables & Hother).
    cbn [submit_all]. rewrite Hstep. cbn [fst snd].
    split.
    + intros [| i] nx Hi.
      * injection Hi as <-. exists name. split; [exact Hname |].
        simpl. do 3 f_equal. apply bool_decide_ext. simpl. lia.
      * destruct (Hforms i nx Hi) as (nm & Hnm & Hres).
        exists nm. split; [exact Hnm |]. simpl. rewrite Hres.
        do 3 f_equal. apply bool_decide_ext. simpl. lia.
    + exists final. split; [exact Hfinal |]. split.
      * intros [| i] id tb Hi Ht.
        -- injection Hi as <-. injection Ht as <-.
           rewrite Hother.
           ++ apply lookup_insert_eq.
           ++ exact Hcur_notin.
        -- by apply (Htables i).
      * intros id Hid. rewrite Hother.
        -- apply lookup_insert_ne. intros ->. apply Hid, list_elem_of_here.
        -- intros Hin. apply Hid. by apply list_elem_of_further.
Qed.

(** The options flow visits every selected light once, in the order of the
    selection.  When the selected lights are distinct and have a state, and
    one input with an accepted text (or without the brightness key, which
    is the empty text) is submitted per form, the selection step shows the
    form of the first light, every submission but the last shows the form
    of the next light ([last_step] exactly for the last light), and the
    last submission creates the entry: its data holds, for every selected
    light, the table accepted from the text submitted for it, and no other
    light. *)
Theorem wizard_configures_each_light (self : LightenerOptionsFlow)
    (first : string) (rest : list string)
    (inputs : list (gmap string (option string)))
    (tables : list (gmap Z string)) :
  NoDup (first :: rest) →
  Forall (λ id, is_Some (state_name id)) (first :: rest) →
  Forall2 (λ user_input table,
             ∃ text,
               default (Some "") (user_input !! "brightness") = Some text ∧
               parse_brightness fullmatch int str (splitlines text) ∅
               = Accepted table)
          inputs tables →
  length inputs = S (length rest) →
  ∃ self1 name,
    state_name first = Some name ∧
    init_step (Some (Some (first :: rest))) self
    = (self1, Some (light_configuration_form
                      (bool_decide (length rest = 0%nat))
                      (form_text first) {["light_name" := name]} ∅)) ∧
    (∀ i next, rest !! i = Some next →
       ∃ name', state_name next = Some name' ∧
         submit inputs self1 !! i
         = Some (Some (light_configuration_form
                         (bool_decide (S i = length rest))
                         (form_text next) {["light_name" := name']} ∅))) ∧
    ∃ final,
      submit inputs self1 !! length rest
      = Some (Some (create_entry (Some final))) ∧
      (∀ i id table, (first :: rest) !! i = Some id →
                     tables !! i = Some table →
                     final !! id = Some (Some table)) ∧
      (∀ id, id ∉ first :: rest → final !! id = None).
Proof.
  intros Hnd Hnames Hacc Hlen.
  apply Forall_cons in Hnames as [[name Hname] Hnames].
  set (entities := foldl (λ entities entity, <[entity := None]> entities)
                         (∅ : EntitiesData) (first :: rest)).
  assert (Hin : ∀ id, id ∈ first :: rest → is_Some (entities !! id)).
  { intros id Hid. unfold entities. rewrite init_entities_lookup.
    rewrite decide_True by done. by eexists. }
  destruct (submit_all_spec rest first entities inputs tables Hnd Hnames Hacc
              Hlen (Hin _ (list_elem_of_here _ _))
              (λ id Hid, Hin id (list_elem_of_further _ _ _ Hid)))
    as (Hforms & final & Hfinal & Htables & Hother).
  eexists _, name. split; [exact Hname |]. split.
  { unfold async_step_init, async_step_light_configuration.
    fold entities. by apply next_light_form_pop. }
  split; [exact Hforms |].
  exists final. split; [exact Hfinal |]. split; [exact Htables |].
  intros id Hid. rewrite (Hother id Hid). unfold entities.
  rewrite init_entities_lookup. by rewrite decide_False.
Qed.

(** The selection step returns a result exactly when at least one light
    is selected and the first selected light has a state: with an empty
    selection the [pop(0)] raises, and without a state the name of the
    state cannot be read. *)
Theorem init_step_returns_iff (self : LightenerOptionsFlow)
    (ids : list string) :
  (init_step (Some (Some ids)) self).2 ≠ None ↔
  ∃ first rest, ids = first :: rest ∧ is_Some (state_name first).
Proof.
  unfold async_step_init, async_step_light_configuration, next_light_form.
  cbn [flow_controlled_entities]. destruct ids as [| first rest].
  - split; [done |]. intros (f & r & H & _). discriminate H.
  - destruct (state_name first) as [name |] eqn:Hn.
    + split; [| done]. intros _. exists first, rest. split; [done |].
      rewrite Hn. by eexists.
    + split; [done |]. intros (f & r & H & Hs). injection H as <- <-.
      rewrite Hn in Hs. by destruct Hs.
Qed.

Lemma parse_brightness_total (entries : list string) :
  (∀ entry group1 group2, fullmatch entry = Some (group1, group2) →
                          is_Some (int group1) ∧ is_Some (int group2)) →
  ∀ acc, parse entries acc ≠ ParseRaised.
Proof.
  intros Hint. induction entries as [| entry rest IH]; intros acc; [done |].
  simpl. destruct (fullmatch entry) as [[group1 group2] |] eqn:Hm; [| done].
  destruct (Hint _ _ _ Hm) as [[left' ->] [right' ->]].
  case_decide; [apply IH | done].
Qed.

Lemma stored_step_returns (entities : EntitiesData) (current : string)
    (remaining : list string) :
  (∀ next, head remaining = Some next → is_Some (state_name next)) →
  (if decide (length remaining ≠ 0%nat)
   then next_light_form state_name options_entities
          {| flow_entities := Some entities;
             flow_controlled_entities := Some remaining;
             flow_current_light := Some current |}
   else ({| flow_entities := Some entities;
            flow_controlled_entities := Some remaining;
            flow_current_light := Some current |},
         Some (create_entry (Some entities)))).2 ≠ None.
Proof.
  intros Hnext. case_decide as Hlen; [| done].
  unfold next_light_form. cbn [flow_controlled_entities].
  destruct remaining as [| next rest]; [done |].
  destruct (Hnext next eq_refl) as [name' ->]. done.
Qed.

(** The light configuration step raises on one input only.  While the flow
    is where the selection step and the earlier submissions leave it (the
    current light is one of the entities and has a state, and so has the
    light that comes next, if any), and provided [int] reads every matched
    group and the empty text has no lines, the step returns a result for
    every submitted dict whose brightness is a text or is absent, whatever
    the text is; it raises exactly when the dict holds [None] under the
    brightness key, where [None.splitlines()] fails. *)
Theorem light_configuration_raises_iff_none (self : LightenerOptionsFlow)
    (user_input : gmap string (option string)) (entities : EntitiesData)
    (current : string) (remaining : list string) :
  (∀ entry group1 group2, fullmatch entry = Some (group1, group2) →
                          is_Some (int group1) ∧ is_Some (int group2)) →
  splitlines "" = [] →
  flow_entities self = Some entities →
  flow_current_light self = Some current →
  flow_controlled_entities self = Some remaining →
  is_Some (entities !! current) →
  is_Some (state_name current) →
  (∀ next, head remaining = Some next → is_Some (state_name next)) →
  (step (Some user_input) self).2 = None ↔
  user_input !! "brightness" = Some None.
Proof.
  intros Hint Hempty He Hc Hr [x Hx] [name Hname] Hnext.
  destruct self as [flow_entities' controlled current'].
  simpl in He, Hc, Hr. subst flow_entities' controlled current'.
  unfold async_step_light_configuration.
  destruct (user_input !! "brightness") as [[text |] |] eqn:Hu;
    cbn [from_option id].
  - split; [| intros H; discriminate H]. intros Hnone. exfalso.
    revert Hnone.
    destruct (parse (splitlines text) ∅) as [table | entry |] eqn:Hp.
    + simpl. rewrite Hx. intros Hnone.
      exact (stored_step_returns _ _ _ Hnext Hnone).
    + simpl. rewrite Hname. intros H. discriminate H.
    + by apply parse_brightness_total in Hp.
  - done.
  - split; [| intros H; discriminate H]. intros Hnone. exfalso.
    revert Hnone. rewrite Hempty. simpl. rewrite Hx. intros Hnone.
    exact (stored_step_returns _ _ _ Hnext Hnone).
Qed.

End OptionsFlowProperties.

(** ** Examples for the options flow *)

Lemma accepted_table_is_valid_witness :
  Forall (valid_entry ascii_fullmatch ascii_int)
         (ascii_splitlines two_entries) ∧
  ∀ k v, ({[50 := "100"; 100 := "0"]} : gmap Z string) !! k = Some v →
         1 ≤ k ≤ 100.
Proof.
  destruct (accepted_table_is_valid ascii_fullmatch ascii_int ascii_str
              (ascii_splitlines two_entries) {[50 := "100"; 100 := "0"]})
    as (Hvalid & Hkeys & _).
  { vm_compute. reflexivity. }
  split; [exact Hvalid |]. intros k v Hkv. apply (Hkeys k v Hkv).
Defined.

Lemma later_entry_overrides_witness :
  ({[50 := "20"; 60 := "1"]} : gmap Z string) !! 50 = Some (ascii_str 20).
Proof.
  apply (later_entry_overrides ascii_fullmatch ascii_int ascii_str
           ["50: 100"] "50: 20" ["60: 1"] "50" "20" 50 20).
  - vm_compute. reflexivity.
  - vm_compute. reflexivity.
  - reflexivity.
  - reflexivity.
  - intros e g1 g2 He Hm. apply list_elem_of_singleton in He as ->.
    vm_compute in Hm. injection Hm as <- _. vm_compute. intros H.
    discriminate H.
Defined.

Lemma invalid_entry_is_reported_witness :
  async_step_light_configuration ascii_fullmatch ascii_int ascii_str
    ascii_splitlines example_state_name example_options
    (Some {["brightness" := Some bad_second_entry]}) configuring_first
  = (configuring_first,
     Some (light_configuration_form
             (bool_decide (length ["light.b"] = 0%nat)) bad_second_entry
             (<["light_name" := "Desk"]> {["error_entry" := "0: 10"]})
             {["brightness" := "invalid_brightness"]})).
Proof.
  apply (invalid_entry_is_reported ascii_fullmatch ascii_int ascii_str
           ascii_splitlines example_state_name example_options
           configuring_first {["brightness" := Some bad_second_entry]}
           bad_second_entry ["50: 100"] "0: 10" []
           ["light.b"] "light.a" "Desk").
  - reflexivity.
  - vm_compute. reflexivity.
  - constructor; [| constructor].
    exists "50", "100", 50, 100.
    split; [vm_compute; reflexivity |]. split; [reflexivity |].
    split; [reflexivity |]. lia.
  - right. exists "0", "10", 0, 10.
    split; [vm_compute; reflexivity |]. split; [reflexivity |].
    split; [reflexivity |]. lia.
  - reflexivity.
  - reflexivity.
  - reflexivity.
Defined.

Lemma wizard_configures_each_light_witness :
  ∃ self1 form,
    async_step_init ascii_fullmatch ascii_int ascii_str ascii_splitlines
      example_state_name example_options
      (Some (Some ["light.a"; "light.b"])) new_options_flow
    = (self1, Some form) ∧
    ∃ final,
      submit_all ascii_fullmatch ascii_int ascii_str ascii_splitlines
        example_state_name example_options
        [{["brightness" := Some two_entries]}; ∅] self1
        !! 1%nat
      = Some (Some (create_entry (Some final))) ∧
      final !! "light.a" = Some (Some {[50 := "100"; 100 := "0"]}) ∧
      final !! "light.b" = Some (Some ∅).
Proof.
  destruct (wizard_configures_each_light ascii_fullmatch ascii_int ascii_str
              ascii_splitlines example_state_name example_options
              new_options_flow "light.a" ["light.b"]
              [{["brightness" := Some two_entries]}; ∅]
              [{[50 := "100"; 100 := "0"]}; ∅])
    as (self1 & name & _ & Hinit & _ & final & Hfinal & Htables & _).
  - apply (bool_decide_unpack _). vm_compute. exact I.
  - repeat constructor; by eexists.
  - constructor.
    { exists two_entries. split; [reflexivity | vm_compute; reflexivity]. }
    constructor; [| constructor].
    exists "". split; [reflexivity | vm_compute; reflexivity].
  - reflexivity.
  - exists self1. eexists. split; [exact Hinit |].
    exists final. split; [exact Hfinal |]. split.
    + apply (Htables 0%nat); reflexivity.
    + apply (Htables 1%nat); reflexivity.
Defined.

Lemma light_configuration_raises_iff_none_witness :
  (async_step_light_configuration ascii_fullmatch ascii_int ascii_str
     ascii_splitlines example_state_name example_options
     (Some {["brightness" := Some bad_second_entry]}) configuring_first).2
  ≠ None ∧
  (async_step_light_configuration ascii_fullmatch ascii_int ascii_str
     ascii_splitlines example_state_name example_options
     (Some {["brightness" := None]}) configuring_first).2 = None.
Proof.
  assert (Hflow : ∀ user_input : gmap string (option string),
    (async_step_light_configuration ascii_fullmatch ascii_int ascii_str
       ascii_splitlines example_state_name example_options
       (Some user_input) configuring_first).2 = None ↔
    user_input !! "brightness" = Some None).
  { intros user_input.
    apply (light_configuration_raises_iff_none ascii_fullmatch ascii_int
             ascii_str ascii_splitlines example_state_name example_options
             configuring_first user_input
             {["light.a" := None; "light.b" := None]} "light.a" ["light.b"]).
    - intros entry group1 group2 _. split; by eexists.
    - reflexivity.
    - reflexivity.
    - reflexivity.
    - reflexivity.
    - by eexists.
    - by eexists.
    - intros next Hn. injection Hn as <-. by eexists. }
  split.
  - intros H. apply Hflow in H. discriminate H.
  - by apply Hflow.
Defined.
